(** * Peer API file-drop service: a shallow embedding and its properties

    The development follows the Go source of the peer API server
    (package [ipnlocal]): the filename gate [diskPath], the staging store
    ([hasFilesWaiting], [WaitingFiles], [DeleteFile], [OpenFile]), the port
    picker [listen], the upload object [incomingFile] and the HTTP handler
    ([ServeHTTP], [handlePeerPut]).

    Go strings are byte sequences: they are [string] here (a list of 8-bit
    [ascii]); file contents and request bodies are [list Byte.byte]; runes
    and machine integers are [Z] with their wrap-around written out.  The
    file system, the clock, the backend's registry of uploads and its
    notification bus are an explicit [World] that every operation threads. *)

From Stdlib Require Import ZArith Lia Bool List Ascii String DecimalString.
From stdpp Require Import base gmap strings list.

Open Scope Z_scope.

(** ** Bytes and characters *)

Definition byteZ (c : ascii) : Z := Z.of_N (N_of_ascii c).
Definition chr (z : Z) : ascii := ascii_of_N (Z.to_N z).
Definition str1 (z : Z) : string := String (chr z) EmptyString.

(** Line feed and the double quote, which string literals cannot spell. *)
Definition nl : string := str1 10.
Definition dq : string := str1 34.

Definition inRange (lo hi x : Z) : bool := (lo <=? x) && (x <=? hi).

Fixpoint dropS (n : nat) (s : string) : string :=
  match n, s with
  | O, _ => s
  | S _, EmptyString => EmptyString
  | S n', String _ t => dropS n' t
  end.

Definition revS (s : string) : string :=
  string_of_list_ascii (rev (list_ascii_of_string s)).

(** ** Package strings *)

Module GoStrings.

Definition HasPrefix (s pre : string) : bool := String.prefix pre s.

Definition HasSuffix (s suffix : string) : bool :=
  String.prefix (revS suffix) (revS s).

(** [TrimPrefix] returns [s] without the leading [pre], or [s] itself when
    [s] does not start with [pre]. *)
Definition TrimPrefix (s pre : string) : string :=
  if HasPrefix s pre then dropS (String.length pre) s else s.

Fixpoint Contains (s substr : string) : bool :=
  String.prefix substr s ||
  match s with
  | EmptyString => false
  | String _ t => Contains t substr
  end.

Definition IndexByte (s : string) (c : Z) : bool :=
  existsb (fun a => byteZ a =? c) (list_ascii_of_string s).

End GoStrings.

(** ** Package unicode/utf8 *)

Module Utf8.

Definition RuneError : Z := 0xFFFD.
Definition RuneSelf : Z := 0x80.

(** The table [first] of the Go decoder: for a leading byte, the length of
    the encoding and the range accepted for the second byte. *)
Definition first (b0 : Z) : option (nat * Z * Z) :=
  if inRange 0xC2 0xDF b0 then Some (2%nat, 0x80, 0xBF)
  else if b0 =? 0xE0 then Some (3%nat, 0xA0, 0xBF)
  else if inRange 0xE1 0xEC b0 then Some (3%nat, 0x80, 0xBF)
  else if b0 =? 0xED then Some (3%nat, 0x80, 0x9F)
  else if inRange 0xEE 0xEF b0 then Some (3%nat, 0x80, 0xBF)
  else if b0 =? 0xF0 then Some (4%nat, 0x90, 0xBF)
  else if inRange 0xF1 0xF3 b0 then Some (4%nat, 0x80, 0xBF)
  else if b0 =? 0xF4 then Some (4%nat, 0x80, 0x8F)
  else None.

Definition cont (b : Z) : bool := inRange 0x80 0xBF b.

(** One well-formed encoding at the head of [s]: the rune and its width.
    [None] when the head is not a well-formed encoding. *)
Definition decode1 (s : string) : option (Z * nat) :=
  match s with
  | EmptyString => None
  | String c0 t1 =>
    let b0 := byteZ c0 in
    if b0 <? RuneSelf then Some (b0, 1%nat)
    else
      match first b0 with
      | None => None
      | Some (size, lo, hi) =>
        match t1 with
        | EmptyString => None
        | String c1 t2 =>
          let b1 := byteZ c1 in
          if negb (inRange lo hi b1) then None
          else if (size =? 2)%nat then
            Some (Z.lor (Z.shiftl (Z.land b0 0x1F) 6) (Z.land b1 0x3F), 2%nat)
          else
            match t2 with
            | EmptyString => None
            | String c2 t3 =>
              let b2 := byteZ c2 in
              if negb (cont b2) then None
              else if (size =? 3)%nat then
                Some (Z.lor (Z.lor (Z.shiftl (Z.land b0 0x0F) 12)
                                   (Z.shiftl (Z.land b1 0x3F) 6))
                            (Z.land b2 0x3F), 3%nat)
              else
                match t3 with
                | EmptyString => None
                | String c3 _ =>
                  let b3 := byteZ c3 in
                  if negb (cont b3) then None
                  else
                    Some (Z.lor (Z.lor (Z.lor (Z.shiftl (Z.land b0 0x07) 18)
                                              (Z.shiftl (Z.land b1 0x3F) 12))
                                       (Z.shiftl (Z.land b2 0x3F) 6))
                                (Z.land b3 0x3F), 4%nat)
                end
            end
        end
      end
  end.

(** [DecodeRuneInString]: an ill-formed head decodes to [RuneError] of
    width 1, the empty string to [RuneError] of width 0. *)
Definition DecodeRuneInString (s : string) : Z * nat :=
  match s with
  | EmptyString => (RuneError, 0%nat)
  | _ => match decode1 s with
         | Some p => p
         | None => (RuneError, 1%nat)
         end
  end.

Fixpoint validFrom (fuel : nat) (s : string) : bool :=
  match fuel with
  | O => true
  | S fuel' =>
    match s with
    | EmptyString => true
    | _ => match decode1 s with
           | None => false
           | Some (_, size) => validFrom fuel' (dropS size s)
           end
    end
  end.

Definition ValidString (s : string) : bool := validFrom (String.length s) s.

(** The runes a [for _, r := range s] loop visits, each with the bytes it
    was decoded from. *)
Fixpoint chunksFrom (fuel : nat) (s : string) : list (Z * string) :=
  match fuel with
  | O => []
  | S fuel' =>
    match s with
    | EmptyString => []
    | _ => let '(r, size) := DecodeRuneInString s in
           (r, substring 0 size s) :: chunksFrom fuel' (dropS size s)
    end
  end.

Definition runeChunks (s : string) : list (Z * string) :=
  chunksFrom (String.length s) s.

Definition runes (s : string) : list Z := map fst (runeChunks s).

End Utf8.

(** ** Package unicode *)

Module Unicode.

(** [IsSpace]: the Latin-1 cases, then the White_Space table above Latin-1. *)
Definition IsSpace (r : Z) : bool :=
  if inRange 0 0xFF r then
    inRange 9 13 r || (r =? 32) || (r =? 0x85) || (r =? 0xA0)
  else
    (r =? 0x1680) || inRange 0x2000 0x200A r || inRange 0x2028 0x2029 r
    || (r =? 0x202F) || (r =? 0x205F) || (r =? 0x3000).

(** The [pp] bit of the Latin-1 property table: graphic characters and the
    ASCII space. *)
Definition latin1Print (r : Z) : bool :=
  inRange 0x20 0x7E r || inRange 0xA1 0xAC r || inRange 0xAE 0xFF r.

End Unicode.

Module GoStringsTrim.

Definition asciiSpace (c : Z) : bool := inRange 9 13 c || (c =? 32).

Definition concatChunks (l : list (Z * string)) : string :=
  fold_right (fun p acc => snd p +:+ acc) EmptyString l.

Fixpoint dropWhileSpace (l : list (Z * string)) : list (Z * string) :=
  match l with
  | [] => []
  | (r, bs) :: t => if Unicode.IsSpace r then dropWhileSpace t else l
  end.

(** [TrimLeftFunc s unicode.IsSpace] and [TrimRightFunc s unicode.IsSpace]:
    the leading (trailing) runes that are spaces are cut off.  An
    ill-formed byte decodes to [RuneError], which is no space. *)
Definition TrimLeftSpace (s : string) : string :=
  concatChunks (dropWhileSpace (Utf8.runeChunks s)).

Definition TrimRightSpace (s : string) : string :=
  concatChunks (rev (dropWhileSpace (rev (Utf8.runeChunks s)))).

Definition TrimFuncSpace (s : string) : string :=
  TrimRightSpace (TrimLeftSpace s).

(** The scan from the end of [TrimSpace], on the reversed bytes. *)
Fixpoint trimStop (r : list ascii) : string :=
  match r with
  | [] => EmptyString
  | c :: r' =>
    if Utf8.RuneSelf <=? byteZ c then
      TrimRightSpace (string_of_list_ascii (rev r))
    else if asciiSpace (byteZ c) then trimStop r'
    else string_of_list_ascii (rev r)
  end.

(** [TrimSpace]: the ASCII fast path from the start, falling back to the
    rune-aware trim at the first byte that is not ASCII. *)
Fixpoint TrimSpace (s : string) : string :=
  match s with
  | EmptyString => EmptyString
  | String c t =>
    if Utf8.RuneSelf <=? byteZ c then TrimFuncSpace s
    else if asciiSpace (byteZ c) then TrimSpace t
    else trimStop (rev (list_ascii_of_string s))
  end.

End GoStringsTrim.

(** ** Package path (slash-separated paths) *)

Module Path.

Definition slash : Z := 47.
Definition dot : Z := 46.

Definition isSlash (c : ascii) : bool := byteZ c =? slash.
Definition isDot (c : ascii) : bool := byteZ c =? dot.

(** The end of the input or a slash follows. *)
Definition atSep (rest : list ascii) : bool :=
  match rest with
  | [] => true
  | c :: _ => isSlash c
  end.

(** Backing up over the last element of the output buffer, for a [..]
    element: [out.w--] and then the loop that stops after a slash was
    dropped or at [dotdot].  [rout] is the buffer, last byte first. *)
Fixpoint backtrack (rout : list ascii) (dotdot : nat) : list ascii :=
  match rout with
  | [] => []
  | c :: rest =>
    if (dotdot <? length rest)%nat && negb (isSlash c)
    then backtrack rest dotdot
    else rest
  end.

(** The main loop of [Clean].  [copying] is set inside the inner loop that
    copies one element up to the next slash. *)
Fixpoint cleanLoop (rest : list ascii) (copying rooted : bool)
         (rout : list ascii) (dotdot : nat) : list ascii :=
  match rest with
  | [] => rout
  | c :: rest1 =>
    if copying then
      if isSlash c then cleanLoop rest1 false rooted rout dotdot
      else cleanLoop rest1 true rooted (c :: rout) dotdot
    else if isSlash c then
      cleanLoop rest1 false rooted rout dotdot
    else if isDot c && atSep rest1 then
      cleanLoop rest1 false rooted rout dotdot
    else
      match rest1 with
      | c1 :: rest2 =>
        if isDot c && isDot c1 && atSep rest2 then
          if (dotdot <? length rout)%nat then
            cleanLoop rest2 false rooted (backtrack rout dotdot) dotdot
          else if negb rooted then
            let rout1 := if (0 <? length rout)%nat
                         then chr slash :: rout else rout in
            let rout2 := chr dot :: chr dot :: rout1 in
            cleanLoop rest2 false rooted rout2 (length rout2)
          else cleanLoop rest2 false rooted rout dotdot
        else
          let rout1 :=
            if (rooted && negb (length rout =? 1)%nat)
               || (negb rooted && negb (length rout =? 0)%nat)
            then chr slash :: rout else rout in
          cleanLoop rest1 true rooted (c :: rout1) dotdot
      | [] =>
        let rout1 :=
          if (rooted && negb (length rout =? 1)%nat)
             || (negb rooted && negb (length rout =? 0)%nat)
          then chr slash :: rout else rout in
        cleanLoop rest1 true rooted (c :: rout1) dotdot
      end
  end.

Definition Clean (p : string) : string :=
  match list_ascii_of_string p with
  | [] => "."
  | c :: rest =>
    let rooted := isSlash c in
    let rout :=
      if rooted then cleanLoop rest false true [chr slash] 1%nat
      else cleanLoop (c :: rest) false false [] 0%nat in
    match rout with
    | [] => "."
    | _ => string_of_list_ascii (rev rout)
    end
  end.

End Path.

(** ** Package path/filepath, for a slash-separated host *)

Module Filepath.

Definition Clean (p : string) : string := Path.Clean p.

(** [Join] of two elements: the elements from the first non-empty one on
    are joined with the separator and the result is cleaned. *)
Definition Join (a b : string) : string :=
  if negb (String.eqb a EmptyString) then Clean (a +:+ "/" +:+ b)
  else if negb (String.eqb b EmptyString) then Clean b
  else EmptyString.

Fixpoint dropTrailingSlashes (r : list ascii) : list ascii :=
  match r with
  | c :: r' => if Path.isSlash c then dropTrailingSlashes r' else r
  | [] => []
  end.

Fixpoint takeToSlash (r : list ascii) : list ascii :=
  match r with
  | c :: r' => if Path.isSlash c then [] else c :: takeToSlash r'
  | [] => []
  end.

Fixpoint dropToSlash (r : list ascii) : list ascii :=
  match r with
  | c :: r' => if Path.isSlash c then r else dropToSlash r'
  | [] => []
  end.

(** [Base]: the last element of the path, trailing slashes removed. *)
Definition Base (p : string) : string :=
  if String.eqb p EmptyString then "."
  else
    let r := dropTrailingSlashes (rev (list_ascii_of_string p)) in
    match takeToSlash r with
    | [] => "/"
    | l => string_of_list_ascii (rev l)
    end.

(** [Dir]: all but the last element, cleaned. *)
Definition Dir (p : string) : string :=
  Clean (string_of_list_ascii
           (rev (dropToSlash (rev (list_ascii_of_string p))))).

End Filepath.

(** ** Package net/url *)

Module Url.

Definition ishex (c : Z) : bool :=
  inRange 48 57 c || inRange 97 102 c || inRange 65 70 c.

Definition unhex (c : Z) : Z :=
  if inRange 48 57 c then c - 48
  else if inRange 97 102 c then c - 97 + 10
  else if inRange 65 70 c then c - 65 + 10
  else 0.

(** [PathUnescape]: every [%] must be followed by two hexadecimal digits,
    which it replaces with their byte; a [+] stays a [+].  [None] is the
    [EscapeError]. *)
Fixpoint PathUnescape (s : string) : option string :=
  match s with
  | EmptyString => Some EmptyString
  | String c t =>
    if byteZ c =? 37 then
      match t with
      | String h1 (String h2 rest) =>
        if ishex (byteZ h1) && ishex (byteZ h2) then
          match PathUnescape rest with
          | Some u =>
            Some (String (chr (Z.lor (Z.shiftl (unhex (byteZ h1)) 4)
                                     (unhex (byteZ h2)))) u)
          | None => None
          end
        else None
      | _ => None
      end
    else
      match PathUnescape t with
      | Some u => Some (String c u)
      | None => None
      end
  end.

End Url.

(** ** Package html *)

Module Html.

Definition escapeByte (c : ascii) : string :=
  let b := byteZ c in
  if b =? 38 then "&amp;"
  else if b =? 39 then "&#39;"
  else if b =? 60 then "&lt;"
  else if b =? 62 then "&gt;"
  else if b =? 34 then "&#34;"
  else String c EmptyString.

Fixpoint EscapeString (s : string) : string :=
  match s with
  | EmptyString => EmptyString
  | String c t => escapeByte c +:+ EscapeString t
  end.

End Html.

(** ** Package hash/crc32 *)

Module Crc32.

Definition IEEE : Z := 0xedb88320.

Fixpoint shiftPoly (k : nat) (crc : Z) : Z :=
  match k with
  | O => crc
  | S k' =>
    shiftPoly k' (if Z.testbit crc 0
                  then Z.lxor (Z.shiftr crc 1) IEEE
                  else Z.shiftr crc 1)
  end.

(** Entry [i] of the table that [simpleMakeTable] builds. *)
Definition tableEntry (i : Z) : Z := shiftPoly 8 i.

Definition not32 (x : Z) : Z := Z.lxor x 0xFFFFFFFF.

Definition simpleUpdate (crc : Z) (p : list Z) : Z :=
  not32 (fold_left
           (fun crc v =>
              Z.lxor (tableEntry (Z.lxor (Z.land crc 0xFF) v)) (Z.shiftr crc 8))
           p (not32 crc)).

Definition ChecksumIEEE (data : list Z) : Z := simpleUpdate 0 data.

End Crc32.

(** ** Packages strconv and net *)

Module Strconv.

Definition Itoa (n : Z) : string := NilZero.string_of_int (Z.to_int n).

End Strconv.

Module Net.

Definition JoinHostPort (host port : string) : string :=
  if GoStrings.IndexByte host 58
  then "[" +:+ host +:+ "]:" +:+ port
  else host +:+ ":" +:+ port.

End Net.


(** ** Errors *)

Inductive Errno := ENOENT | EACCES | EISDIR | ENOTDIR | ENOSPC | EBUSY | EIO | ENOTEMPTY.

Inductive error :=
| EOF
| ErrShortWrite
| PathError (op path : string) (errno : Errno)
| errorString (msg : string).

Definition errnoText (e : Errno) : string :=
  match e with
  | ENOENT => "no such file or directory"
  | EACCES => "permission denied"
  | EISDIR => "is a directory"
  | ENOTDIR => "not a directory"
  | ENOSPC => "no space left on device"
  | EBUSY => "device or resource busy"
  | EIO => "input/output error"
  | ENOTEMPTY => "directory not empty"
  end.

(** The method [Error] of the interface. *)
Definition errorText (e : error) : string :=
  match e with
  | EOF => "EOF"
  | ErrShortWrite => "short write"
  | PathError op path errno => op +:+ " " +:+ path +:+ ": " +:+ errnoText errno
  | errorString msg => msg
  end.

Definition IsNotExist (e : error) : bool :=
  match e with
  | PathError _ _ ENOENT => true
  | _ => false
  end.

(** ** Values of the collaborating packages *)

(** [netaddr.IP]: a 128-bit address in two 64-bit halves, and the mark
    that tells an IPv4 address from an IPv6 one. *)
Inductive ipZone := z0 | z4 | z6noz | z6zone (zone : string).

Record IP := { hi : Z; lo : Z; z : ipZone }.

Definition bigEndian64 (x : Z) : list Z :=
  map (fun i => Z.land (Z.shiftr x (56 - 8 * Z.of_nat i)) 0xFF) (seq 0 8).

Definition As16 (ip : IP) : list Z := bigEndian64 (hi ip) ++ bigEndian64 (lo ip).

Definition Is6 (ip : IP) : bool :=
  match z ip with
  | z0 | z4 => false
  | _ => true
  end.

Record IPPort := { IPPort_IP : IP; IPPort_Port : Z }.

(** [tailcfg.Node] and [tailcfg.UserProfile], with the fields the peer API
    reads. *)
Record Node := { User : Z; ComputedName : string }.
Record UserProfile := { DisplayName : string }.

(** [apitype.WaitingFile]. *)
Record WaitingFile := { WaitingFile_Name : string; WaitingFile_Size : Z }.

(** ** The upload object *)

Module IncomingFile.

Record t := {
  name : string;
  started : Z;
  size : Z;
  w : string;             (* the open destination file, by its path *)
  partialPath : string;
  copied : Z;
  done : bool;
  lastNotify : option Z   (* [None] is the zero time *)
}.

Definition setProgress (f : t) (copied' : Z) (lastNotify' : option Z) : t :=
  {| name := name f; started := started f; size := size f; w := w f;
     partialPath := partialPath f; copied := copied';
     done := done f; lastNotify := lastNotify' |}.

Definition setDone (f : t) : t :=
  {| name := name f; started := started f; size := size f; w := w f;
     partialPath := partialPath f; copied := copied f;
     done := true; lastNotify := lastNotify f |}.

End IncomingFile.

(** [ipn.PartialFile]. *)
Record PartialFile := {
  PartialFile_Name : string;
  PartialFile_Started : Z;
  PartialFile_DeclaredSize : Z;
  PartialFile_Received : Z;
  PartialFile_PartialPath : string;
  PartialFile_Done : bool
}.

(** ** The world the server runs in *)

Inductive node :=
| Regular (data : list Byte.byte)
| Directory (statSize : Z).

(** What the environment may refuse.  [createFault] and [closeFault] make
    [os.Create] and [File.Close] fail; [writeQuota] is the number of bytes
    the disk still takes before writes fail; [removeBusy] lists, for the
    coming attempts to remove a file that exists, the time each refused
    attempt takes; [readdirFault] is the number of batches after which
    reading a directory fails; [statFault] lists the names of the entries
    of a directory whose [Info] fails, the file having gone since the
    directory was read. *)
Record Faults := {
  createFault : option Errno;
  writeQuota : option nat;
  closeFault : option Errno;
  removeBusy : list Z;
  readdirFault : option nat;
  statFault : list string
}.

Definition noFaults : Faults :=
  {| createFault := None; writeQuota := None; closeFault := None;
     removeBusy := []; readdirFault := None; statFault := [] |}.

(** The call site of a notification, kept in the trace for the proofs. *)
Inductive NotifySource := FromWrite | FromDone | FromPut.

Inductive Event :=
| EvNotify (src : NotifySource)
| EvRegister (id : positive) (active : bool)
| EvRead (n : nat).

Record World := {
  fs : gmap string node;
  knownEmpty : bool;
  capFileSharing : bool;
  incomingFiles : gmap positive IncomingFile.t;
  events : list Event;
  now : Z;
  faults : Faults
}.

Definition setFs (f : gmap string node) (w : World) : World :=
  {| fs := f; knownEmpty := knownEmpty w; capFileSharing := capFileSharing w;
     incomingFiles := incomingFiles w; events := events w; now := now w;
     faults := faults w |}.

Definition setKnownEmpty (v : bool) (w : World) : World :=
  {| fs := fs w; knownEmpty := v; capFileSharing := capFileSharing w;
     incomingFiles := incomingFiles w; events := events w; now := now w;
     faults := faults w |}.

Definition setIncomingFiles (m : gmap positive IncomingFile.t) (w : World) : World :=
  {| fs := fs w; knownEmpty := knownEmpty w; capFileSharing := capFileSharing w;
     incomingFiles := m; events := events w; now := now w;
     faults := faults w |}.

Definition addEvent (e : Event) (w : World) : World :=
  {| fs := fs w; knownEmpty := knownEmpty w; capFileSharing := capFileSharing w;
     incomingFiles := incomingFiles w; events := events w ++ [e]; now := now w;
     faults := faults w |}.

Definition sleep (d : Z) (w : World) : World :=
  {| fs := fs w; knownEmpty := knownEmpty w; capFileSharing := capFileSharing w;
     incomingFiles := incomingFiles w; events := events w; now := now w + d;
     faults := faults w |}.

Definition setFaults (f : Faults) (w : World) : World :=
  {| fs := fs w; knownEmpty := knownEmpty w; capFileSharing := capFileSharing w;
     incomingFiles := incomingFiles w; events := events w; now := now w;
     faults := f |}.

Definition setWriteQuota (q : option nat) (f : Faults) : Faults :=
  {| createFault := createFault f; writeQuota := q; closeFault := closeFault f;
     removeBusy := removeBusy f; readdirFault := readdirFault f;
     statFault := statFault f |}.

Definition setRemoveBusy (l : list Z) (f : Faults) : Faults :=
  {| createFault := createFault f; writeQuota := writeQuota f;
     closeFault := closeFault f; removeBusy := l;
     readdirFault := readdirFault f; statFault := statFault f |}.

Definition Millisecond : Z := 1000000.
Definition Second : Z := 1000000000.

(** ** Package os *)

(** Every call resolves its path as the kernel does for a path without
    symbolic links: the file system is keyed by cleaned paths. *)
Definition resolve (p : string) : string := Filepath.Clean p.

(** [os.Create]: the parent must be a directory and the path must not name
    one; an existing regular file is truncated. *)
Definition os_Create (p : string) (w : World) : option error * World :=
  match createFault (faults w) with
  | Some e => (Some (PathError "open" p e), w)
  | None =>
    match fs w !! Filepath.Dir p with
    | None => (Some (PathError "open" p ENOENT), w)
    | Some (Regular _) => (Some (PathError "open" p ENOTDIR), w)
    | Some (Directory _) =>
      match fs w !! resolve p with
      | Some (Directory _) => (Some (PathError "open" p EISDIR), w)
      | _ => (None, setFs (<[resolve p := Regular []]> (fs w)) w)
      end
    end
  end.

Definition appendData (p : list Byte.byte) (nd : node) : node :=
  match nd with
  | Regular d => Regular (d ++ p)
  | Directory s => Directory s
  end.

(** [File.Write] on the file opened at [path]: the bytes the disk still
    takes are appended; fewer than [length p] only with an error. *)
Definition os_File_Write (path : string) (p : list Byte.byte) (w : World)
  : nat * option error * World :=
  match writeQuota (faults w) with
  | None => (length p, None, setFs (alter (appendData p) (resolve path) (fs w)) w)
  | Some q =>
    if (length p <=? q)%nat then
      (length p, None,
       setFaults (setWriteQuota (Some (q - length p)%nat) (faults w))
         (setFs (alter (appendData p) (resolve path) (fs w)) w))
    else
      (q, Some (PathError "write" path ENOSPC),
       setFaults (setWriteQuota (Some 0%nat) (faults w))
         (setFs (alter (appendData (take q p)) (resolve path) (fs w)) w))
  end.

Definition os_File_Close (path : string) (w : World) : option error * World :=
  match closeFault (faults w) with
  | Some e => (Some (PathError "close" path e), w)
  | None => (None, w)
  end.

Definition hasChildren (m : gmap string node) (dir : string) : bool :=
  existsb (fun kv => String.eqb (Filepath.Dir (fst kv)) dir
                     && negb (String.eqb (fst kv) dir))
          (map_to_list m).

(** [os.Remove]: a path that names nothing is a not-exist error; a file
    that exists may be refused while it is busy. *)
Definition os_Remove (p : string) (w : World) : option error * World :=
  match fs w !! resolve p with
  | None => (Some (PathError "remove" p ENOENT), w)
  | Some nd =>
    match removeBusy (faults w) with
    | d :: rest =>
      (Some (PathError "remove" p EBUSY),
       sleep (Z.max 0 d) (setFaults (setRemoveBusy rest (faults w)) w))
    | [] =>
      match nd with
      | Directory _ =>
        if hasChildren (fs w) (resolve p)
        then (Some (PathError "remove" p ENOTEMPTY), w)
        else (None, setFs (delete (resolve p) (fs w)) w)
      | Regular _ => (None, setFs (delete (resolve p) (fs w)) w)
      end
    end
  end.

(** An open file: its path and what it held when it was opened. *)
Record File := { File_path : string; File_node : node }.

Definition os_Open (p : string) (w : World) : option File * option error :=
  match fs w !! resolve p with
  | None => (None, Some (PathError "open" p ENOENT))
  | Some nd => (Some {| File_path := p; File_node := nd |}, None)
  end.

(** [File.Stat] and the size of the result. *)
Definition File_Stat (f : File) : Z * option error :=
  match File_node f with
  | Regular d => (Z.of_nat (length d), None)
  | Directory s => (s, None)
  end.

(** All that reading the open file to its end gives. *)
Definition io_ReadAll (f : File) : list Byte.byte * option error :=
  match File_node f with
  | Regular d => (d, None)
  | Directory _ => ([], Some (PathError "read" (File_path f) EISDIR))
  end.

Record DirEntry := { de_Name : string; de_IsRegular : bool; de_Size : Z }.

Definition entryOf (kv : string * node) : DirEntry :=
  match snd kv with
  | Regular d => {| de_Name := Filepath.Base (fst kv); de_IsRegular := true;
                    de_Size := Z.of_nat (length d) |}
  | Directory s => {| de_Name := Filepath.Base (fst kv); de_IsRegular := false;
                      de_Size := s |}
  end.

(** The entries of the directory [dir]. *)
Definition listing (m : gmap string node) (dir : string) : list DirEntry :=
  map entryOf
      (filter (fun kv => String.eqb (Filepath.Dir (fst kv)) (resolve dir)
                         && negb (String.eqb (fst kv) (resolve dir)))
              (map_to_list m)).

Fixpoint batches (fuel n : nat) (l : list DirEntry) : list (list DirEntry) :=
  match fuel with
  | O => []
  | S fuel' =>
    match l with
    | [] => []
    | _ => take n l :: batches fuel' n (drop n l)
    end
  end.

(** What the successive calls of [ReadDir n] on an open directory return:
    batches without an error, and a last call with an error, [EOF] at the
    end of the directory. *)
Record DirStream := { reads : list (list DirEntry); lastRead : list DirEntry * error }.

Definition readDirStream (n : nat) (dir : string) (w : World) : DirStream :=
  let all := batches (length (listing (fs w) dir)) n (listing (fs w) dir) in
  match readdirFault (faults w) with
  | Some k =>
    if (k <? length all)%nat
    then {| reads := take k all; lastRead := ([], PathError "readdirent" dir EIO) |}
    else {| reads := all; lastRead := ([], EOF) |}
  | None => {| reads := all; lastRead := ([], EOF) |}
  end.

(** [os.Open] of a directory that is then read with [ReadDir n]. *)
Definition os_OpenDir (n : nat) (dir : string) (w : World) : option DirStream * option error :=
  match fs w !! resolve dir with
  | None => (None, Some (PathError "open" dir ENOENT))
  | Some (Regular _) =>
    (Some {| reads := []; lastRead := ([], PathError "readdirent" dir ENOTDIR) |}, None)
  | Some (Directory _) => (Some (readDirStream n dir w), None)
  end.

(** ** Package net/http, as far as the handler uses it *)

(** A request body: the chunks its successive reads deliver, each after a
    delay, and the error of the read that ends it ([EOF] at a regular end). *)
Record Body := { bodyReads : list (Z * list Byte.byte); bodyEnd : error }.

Definition bodyBytes (b : Body) : list Byte.byte := concat (map snd (bodyReads b)).

Record Request := {
  Method : string;
  URL_Path : string;          (* [r.URL.Path] *)
  URL_EscapedPath : string;   (* [r.URL.EscapedPath()] *)
  ContentLength : Z;
  reqBody : Body
}.

Record Response := { status : Z; body : string }.

Definition StatusOK : Z := 200.
Definition StatusForbidden : Z := 403.
Definition StatusMethodNotAllowed : Z := 405.
Definition StatusInternalServerError : Z := 500.

(** [http.Error]: the status, and the message on a line of its own. *)
Definition http_Error (msg : string) (code : Z) : Response :=
  {| status := code; body := msg +:+ nl |}.

(** ** The listener's environment *)

Record Listener := { ln_network : string; ln_address : string }.

Record ListenEnv := {
  initListenConfig : option (IP -> string -> option error);
  IsNetstack : bool;
  lc_Listen : string -> string -> option Listener * option error
}.

(** ** The server *)

Record peerAPIServer := {
  rootDir : string;
  tunName : string;
  selfNode : Node;
  directFileMode : bool
}.

Record peerAPIHandler := {
  ps : peerAPIServer;
  remoteAddr : IPPort;
  isSelf : bool;
  peerNode : Node;
  peerUser : UserProfile
}.

Definition partialSuffix : string := ".partial".

(** ** The accept loop and its connections *)

(** The address of the far end of a connection, as [RemoteAddr] returns
    it: a [*net.TCPAddr] with the bytes of its IP and its port, or an
    address of another kind. *)
Inductive Addr :=
| TCPAddr (ip : list Z) (port : Z)
| OtherAddr (network : string).

Record Conn := { conn_id : positive; RemoteAddr : Addr }.

(** What a call of [Accept] on the listener returns: a connection, an
    error that is [net.ErrClosed], or another error. *)
Inductive Accepted :=
| gotConn (c : Conn)
| gotClosed
| gotError (e : error).

(** What the accept loop asks of the packages around it:
    [netaddr.FromStdAddr] with the empty zone, and [LocalBackend.WhoIs]. *)
Record ServeEnv := {
  FromStdAddr : list Z -> Z -> option IPPort;
  WhoIs : IPPort -> option (Node * UserProfile)
}.

(** The listener of the peer API on one address.  [pln_ln] is the
    listener, given by what its successive calls of [Accept] return;
    [None] is the nil listener. *)
Record peerAPIListener := {
  pln_ps : peerAPIServer;
  pln_ip : IP;
  pln_ln : option (list Accepted);
  pln_urlStr : string;
  pln_port : Z
}.

(** The lines that the accept loop logs, by their format. *)
Inductive ServeLog :=
| LogAccept (e : error)
| LogUnexpectedRemoteAddr (a : Addr)
| LogBogusTCPAddr (a : Addr)
| LogUnknownPeer (ipp : IPPort).

(** What the accept loop does, in the order in which it does it: it
    closes a connection, it starts a server with a handler on a
    connection, it logs, and it closes the listener. *)
Inductive ServeEvent :=
| SvClose (c : Conn)
| SvServe (h : peerAPIHandler) (c : Conn)
| SvLog (l : ServeLog)
| SvListenerClose.

(** [peerAPIListener.Close]. *)
Definition peerAPIListener_Close (pln : peerAPIListener)
  : list ServeEvent * option error :=
  match pln_ln pln with
  | Some _ => ([SvListenerClose], None)
  | None => ([], None)
  end.

(** The body of the loop of [serve] for a connection that was accepted. *)
Definition serve_conn (env : ServeEnv) (s : peerAPIServer) (c : Conn)
  : list ServeEvent :=
  match RemoteAddr c with
  | OtherAddr _ =>
    [SvClose c; SvLog (LogUnexpectedRemoteAddr (RemoteAddr c))]
  | TCPAddr ip port =>
    match FromStdAddr env ip port with
    | None => [SvLog (LogBogusTCPAddr (RemoteAddr c)); SvClose c]
    | Some ipp =>
      match WhoIs env ipp with
      | None => [SvLog (LogUnknownPeer ipp); SvClose c]
      | Some (peerNode0, peerUser0) =>
        [SvServe {| ps := s;
                    remoteAddr := ipp;
                    isSelf := User (selfNode s) =? User peerNode0;
                    peerNode := peerNode0;
                    peerUser := peerUser0 |} c]
      end
    end
  end.

(** The loop of [serve] over what [Accept] returns.  The second
    component tells whether the loop has returned; it has not when every
    call of [Accept] so far gave a connection and the next one blocks. *)
Fixpoint serve_loop (env : ServeEnv) (s : peerAPIServer)
         (accepts : list Accepted) : list ServeEvent * bool :=
  match accepts with
  | [] => ([], false)
  | gotClosed :: _ => ([], true)
  | gotError e :: _ => ([SvLog (LogAccept e)], true)
  | gotConn c :: rest =>
    let '(evs, returned) := serve_loop env s rest in
    (serve_conn env s c ++ evs, returned)
  end.

(** [peerAPIListener.serve]: nothing without a listener; otherwise the
    loop, and the deferred close of the listener when the loop returns. *)
Definition serve (env : ServeEnv) (pln : peerAPIListener)
  : list ServeEvent * bool :=
  match pln_ln pln with
  | None => ([], true)
  | Some accepts =>
    let '(evs, returned) := serve_loop env (pln_ps pln) accepts in
    (if returned then evs ++ [SvListenerClose] else evs, returned)
  end.

(** [oneConnListener]: the listener that is handed to the server of one
    connection.  [ocl_conn] is the connection, [None] once it was given
    out. *)
Record oneConnListener := { ocl_conn : option Conn }.

Definition oneConnListener_Accept (l : oneConnListener)
  : option Conn * option error * oneConnListener :=
  match ocl_conn l with
  | None => (None, Some EOF, l)
  | Some c => (Some c, None, {| ocl_conn := None |})
  end.

Definition oneConnListener_Close (l : oneConnListener) : option error := None.

(** The results of [n] calls of [Accept], one after the other. *)
Fixpoint acceptTimes (n : nat) (l : oneConnListener)
  : list (option Conn * option error) :=
  match n with
  | O => []
  | S n' =>
    let '(c, err, l') := oneConnListener_Accept l in
    (c, err) :: acceptTimes n' l'
  end.

(** The connections that a trace of the accept loop closed or gave to a
    server, in the order of the trace. *)
Definition disposed (e : ServeEvent) : list Conn :=
  match e with
  | SvClose c => [c]
  | SvServe _ c => [c]
  | _ => []
  end.

(** The connections that [Accept] returned before its first error. *)
Fixpoint acceptedConns (accepts : list Accepted) : list Conn :=
  match accepts with
  | gotConn c :: rest => c :: acceptedConns rest
  | _ => []
  end.

(** Some call of [Accept] returns an error. *)
Definition acceptFails (accepts : list Accepted) : bool :=
  existsb (fun a => match a with gotConn _ => false | _ => true end) accepts.

(** ** A sample node and its worlds *)

(** A node on Linux; no rune above Latin-1 is taken for printable (the
    names below are ASCII); the peer's address prints as [100.64.0.7]. *)
Definition ex_GOOS : string := "linux".
Definition ex_printRanges (r : Z) : bool := false.
Definition ex_IP_String (ip : IP) : string := "100.64.0.7".

Definition ex_root : string := "/var/lib/tailscale/files".

Definition ex_server : peerAPIServer :=
  {| rootDir := ex_root; tunName := "tailscale0";
     selfNode := {| User := 7; ComputedName := "home-server" |};
     directFileMode := false |}.

Definition ex_peer_ip : IP := {| hi := 0; lo := 0xFFFF64400007; z := z4 |}.

Definition ex_handler : peerAPIHandler :=
  {| ps := ex_server;
     remoteAddr := {| IPPort_IP := ex_peer_ip; IPPort_Port := 51234 |};
     isSelf := true;
     peerNode := {| User := 7; ComputedName := "laptop" |};
     peerUser := {| DisplayName := "<Alice>" |} |}.

Definition ex_stranger : peerAPIHandler :=
  {| ps := ex_server;
     remoteAddr := {| IPPort_IP := ex_peer_ip; IPPort_Port := 51234 |};
     isSelf := false;
     peerNode := {| User := 8; ComputedName := "tablet" |};
     peerUser := {| DisplayName := "Bob" |} |}.

Definition ex_bytes (s : string) : list Byte.byte := list_byte_of_string s.

(** The staging directory, empty, with the cache set. *)
Definition ex_world : World :=
  {| fs := <[ex_root := Directory 4096]> empty;
     knownEmpty := true; capFileSharing := true;
     incomingFiles := empty; events := []; now := 1000;
     faults := noFaults |}.

Definition ex_dst : string := "/var/lib/tailscale/files/hello.txt".

(** [PUT /v0/put/hello.txt] with the body [hi] and a line feed. *)
Definition ex_put : Request :=
  {| Method := "PUT"; URL_Path := "/v0/put/hello.txt";
     URL_EscapedPath := "/v0/put/hello.txt"; ContentLength := 3;
     reqBody := {| bodyReads := [(5, ex_bytes ("hi" +:+ nl))]; bodyEnd := EOF |} |}.

(** The same upload on a connection that drops after the first chunk. *)
Definition ex_put_dropped : Request :=
  {| Method := "PUT"; URL_Path := "/v0/put/hello.txt";
     URL_EscapedPath := "/v0/put/hello.txt"; ContentLength := 10;
     reqBody := {| bodyReads := [(5, ex_bytes "hi")];
                   bodyEnd := errorString "unexpected EOF" |} |}.

(** An upload of no byte. *)
Definition ex_put_empty : Request :=
  {| Method := "PUT"; URL_Path := "/v0/put/hello.txt";
     URL_EscapedPath := "/v0/put/hello.txt"; ContentLength := 0;
     reqBody := {| bodyReads := []; bodyEnd := EOF |} |}.

Definition ex_get (p : string) : Request :=
  {| Method := "GET"; URL_Path := p; URL_EscapedPath := p; ContentLength := 0;
     reqBody := {| bodyReads := []; bodyEnd := EOF |} |}.

(** A world where [hello.txt] is there already and cannot be opened for
    writing. *)
Definition ex_world_readonly : World :=
  {| fs := <[ex_dst := Regular (ex_bytes "old")]>
             (<[ex_root := Directory 4096]> empty);
     knownEmpty := false; capFileSharing := true;
     incomingFiles := empty; events := []; now := 1000;
     faults := {| createFault := Some EACCES; writeQuota := None;
                  closeFault := None; removeBusy := [];
                  readdirFault := None; statFault := [] |} |}.

(** A staging directory that holds one partial file and nothing else. *)
Definition ex_world_partial : World :=
  {| fs := <["/var/lib/tailscale/files/movie.mp4.partial" := Regular (ex_bytes "abc")]>
             (<[ex_root := Directory 4096]> empty);
     knownEmpty := false; capFileSharing := true;
     incomingFiles := empty; events := []; now := 1000;
     faults := noFaults |}.

(** Something listens already on the first two candidate ports of the
    address; the third is free. *)
Definition ex_listen_env : ListenEnv :=
  {| initListenConfig := None;
     IsNetstack := false;
     lc_Listen := fun net addr =>
       if String.eqb addr "100.64.0.7:49521" || String.eqb addr "100.64.0.7:43846"
       then (None, Some (errorString "address already in use"))
       else (Some {| ln_network := net; ln_address := addr |}, None) |}.

(** Nothing can be bound but a port that the system picks. *)
Definition ex_listen_env_busy : ListenEnv :=
  {| initListenConfig := None;
     IsNetstack := false;
     lc_Listen := fun net addr =>
       if String.eqb addr "100.64.0.7:0"
       then (Some {| ln_network := net; ln_address := addr |}, None)
       else (None, Some (errorString "address already in use")) |}.

Definition ex_world_polled : World := setKnownEmpty false ex_world.

(** The staging directory after the upload of [hello.txt], polled since. *)
Definition ex_world_uploaded : World :=
  {| fs := <[ex_dst := Regular (ex_bytes ("hi" +:+ nl))]>
             (<[ex_root := Directory 4096]> empty);
     knownEmpty := false; capFileSharing := true;
     incomingFiles := empty; events := []; now := 1005;
     faults := noFaults |}.

(** A file that is busy for two attempts: on Windows the third attempt
    removes it, elsewhere the first refusal is returned, its path
    redacted. *)
Definition ex_world_busy : World :=
  setFaults {| createFault := None; writeQuota := None; closeFault := None;
               removeBusy := [100 * Millisecond; 200 * Millisecond];
               readdirFault := None; statFault := [] |} ex_world_uploaded.

(** An empty staging directory where a file just closed cannot be
    removed at once. *)
Definition ex_world_locked : World :=
  setFaults {| createFault := None; writeQuota := None; closeFault := None;
               removeBusy := [1 * Millisecond]; readdirFault := None;
               statFault := [] |} ex_world.

(** A disk on which a file cannot be closed without an error. *)
Definition ex_world_noclose : World :=
  setFaults {| createFault := None; writeQuota := None; closeFault := Some EIO;
               removeBusy := []; readdirFault := None;
               statFault := [] |} ex_world.

(** A disk on which nothing can be created. *)
Definition ex_world_denied : World :=
  setFaults {| createFault := Some EACCES; writeQuota := None; closeFault := None;
               removeBusy := []; readdirFault := None;
               statFault := [] |} ex_world.

(** ** More samples *)

(** A file that cannot be removed for twelve seconds: three attempts of
    four seconds each are refused. *)
Definition ex_world_stuck : World :=
  setFaults {| createFault := None; writeQuota := None; closeFault := None;
               removeBusy := [4 * Second; 4 * Second; 4 * Second];
               readdirFault := None; statFault := [] |} ex_world_uploaded.

(** Two files wait; [note.txt] goes after the directory was read, so
    that its [Info] fails. *)
Definition ex_world_gone : World :=
  {| fs := <["/var/lib/tailscale/files/note.txt" := Regular (ex_bytes "abcd")]>
             (<[ex_dst := Regular (ex_bytes ("hi" +:+ nl))]>
                (<[ex_root := Directory 4096]> empty));
     knownEmpty := false; capFileSharing := true;
     incomingFiles := empty; events := []; now := 1005;
     faults := {| createFault := None; writeQuota := None; closeFault := None;
                  removeBusy := []; readdirFault := None;
                  statFault := ["note.txt"] |} |}.

(** An upload whose body comes in three reads: at once, after two
    seconds, and after half a second more. *)
Definition ex_put_slow : Request :=
  {| Method := "PUT"; URL_Path := "/v0/put/hello.txt";
     URL_EscapedPath := "/v0/put/hello.txt"; ContentLength := 6;
     reqBody := {| bodyReads := [(0, ex_bytes "ab"); (2 * Second, ex_bytes "cd");
                                 (500 * Millisecond, ex_bytes "ef")];
                   bodyEnd := EOF |} |}.

(** An upload whose name has an escaped slash. *)
Definition ex_put_encoded : Request :=
  {| Method := "PUT"; URL_Path := "/v0/put/a/b";
     URL_EscapedPath := "/v0/put/a%2Fb"; ContentLength := 0;
     reqBody := {| bodyReads := []; bodyEnd := EOF |} |}.

(** An upload object, registered, with its destination created. *)
Definition ex_upload : IncomingFile.t :=
  {| IncomingFile.name := "hello.txt"; IncomingFile.started := 1000;
     IncomingFile.size := 4; IncomingFile.w := ex_dst;
     IncomingFile.partialPath := EmptyString; IncomingFile.copied := 0;
     IncomingFile.done := false; IncomingFile.lastNotify := None |}.

Definition ex_world_copying : World :=
  {| fs := <[ex_dst := Regular []]> (<[ex_root := Directory 4096]> empty);
     knownEmpty := true; capFileSharing := true;
     incomingFiles := <[1%positive := ex_upload]> empty;
     events := [EvRegister 1 true]; now := 1000;
     faults := noFaults |}.

(** The IPv6 address of the peer: its last three bytes are those of its
    IPv4 address. *)
Definition ex_peer_ip6 : IP :=
  {| hi := 0xfd7a115ca1e0ab12; lo := 0x4843cd9662400007; z := z6noz |}.

(** The peers that the node knows: the owner's laptop at [100.64.0.7] and
    the tablet of another user at [100.64.0.8]. *)
Definition ex_serve_env : ServeEnv :=
  {| FromStdAddr := fun ip port =>
       match ip with
       | [100; 64; 0; b] =>
         Some {| IPPort_IP := {| hi := 0; lo := 0xFFFF64400000 + b; z := z4 |};
                 IPPort_Port := port |}
       | _ => None
       end;
     WhoIs := fun ipp =>
       if lo (IPPort_IP ipp) =? 0xFFFF64400007
       then Some ({| User := 7; ComputedName := "laptop" |},
                  {| DisplayName := "<Alice>" |})
       else if lo (IPPort_IP ipp) =? 0xFFFF64400008
       then Some ({| User := 8; ComputedName := "tablet" |},
                  {| DisplayName := "Bob" |})
       else None |}.

Definition ex_conn (id : positive) (b : Z) : Conn :=
  {| conn_id := id; RemoteAddr := TCPAddr [100; 64; 0; b] 51234 |}.

(** A listener that accepts the laptop, a connection without a TCP
    address, the tablet and an unknown peer, and then fails. *)
Definition ex_pln : peerAPIListener :=
  {| pln_ps := ex_server; pln_ip := ex_peer_ip;
     pln_ln := Some [gotConn (ex_conn 1 7);
                     gotConn {| conn_id := 2; RemoteAddr := OtherAddr "unix" |};
                     gotConn (ex_conn 3 8);
                     gotConn (ex_conn 4 9);
                     gotError (errorString "too many open files");
                     gotConn (ex_conn 5 7)];
     pln_urlStr := "http://100.64.0.1:49521/"; pln_port := 49521 |}.

(** The handler that the accept loop makes for the tablet. *)
Definition ex_tablet : peerAPIHandler :=
  {| ps := ex_server;
     remoteAddr := {| IPPort_IP := {| hi := 0; lo := 0xFFFF64400008; z := z4 |};
                      IPPort_Port := 51234 |};
     isSelf := false;
     peerNode := {| User := 8; ComputedName := "tablet" |};
     peerUser := {| DisplayName := "Bob" |} |}.

(** The node in direct mode, and the owner's handler on it. *)
Definition ex_server_direct : peerAPIServer :=
  {| rootDir := ex_root; tunName := "tailscale0";
     selfNode := selfNode ex_server; directFileMode := true |}.

Definition ex_handler_direct : peerAPIHandler :=
  {| ps := ex_server_direct; remoteAddr := remoteAddr ex_handler; isSelf := true;
     peerNode := peerNode ex_handler; peerUser := peerUser ex_handler |}.

Definition ex_dst_partial : string := "/var/lib/tailscale/files/hello.txt.partial".

Section PeerAPI.

(** [runtime.GOOS]. *)
Variable GOOS : string.

(** Membership of a rune above Latin-1 in the print ranges of the Unicode
    tables ([unicode.In(r, unicode.PrintRanges...)]). *)
Variable inPrintRanges : Z -> bool.

(** The text of an address ([netaddr.IP.String]). *)
Variable IP_String : IP -> string.

Definition unicode_IsPrint (r : Z) : bool :=
  if inRange 0 0xFF r then Unicode.latin1Print r else inPrintRanges r.

Definition validFilenameRune (r : Z) : bool :=
  if r =? 47 then false
  else if (r =? 92) || (r =? 58) || (r =? 42) || (r =? 34)
          || (r =? 60) || (r =? 62) || (r =? 124) then false
  else unicode_IsPrint r.

Definition diskPath (s : peerAPIServer) (baseName : string) : string * bool :=
  if negb (Utf8.ValidString baseName) then (EmptyString, false)
  else if negb (String.eqb (GoStringsTrim.TrimSpace baseName) baseName) then
    (EmptyString, false)
  else if (255 <? String.length baseName)%nat then (EmptyString, false)
  else
    let clean := Path.Clean baseName in
    if negb (String.eqb clean baseName)
       || String.eqb clean "." || String.eqb clean ".."
       || GoStrings.HasSuffix clean partialSuffix
    then (EmptyString, false)
    else if negb (forallb validFilenameRune (Utf8.runes baseName)) then
      (EmptyString, false)
    else (Filepath.Join (rootDir s) baseName, true).

(** *** The staging store *)

(** The body of the loop over one batch of entries. *)
Definition isWaiting (de : DirEntry) : bool :=
  if GoStrings.HasSuffix (de_Name de) partialSuffix then false
  else de_IsRegular de.

Fixpoint hasFilesWaiting_loop (rs : list (list DirEntry))
         (last : list DirEntry * error) (w : World) : bool * World :=
  match rs with
  | des :: rest =>
    if existsb isWaiting des then (true, w)
    else hasFilesWaiting_loop rest last w
  | [] =>
    let '(des, err) := last in
    if existsb isWaiting des then (true, w)
    else
      (false, match err with
              | EOF => setKnownEmpty true w
              | _ => w
              end)
  end.

Definition hasFilesWaiting (s : peerAPIServer) (w : World) : bool * World :=
  if String.eqb (rootDir s) EmptyString || directFileMode s then (false, w)
  else if knownEmpty w then (false, w)
  else
    match os_OpenDir 10 (rootDir s) w with
    | (Some f, None) => hasFilesWaiting_loop (reads f) (lastRead f) w
    | _ => (false, w)
    end.

(** [de.Info()] of an entry that was read from the directory [dir]: the
    [lstat] of the file, which fails when the file has gone since the
    directory was read; [fi.Size()] otherwise. *)
Definition de_Info (w : World) (dir : string) (de : DirEntry)
  : Z * option error :=
  if existsb (String.eqb (de_Name de)) (statFault (faults w))
  then (0, Some (PathError "lstat" (dir +:+ "/" +:+ de_Name de) ENOENT))
  else (de_Size de, None).

Definition WaitingFiles_batch (w : World) (dir : string)
           (des : list DirEntry) (ret : list WaitingFile)
  : list WaitingFile :=
  fold_left
    (fun ret de =>
       if GoStrings.HasSuffix (de_Name de) partialSuffix then ret
       else if de_IsRegular de then
         match de_Info w dir de with
         | (_, Some _) => ret
         | (sz, None) =>
           ret ++ [{| WaitingFile_Name := Filepath.Base (de_Name de);
                      WaitingFile_Size := sz |}]
         end
       else ret)
    des ret.

Fixpoint WaitingFiles_loop (w : World) (dir : string)
         (rs : list (list DirEntry))
         (last : list DirEntry * error) (ret : list WaitingFile)
  : list WaitingFile * option error :=
  match rs with
  | des :: rest =>
    WaitingFiles_loop w dir rest last (WaitingFiles_batch w dir des ret)
  | [] =>
    let '(des, err) := last in
    match err with
    | EOF => (WaitingFiles_batch w dir des ret, None)
    | _ => ([], Some err)
    end
  end.

Definition WaitingFiles (s : peerAPIServer) (w : World)
  : list WaitingFile * option error * World :=
  if String.eqb (rootDir s) EmptyString then
    ([], Some (errorString "peerapi disabled; no storage configured"), w)
  else if directFileMode s then ([], None, w)
  else
    match os_OpenDir 10 (rootDir s) w with
    | (Some f, None) =>
      (WaitingFiles_loop w (rootDir s) (reads f) (lastRead f) [], w)
    | (_, Some err) => ([], Some err, w)
    | (None, None) => ([], None, w)
    end.

(** [pe.Path = "redact"]. *)
Definition redact (e : error) : error :=
  match e with
  | PathError op _ errno => PathError op "redact" errno
  | _ => e
  end.

(** Modelled from the spec: the pause of the retry's exponential backoff
    ([backoff.Backoff] is not among the sources).  The pause of attempt
    [n] doubles from one attempt to the next, from 10 ms on, up to the
    maximum that [NewBackoff] was given. *)
Definition backoffDelay (maxBackoff : Z) (n : Z) : Z :=
  Z.min (2 ^ (n - 1) * (10 * Millisecond)) maxBackoff.

(** [bo.BackOff(ctx, err)]: one more attempt is counted and the pause of
    that attempt is slept. *)
Definition BackOff (n : Z) (w : World) : Z * World :=
  (n + 1, sleep (backoffDelay (1 * Second) (n + 1)) w).

(** The retry loop of [DeleteFile]; [n] is the count of the backoff.  A
    turn is repeated only while fewer than ten seconds have passed, and
    every repeated turn sleeps 10 ms or more: the [fuel] that [DeleteFile]
    gives is never used up (lemma [DeleteFile_loop_enough]). *)
Fixpoint DeleteFile_loop (fuel : nat) (n : Z) (path : string) (t0 : Z) (w : World)
  : option error * World :=
  match fuel with
  | O => (Some (errorString "unreachable"), w)
  | S fuel' =>
    match os_Remove path w with
    | (Some err, w1) =>
      if negb (IsNotExist err) then
        if String.eqb GOOS "windows" && (now w1 - t0 <? 10 * Second)
        then
          let '(n1, w2) := BackOff n w1 in
          DeleteFile_loop fuel' n1 path t0 w2
        else (Some (redact err), w1)
      else (None, w1)
    | (None, w1) => (None, w1)
    end
  end.

Definition DeleteFile (s : peerAPIServer) (baseName : string) (w : World)
  : option error * World :=
  if String.eqb (rootDir s) EmptyString then
    (Some (errorString "peerapi disabled; no storage configured"), w)
  else if directFileMode s then
    (Some (errorString "deletes not allowed in direct mode"), w)
  else
    let '(path, ok) := diskPath s baseName in
    if negb ok then (Some (errorString "bad filename"), w)
    else DeleteFile_loop 1001 0 path (now w) w.

Definition OpenFile (s : peerAPIServer) (baseName : string) (w : World)
  : option File * Z * option error :=
  if String.eqb (rootDir s) EmptyString then
    (None, 0, Some (errorString "peerapi disabled; no storage configured"))
  else if directFileMode s then
    (None, 0, Some (errorString "opens not allowed in direct mode"))
  else
    let '(path, ok) := diskPath s baseName in
    if negb ok then (None, 0, Some (errorString "bad filename"))
    else
      match os_Open path w with
      | (Some f, None) =>
        match File_Stat f with
        | (_, Some err) => (None, 0, Some err)
        | (sz, None) => (Some f, sz, None)
        end
      | (_, Some err) => (None, 0, Some err)
      | (None, None) => (None, 0, None)
      end.

(** *** The port picker *)

(** [a16[len(a16)-3:]] with [hashData[0] += try], on 8-bit bytes. *)
Definition hashData (ip : IP) (try : Z) : list Z :=
  let a16 := As16 ip in
  match drop (length a16 - 3) a16 with
  | b :: rest => ((b + try) mod 256) :: rest
  | [] => []
  end.

(** [(32 << 10) | uint16(crc32.ChecksumIEEE(hashData))]. *)
Definition tryPort (ip : IP) (try : Z) : Z :=
  Z.lor (Z.shiftl 32 10) (Crc32.ChecksumIEEE (hashData ip try) mod 2 ^ 16).

(** The loop [for try := uint8(0); try < 5; try++]; [None] when it ends
    without a listener. *)
Fixpoint listen_loop (fuel : nat) (try : Z) (env : ListenEnv)
         (tcp4or6 ipStr : string) (ip : IP) : option (option Listener) :=
  match fuel with
  | O => None
  | S fuel' =>
    if try <? 5 then
      match lc_Listen env tcp4or6
              (Net.JoinHostPort ipStr (Strconv.Itoa (tryPort ip try))) with
      | (ln, None) => Some ln
      | (_, Some _) => listen_loop fuel' (try + 1) env tcp4or6 ipStr ip
      end
    else None
  end.

Definition listen (env : ListenEnv) (s : peerAPIServer) (ip : IP)
  : option Listener * option error :=
  let ipStr := IP_String ip in
  let hook :=
    match initListenConfig env with
    | Some init => Some (init ip (tunName s))
    | None => None
    end in
  match hook with
  | Some (Some err) => (None, Some err)
  | _ =>
    let ipStr :=
      match hook with
      | Some _ =>
        if String.eqb GOOS "darwin" || String.eqb GOOS "ios"
        then EmptyString else ipStr
      | None => ipStr
      end in
    let ipStr := if IsNetstack env then EmptyString else ipStr in
    let tcp4or6 := if Is6 ip then "tcp6" else "tcp4" in
    match listen_loop 6 0 env tcp4or6 ipStr ip with
    | Some ln => (ln, None)
    | None => lc_Listen env tcp4or6 (Net.JoinHostPort ipStr "0")
    end
  end.

(** *** The backend, as the peer API calls it *)

(** Modelled from the spec: [hasCapFileSharing], the capability probe of
    the control plane that gates the upload; [LocalBackend] is not among
    the sources. *)
Definition hasCapFileSharing (w : World) : bool := capFileSharing w.

(** Modelled from the spec: [sendFileNotify], the signal to the front-end
    notification bus; it is recorded in the trace with its call site. *)
Definition sendFileNotify (src : NotifySource) (w : World) : World :=
  addEvent (EvNotify src) w.

(** Modelled from the spec: [registerIncomingFile], by which an upload
    joins and leaves the set that the snapshots of partial files show.  The
    set is keyed by the identity of the upload object. *)
Definition registerIncomingFile (id : positive) (inf : IncomingFile.t)
           (active : bool) (w : World) : World :=
  addEvent (EvRegister id active)
    (setIncomingFiles
       (if active then <[id := inf]> (incomingFiles w)
        else delete id (incomingFiles w)) w).

(** A fresh identity for a new upload object. *)
Definition newUpload (w : World) : positive := fresh (dom (incomingFiles w)).

(** A change of the upload object is seen through the registry, which
    holds the same object. *)
Definition store (id : positive) (f : IncomingFile.t) (w : World) : World :=
  setIncomingFiles (alter (fun _ => f) id (incomingFiles w)) w.

(** *** The upload object *)

Definition markAndNotifyDone (id : positive) (f : IncomingFile.t) (w : World)
  : IncomingFile.t * World :=
  let f1 := IncomingFile.setDone f in
  (f1, sendFileNotify FromDone (store id f1 w)).

Definition incomingFile_Write (id : positive) (f : IncomingFile.t)
           (p : list Byte.byte) (w : World)
  : nat * option error * IncomingFile.t * World :=
  let '(n, err, w1) := os_File_Write (IncomingFile.w f) p w in
  if (0 <? n)%nat then
    let t := now w1 in
    let needNotify :=
      match IncomingFile.lastNotify f with
      | None => true
      | Some last => Second <? t - last
      end in
    let f1 := IncomingFile.setProgress f (IncomingFile.copied f + Z.of_nat n)
                (if needNotify then Some t else IncomingFile.lastNotify f) in
    let w2 := store id f1 w1 in
    (n, err, f1, if needNotify then sendFileNotify FromWrite w2 else w2)
  else (n, err, f, w1).

Definition incomingFile_PartialFile (f : IncomingFile.t) : PartialFile :=
  {| PartialFile_Name := IncomingFile.name f;
     PartialFile_Started := IncomingFile.started f;
     PartialFile_DeclaredSize := IncomingFile.size f;
     PartialFile_Received := IncomingFile.copied f;
     PartialFile_PartialPath := IncomingFile.partialPath f;
     PartialFile_Done := IncomingFile.done f |}.

(** [io.Copy(inFile, r.Body)]: read a chunk, write it, until a read or a
    write fails or the body ends. *)
Fixpoint io_Copy (id : positive) (f : IncomingFile.t)
         (rds : list (Z * list Byte.byte)) (ending : error) (written : Z)
         (w : World) : Z * option error * IncomingFile.t * World :=
  match rds with
  | [] =>
    (written, match ending with EOF => None | _ => Some ending end, f,
     addEvent (EvRead 0) w)
  | (d, p) :: rest =>
    let w0 := addEvent (EvRead (length p)) (sleep d w) in
    match p with
    | [] => io_Copy id f rest ending written w0
    | _ =>
      let '(nw, ew, f1, w1) := incomingFile_Write id f p w0 in
      let written1 := written + Z.of_nat nw in
      match ew with
      | Some e => (written1, Some e, f1, w1)
      | None =>
        if negb (nw =? length p)%nat
        then (written1, Some ErrShortWrite, f1, w1)
        else io_Copy id f1 rest ending written1 w1
      end
    end
  end.

(** *** The handler *)

(** The end of [handlePeerPut], from the close of the destination on. *)
Definition putFinish (h : peerAPIHandler) (dstFile : string)
           (inFile : option (positive * IncomingFile.t)) (w : World)
  : Response * bool * World :=
  match os_File_Close dstFile w with
  | (Some err, w1) =>
    (http_Error (errorText err) StatusInternalServerError, false, w1)
  | (None, w1) =>
    let w2 :=
      if directFileMode (ps h) then
        match inFile with
        | Some (id, f) => snd (markAndNotifyDone id f w1)
        | None => w1
        end
      else w1 in
    ({| status := StatusOK; body := "{}" +:+ nl |}, true,
     sendFileNotify FromPut (setKnownEmpty false w2))
  end.

(** The part of [handlePeerPut] between the creation of the destination
    and the deferred removal: the response, [success], and the world. *)
Definition putTransfer (h : peerAPIHandler) (r : Request)
           (baseName dstFile : string) (w : World) : Response * bool * World :=
  if negb (ContentLength r =? 0) then
    let id := newUpload w in
    let inFile :=
      {| IncomingFile.name := baseName;
         IncomingFile.started := now w;
         IncomingFile.size := ContentLength r;
         IncomingFile.w := dstFile;
         IncomingFile.partialPath :=
           if directFileMode (ps h) then dstFile else EmptyString;
         IncomingFile.copied := 0;
         IncomingFile.done := false;
         IncomingFile.lastNotify := None |} in
    let w1 := registerIncomingFile id inFile true w in
    let '(n, err, inFile1, w2) :=
      io_Copy id inFile (bodyReads (reqBody r)) (bodyEnd (reqBody r)) 0 w1 in
    let '(resp, success, w3) :=
      match err with
      | Some e =>
        (http_Error (errorText e) StatusInternalServerError, false,
         snd (os_File_Close dstFile w2))
      | None => putFinish h dstFile (Some (id, inFile1)) w2
      end in
    (resp, success, registerIncomingFile id inFile1 false w3)
  else putFinish h dstFile None w.

Definition handlePeerPut (h : peerAPIHandler) (r : Request) (w : World)
  : Response * World :=
  if negb (isSelf h) then (http_Error "not owner" StatusForbidden, w)
  else if negb (hasCapFileSharing w) then
    (http_Error "file sharing not enabled by Tailscale admin" StatusForbidden, w)
  else if negb (String.eqb (Method r) "PUT") then
    (http_Error "expected method PUT" StatusMethodNotAllowed, w)
  else if String.eqb (rootDir (ps h)) EmptyString then
    (http_Error "no rootdir" StatusInternalServerError, w)
  else
    let rawPath := URL_EscapedPath r in
    let suffix := GoStrings.TrimPrefix rawPath "/v0/put/" in
    if String.eqb suffix rawPath then (http_Error "misconfigured internals" 500, w)
    else if String.eqb suffix EmptyString then (http_Error "empty filename" 400, w)
    else if GoStrings.Contains suffix "/" then
      (http_Error "directories not supported" 400, w)
    else
      match Url.PathUnescape suffix with
      | None => (http_Error "bad path encoding" 400, w)
      | Some baseName =>
        let '(dstFile0, ok) := diskPath (ps h) baseName in
        if negb ok then (http_Error "bad filename" 400, w)
        else
          let dstFile :=
            if directFileMode (ps h) then dstFile0 +:+ partialSuffix
            else dstFile0 in
          match os_Create dstFile w with
          | (Some err, w1) =>
            (http_Error (errorText err) StatusInternalServerError, w1)
          | (None, w1) =>
            let '(resp, success, w2) := putTransfer h r baseName dstFile w1 in
            (resp, if success then w2 else snd (os_Remove dstFile w2))
          end
      end.

Definition ownerMarker : string := "<p>You are the owner of this node." +:+ nl.

(** The first [Fprintf] of the greeting, its three verbs filled in. *)
Definition greeting (who addr device : string) : string :=
  "<html>" +:+ nl +:+
  "<meta name=" +:+ dq +:+ "viewport" +:+ dq +:+ " content=" +:+ dq +:+
  "width=device-width, initial-scale=1" +:+ dq +:+ ">" +:+ nl +:+
  "<body>" +:+ nl +:+
  "<h1>Hello, " +:+ who +:+ " (" +:+ addr +:+ ")</h1>" +:+ nl +:+
  "This is my Tailscale device. Your device is " +:+ device +:+ "." +:+ nl.

Definition ServeHTTP (h : peerAPIHandler) (r : Request) (w : World)
  : Response * World :=
  if GoStrings.HasPrefix (URL_Path r) "/v0/put/" then handlePeerPut h r w
  else
    let who := DisplayName (peerUser h) in
    let page :=
      greeting (Html.EscapeString who) (IP_String (IPPort_IP (remoteAddr h)))
               (Html.EscapeString (ComputedName (peerNode h))) in
    ({| status := StatusOK;
        body := if isSelf h then page +:+ ownerMarker else page |}, w).

(** ** The vocabulary of the properties *)

(** The characters that [validFilenameRune] turns down whatever their
    class: slash, backslash, colon, asterisk, double quote, less-than,
    greater-than and the vertical bar. *)
Definition rejectSet : list Z := [47; 92; 58; 42; 34; 60; 62; 124].

(** What the gate asks of a name, in the words of the specification. *)
Definition gateAccepts (n : string) : Prop :=
  Utf8.ValidString n = true /\
  GoStringsTrim.TrimSpace n = n /\
  (1 <= String.length n <= 255)%nat /\
  Path.Clean n = n /\
  n <> "." /\ n <> ".." /\
  GoStrings.HasSuffix n partialSuffix = false /\
  Forall (fun r => unicode_IsPrint r = true /\ ~ In r rejectSet) (Utf8.runes n).

(** The request names [baseName] and its destination is [dstFile]: the
    peer is the owner, file sharing is on, the method is PUT, a root is
    configured, the escaped path is the prefix followed by a non-empty
    suffix without a slash that unescapes to [baseName], and the gate
    accepts [baseName]. *)
Definition putAccepts (h : peerAPIHandler) (r : Request) (w : World)
           (baseName dstFile : string) : Prop :=
  isSelf h = true /\
  hasCapFileSharing w = true /\
  Method r = "PUT" /\
  rootDir (ps h) <> EmptyString /\
  exists suffix p,
    URL_EscapedPath r = "/v0/put/" +:+ suffix /\
    suffix <> EmptyString /\
    GoStrings.Contains suffix "/" = false /\
    Url.PathUnescape suffix = Some baseName /\
    diskPath (ps h) baseName = (p, true) /\
    dstFile = (if directFileMode (ps h) then p +:+ partialSuffix else p).

(** The parts of the world that writing, closing, registering and
    notifying never change. *)
Definition sameBackdrop (w w' : World) : Prop :=
  knownEmpty w' = knownEmpty w /\
  capFileSharing w' = capFileSharing w /\
  removeBusy (faults w') = removeBusy (faults w) /\
  closeFault (faults w') = closeFault (faults w).

(** The notifications of a finished upload: the one of
    [markAndNotifyDone] and the one at the end of [handlePeerPut]. *)
Definition isFinalNotify (e : Event) : bool :=
  match e with
  | EvNotify FromDone | EvNotify FromPut => true
  | _ => false
  end.

(** [w'] has the trace of [w] and then events that are no final
    notification. *)
Definition onlyProgress (w w' : World) : Prop :=
  exists new, events w' = events w ++ new /\
              Forall (fun e => isFinalNotify e = false) new.

Definition okResponse : Response := {| status := StatusOK; body := "{}" +:+ nl |}.

(** The candidate port of attempt [k], in the words of the specification:
    the last three bytes of the 16-byte form, [k] added to the first of
    them as a byte, and [0x8000 | (crc & 0xFFFF)]. *)
Definition candidatePort (ip : IP) (k : Z) : Z :=
  match drop 13 (As16 ip) with
  | [b0; b1; b2] =>
    Z.lor 0x8000 (Z.land (Crc32.ChecksumIEEE [(b0 + k) mod 256; b1; b2]) 0xFFFF)
  | _ => 0
  end.

(** The host and the network that [listen] binds. *)
Definition bindHost (env : ListenEnv) (ip : IP) : string :=
  if IsNetstack env then EmptyString
  else
    match initListenConfig env with
    | Some _ =>
      if String.eqb GOOS "darwin" || String.eqb GOOS "ios"
      then EmptyString else IP_String ip
    | None => IP_String ip
    end.

Definition bindNetwork (ip : IP) : string := if Is6 ip then "tcp6" else "tcp4".

Definition candidateAddr (env : ListenEnv) (ip : IP) (k : Z) : string :=
  Net.JoinHostPort (bindHost env ip) (Strconv.Itoa (candidatePort ip k)).

(** The hook that prepares the listen configuration, if there is one,
    reports no error. *)
Definition hookOk (env : ListenEnv) (s : peerAPIServer) (ip : IP) : Prop :=
  match initListenConfig env with
  | Some init => init ip (tunName s) = None
  | None => True
  end.

(** The entries that the calls of [ReadDir] showed, up to the call that
    returned an error. *)
Definition scanned (f : DirStream) : list DirEntry :=
  concat (reads f) ++ fst (lastRead f).

(** The staging directory was seen without a waiting file: it was opened
    and read to its end, and none of its entries is a regular file whose
    name does not end in [.partial]. *)
Definition observedEmpty (s : peerAPIServer) (w : World) : Prop :=
  (exists sz, fs w !! resolve (rootDir s) = Some (Directory sz)) /\
  forall de, In de (listing (fs w) (rootDir s)) -> isWaiting de = false.

(** The operations of the server. *)
Inductive Op :=
| OpHasFilesWaiting
| OpWaitingFiles
| OpDeleteFile (baseName : string)
| OpOpenFile (baseName : string)
| OpServeHTTP (h : peerAPIHandler) (r : Request).

Definition runOp (s : peerAPIServer) (op : Op) (w : World) : World :=
  match op with
  | OpHasFilesWaiting => snd (hasFilesWaiting s w)
  | OpWaitingFiles => snd (WaitingFiles s w)
  | OpDeleteFile n => snd (DeleteFile s n w)
  | OpOpenFile n => w
  | OpServeHTTP h r => snd (ServeHTTP h r w)
  end.

Fixpoint hasChar (a : ascii) (s : string) : bool :=
  match s with
  | EmptyString => false
  | String c t => Ascii.eqb c a || hasChar a t
  end.

(** [a1] occurs in [s] with [a2] right after it. *)
Fixpoint pairIn (a1 a2 : ascii) (s : string) : bool :=
  match s with
  | EmptyString => false
  | String c t =>
    (Ascii.eqb c a1 && match t with
                       | String d _ => Ascii.eqb d a2
                       | EmptyString => false
                       end)
    || pairIn a1 a2 t
  end.

Fixpoint lastIs (a : ascii) (s : string) : bool :=
  match s with
  | EmptyString => false
  | String c EmptyString => Ascii.eqb c a
  | String _ t => lastIs a t
  end.

(** [s] has no [a1] followed by [a2] and does not end in [a1], so that
    nothing put after [s] completes such a pair. *)
Definition safe (a1 a2 : ascii) (s : string) : Prop :=
  pairIn a1 a2 s = false /\ lastIs a1 s = false.

(** The characters that [EscapeString] leaves nowhere in its result:
    the quote, the less-than and greater-than signs, the double quote. *)
Definition escapedAway : list Z := [39; 60; 62; 34].

(** An address without a zone, as [serve] gets it from [FromStdAddr]
    with the empty zone: an IPv4 address or an IPv6 address. *)
Definition noZone (ip : IP) : bool :=
  match z ip with
  | z4 | z6noz => true
  | _ => false
  end.

(** The characters of the text of an address without a zone: the decimal
    digits, the letters of the hexadecimal digits, the dot and the
    colon. *)
Definition addrChar (c : ascii) : bool :=
  inRange 48 57 (byteZ c) || inRange 97 102 (byteZ c)
  || (byteZ c =? 46) || (byteZ c =? 58).

Definition plainAddr (s : string) : bool :=
  forallb addrChar (list_ascii_of_string s).

(** ** More vocabulary: the staging store *)

(** The entry that [WaitingFiles] makes of a directory entry it lists. *)
Definition waitingOf (de : DirEntry) : WaitingFile :=
  {| WaitingFile_Name := Filepath.Base (de_Name de);
     WaitingFile_Size := de_Size de |}.

(** The [Info] of an entry of the directory [dir] succeeds. *)
Definition canStat (w : World) (dir : string) (de : DirEntry) : bool :=
  match snd (de_Info w dir de) with
  | None => true
  | Some _ => false
  end.

(** The entries that [WaitingFiles] lists: the regular files whose name
    does not end in [.partial] and whose [Info] succeeds. *)
Definition listed (w : World) (dir : string) (de : DirEntry) : bool :=
  isWaiting de && canStat w dir de.

(** ** More vocabulary: uploads *)

(** A notification sent from the call site [src]. *)
Definition isNotifyFrom (src : NotifySource) (e : Event) : bool :=
  match e, src with
  | EvNotify FromWrite, FromWrite => true
  | EvNotify FromDone, FromDone => true
  | EvNotify FromPut, FromPut => true
  | _, _ => false
  end.

(** The number of notifications that were sent from [src] so far. *)
Definition notifyCount (src : NotifySource) (w : World) : Z :=
  Z.of_nat (length (List.filter (isNotifyFrom src) (events w))).

(** The fields of an upload object that are set when it is made. *)
Definition sameUpload (f f1 : IncomingFile.t) : Prop :=
  IncomingFile.name f1 = IncomingFile.name f /\
  IncomingFile.started f1 = IncomingFile.started f /\
  IncomingFile.size f1 = IncomingFile.size f /\
  IncomingFile.w f1 = IncomingFile.w f /\
  IncomingFile.partialPath f1 = IncomingFile.partialPath f.

(** No read of the body takes a negative time. *)
Definition timeGoesOn (b : Body) : Prop :=
  Forall (fun rd => 0 <= fst rd) (bodyReads b).

(** The pace of the progress notifications between two states of an
    upload: with a last notification at [t0], the new ones are a second
    apart and more; without one, the first may come at once. *)
Definition paced (f : IncomingFile.t) (w : World) (f1 : IncomingFile.t) (w1 : World)
  : Prop :=
  now w <= now w1 /\
  (forall src, src <> FromWrite -> notifyCount src w1 = notifyCount src w) /\
  notifyCount FromWrite w <= notifyCount FromWrite w1 /\
  match IncomingFile.lastNotify f with
  | Some t0 =>
    t0 <= now w ->
    exists t1, IncomingFile.lastNotify f1 = Some t1 /\ t1 <= now w1 /\
               (notifyCount FromWrite w1 - notifyCount FromWrite w) * Second
               <= t1 - t0
  | None =>
    (notifyCount FromWrite w1 = notifyCount FromWrite w /\
     IncomingFile.lastNotify f1 = None) \/
    (exists t1, IncomingFile.lastNotify f1 = Some t1 /\ t1 <= now w1 /\
                (notifyCount FromWrite w1 - notifyCount FromWrite w - 1) * Second
                <= t1 - now w)
  end.

(** ** More vocabulary: paths *)

(** A single element of a path: not empty, without a slash, and neither
    [.] nor [..]. *)
Definition simpleName (n : string) : Prop :=
  n <> EmptyString /\ n <> "." /\ n <> ".." /\
  forall c, In c (list_ascii_of_string n) -> Path.isSlash c = false.

(** The slash that [Clean] puts before an element that it copies. *)
Definition withSlash (rooted : bool) (rout : list ascii) : list ascii :=
  if (rooted && negb (length rout =? 1)%nat)
     || (negb rooted && negb (length rout =? 0)%nat)
  then chr Path.slash :: rout else rout.

(** The path of the element [n] in the directory [root], for a root that
    is clean. *)
Definition childPath (root n : string) : string :=
  if String.eqb root "/" then "/" +:+ n
  else if String.eqb root "." then n
  else root +:+ "/" +:+ n.

(** * Properties *)

(** ** Strings *)

Lemma Clean_empty : Path.Clean EmptyString = ".".
Proof. reflexivity. Qed.

(** A name that [Clean] leaves alone is not empty. *)
Lemma Clean_fixed_nonempty (n : string) :
  Path.Clean n = n -> (1 <= String.length n)%nat.
Proof.
  destruct n as [|c t]; simpl.
  - rewrite Clean_empty. discriminate.
  - intros _. lia.
Qed.

(** ** The filename gate *)

Lemma validFilenameRune_spec (r : Z) :
  validFilenameRune r = true <->
  unicode_IsPrint r = true /\ ~ In r rejectSet.
Proof.
  unfold validFilenameRune, rejectSet. simpl In.
  destruct (Z.eqb_spec r 47) as [->|H47].
  { split; [discriminate | intros [_ H]; exfalso; apply H; auto]. }
  destruct (Z.eqb_spec r 92) as [->|H92]; simpl.
  { split; [discriminate | intros [_ H]; exfalso; apply H; auto]. }
  destruct (Z.eqb_spec r 58) as [->|H58]; simpl.
  { split; [discriminate | intros [_ H]; exfalso; apply H; auto]. }
  destruct (Z.eqb_spec r 42) as [->|H42]; simpl.
  { split; [discriminate | intros [_ H]; exfalso; apply H; auto 6]. }
  destruct (Z.eqb_spec r 34) as [->|H34]; simpl.
  { split; [discriminate | intros [_ H]; exfalso; apply H; auto 7]. }
  destruct (Z.eqb_spec r 60) as [->|H60]; simpl.
  { split; [discriminate | intros [_ H]; exfalso; apply H; auto 8]. }
  destruct (Z.eqb_spec r 62) as [->|H62]; simpl.
  { split; [discriminate | intros [_ H]; exfalso; apply H; auto 9]. }
  destruct (Z.eqb_spec r 124) as [->|H124]; simpl.
  { split; [discriminate | intros [_ H]; exfalso; apply H; auto 10]. }
  split.
  - intros H. split; [exact H|]. intros Hin.
    repeat (destruct Hin as [Hin|Hin]; [congruence|]). exact Hin.
  - intros [H _]. exact H.
Qed.

Lemma forallb_validFilenameRune (l : list Z) :
  forallb validFilenameRune l = true <->
  Forall (fun r => unicode_IsPrint r = true /\ ~ In r rejectSet) l.
Proof.
  induction l as [|r l IH]; simpl.
  - split; [constructor | reflexivity].
  - rewrite andb_true_iff, IH, validFilenameRune_spec. split.
    + intros [H1 H2]. constructor; assumption.
    + intros H. inversion H; subst. split; assumption.
Qed.

(** C1. [diskPath] accepts a base name exactly when the name is valid
    UTF-8, is unchanged by trimming white space, has between 1 and 255
    bytes, is unchanged by [path.Clean], is neither [.] nor [..], does not
    end in [.partial], and has only printable runes outside the reject set.
    An accepted name is answered with [filepath.Join] of the root and the
    name, a rejected one with the empty path; [diskPath] is a function of
    the server's configuration and the name alone, so no file is touched. *)
Theorem diskPath_accepts_iff (s : peerAPIServer) (n : string) :
  (snd (diskPath s n) = true <-> gateAccepts n) /\
  (snd (diskPath s n) = true ->
   fst (diskPath s n) = Filepath.Join (rootDir s) n) /\
  (snd (diskPath s n) = false -> fst (diskPath s n) = EmptyString).
Proof.
  unfold diskPath, gateAccepts.
  destruct (Utf8.ValidString n) eqn:Hv; simpl;
    [|repeat split; try discriminate; intros (H & _); discriminate].
  destruct (String.eqb_spec (GoStringsTrim.TrimSpace n) n) as [Ht|Ht]; simpl;
    [|repeat split; try discriminate; intros (_ & H & _); contradiction].
  destruct (Nat.ltb_spec 255 (String.length n)) as [Hl|Hl]; simpl;
    [repeat split; try discriminate; intros (_ & _ & H & _); lia|].
  destruct (String.eqb_spec (Path.Clean n) n) as [Hc|Hc]; simpl;
    [|repeat split; try discriminate; intros (_ & _ & _ & H & _); contradiction].
  rewrite Hc.
  destruct (String.eqb_spec n ".") as [Hd|Hd]; simpl;
    [repeat split; try discriminate; intros (_ & _ & _ & _ & H & _); contradiction|].
  destruct (String.eqb_spec n "..") as [Hdd|Hdd]; simpl;
    [repeat split; try discriminate;
     intros (_ & _ & _ & _ & _ & H & _); contradiction|].
  destruct (GoStrings.HasSuffix n partialSuffix) eqn:Hs; simpl;
    [repeat split; try discriminate;
     intros (_ & _ & _ & _ & _ & _ & H & _); discriminate|].
  destruct (forallb validFilenameRune (Utf8.runes n)) eqn:Hr; simpl.
  - apply forallb_validFilenameRune in Hr.
    repeat split; auto using Clean_fixed_nonempty; discriminate.
  - repeat split; try discriminate.
    intros (_ & _ & _ & _ & _ & _ & _ & H).
    apply forallb_validFilenameRune in H. congruence.
Qed.

(** ** More on strings *)

Lemma append_String (a : ascii) (s t : string) :
  String a s +:+ t = String a (s +:+ t).
Proof. reflexivity. Qed.

Lemma append_Empty (t : string) : EmptyString +:+ t = t.
Proof. reflexivity. Qed.

Lemma length_append (s t : string) :
  String.length (s +:+ t) = (String.length s + String.length t)%nat.
Proof.
  induction s as [|a s IH]; [reflexivity|].
  rewrite append_String. simpl. now rewrite IH.
Qed.

Lemma prefix_append (pre s : string) : String.prefix pre (pre +:+ s) = true.
Proof.
  induction pre as [|a pre IH].
  - rewrite append_Empty. destruct s; reflexivity.
  - rewrite append_String. simpl.
    destruct (ascii_dec a a) as [_|Hne]; [exact IH | contradiction].
Qed.

Lemma dropS_append (pre s : string) : dropS (String.length pre) (pre +:+ s) = s.
Proof.
  induction pre as [|a pre IH]; [reflexivity|].
  rewrite append_String. simpl. exact IH.
Qed.

Lemma TrimPrefix_append (pre s : string) :
  GoStrings.TrimPrefix (pre +:+ s) pre = s.
Proof.
  unfold GoStrings.TrimPrefix, GoStrings.HasPrefix.
  rewrite prefix_append. apply dropS_append.
Qed.

Lemma length_dropS (n : nat) (s : string) :
  String.length (dropS n s) = (String.length s - n)%nat.
Proof.
  revert s. induction n as [|n IH]; intros s; simpl.
  - lia.
  - destruct s as [|a s]; simpl; [reflexivity | apply IH].
Qed.

(** The prefix is missing exactly when [TrimPrefix] returns its argument,
    which is what the handler tests. *)
Lemma TrimPrefix_same_iff (s : string) :
  GoStrings.TrimPrefix s "/v0/put/" = s <->
  GoStrings.HasPrefix s "/v0/put/" = false.
Proof.
  unfold GoStrings.TrimPrefix.
  destruct (GoStrings.HasPrefix s "/v0/put/") eqn:Hp.
  - split; [|discriminate]. intros Heq.
    assert (Hlen : String.length (dropS (String.length "/v0/put/") s)
                   = String.length s) by now rewrite Heq.
    rewrite length_dropS in Hlen. simpl in Hlen.
    unfold GoStrings.HasPrefix in Hp.
    destruct s as [|a s]; [discriminate|]. simpl in Hlen. lia.
  - split; reflexivity.
Qed.

(** ** Requests that pass every check of the upload handler *)

Lemma handlePeerPut_accepted h r w baseName dstFile :
  putAccepts h r w baseName dstFile ->
  handlePeerPut h r w =
  match os_Create dstFile w with
  | (Some err, w1) => (http_Error (errorText err) StatusInternalServerError, w1)
  | (None, w1) =>
    let '(resp, success, w2) := putTransfer h r baseName dstFile w1 in
    (resp, if success then w2 else snd (os_Remove dstFile w2))
  end.
Proof.
  intros (Hself & Hcap & Hm & Hroot & suffix & p & Hpath & Hne & Hsl & Hun & Hd & ->).
  unfold handlePeerPut.
  rewrite Hself, Hcap, Hm. simpl.
  apply String.eqb_neq in Hroot. rewrite Hroot.
  rewrite Hpath, TrimPrefix_append.
  destruct (String.eqb_spec suffix ("/v0/put/" +:+ suffix)) as [Heq|_].
  { exfalso. assert (Hl := f_equal String.length Heq).
    rewrite length_append in Hl. simpl in Hl. lia. }
  apply String.eqb_neq in Hne. rewrite Hne, Hsl, Hun, Hd. simpl.
  reflexivity.
Qed.

(** ** What a transfer leaves alone *)

Lemma sameBackdrop_refl w : sameBackdrop w w.
Proof. repeat split. Qed.

Lemma sameBackdrop_trans w1 w2 w3 :
  sameBackdrop w1 w2 -> sameBackdrop w2 w3 -> sameBackdrop w1 w3.
Proof.
  intros (A1 & A2 & A3 & A4) (B1 & B2 & B3 & B4).
  repeat split; congruence.
Qed.

Lemma onlyProgress_refl w : onlyProgress w w.
Proof. exists []. split; [now rewrite app_nil_r | constructor]. Qed.

Lemma onlyProgress_trans w1 w2 w3 :
  onlyProgress w1 w2 -> onlyProgress w2 w3 -> onlyProgress w1 w3.
Proof.
  intros (n1 & E1 & F1) (n2 & E2 & F2). exists (n1 ++ n2). split.
  - rewrite E2, E1. now rewrite app_assoc.
  - apply Forall_app. split; assumption.
Qed.

Lemma onlyProgress_addEvent e w :
  isFinalNotify e = false -> onlyProgress w (addEvent e w).
Proof. intros H. exists [e]. split; [reflexivity | repeat constructor; exact H]. Qed.

Lemma os_File_Write_props path p w n err w1 :
  os_File_Write path p w = (n, err, w1) ->
  sameBackdrop w w1 /\ events w1 = events w /\
  (err = None -> n = length p) /\
  (forall d0, fs w !! resolve path = Some (Regular d0) ->
              fs w1 !! resolve path = Some (Regular (d0 ++ take n p))).
Proof.
  unfold os_File_Write.
  destruct (writeQuota (faults w)) as [q|].
  - destruct (Nat.leb_spec (length p) q) as [Hle|Hgt];
      intros H; inversion H; subst; clear H; simpl;
      (split; [repeat split|]); (split; [reflexivity|]);
      (split; [try discriminate; auto|]);
      intros d0 Hd0; rewrite lookup_alter_eq, Hd0; simpl;
      try rewrite take_ge by lia; reflexivity.
  - intros H; inversion H; subst; clear H; simpl.
    split; [repeat split|]. split; [reflexivity|]. split; [auto|].
    intros d0 Hd0. rewrite lookup_alter_eq, Hd0. simpl.
    now rewrite take_ge by lia.
Qed.

Lemma incomingFile_Write_props id f p w n err f1 w1 :
  incomingFile_Write id f p w = (n, err, f1, w1) ->
  sameBackdrop w w1 /\ onlyProgress w w1 /\
  IncomingFile.w f1 = IncomingFile.w f /\
  (err = None -> n = length p) /\
  (forall d0, fs w !! resolve (IncomingFile.w f) = Some (Regular d0) ->
              fs w1 !! resolve (IncomingFile.w f) = Some (Regular (d0 ++ take n p))).
Proof.
  unfold incomingFile_Write.
  destruct (os_File_Write (IncomingFile.w f) p w) as [[n0 err0] w0] eqn:Hw.
  apply os_File_Write_props in Hw. destruct Hw as (Hb & Hev & Hn & Hfs).
  destruct Hb as (B1 & B2 & B3 & B4).
  destruct (0 <? n0)%nat.
  - destruct (match IncomingFile.lastNotify f with
              | Some last => Second <? now w0 - last
              | None => true
              end);
      intros H; inversion H; subst; clear H; simpl;
      (split; [repeat split; assumption|]); (split; [|auto]).
    + exists [EvNotify FromWrite]. simpl. rewrite Hev. split; [reflexivity|].
      repeat constructor.
    + exists []. simpl. rewrite Hev, app_nil_r. split; [reflexivity|constructor].
  - intros H; inversion H; subst; clear H.
    split; [repeat split; assumption|]. split; [|auto].
    exists []. rewrite Hev, app_nil_r. split; [reflexivity|constructor].
Qed.

(** The copy appends to the destination what it wrote; when it ends
    without an error it wrote the whole body, which ended regularly. *)
Lemma io_Copy_props id rds ending :
  forall f written w n err f1 w1,
    io_Copy id f rds ending written w = (n, err, f1, w1) ->
    sameBackdrop w w1 /\ onlyProgress w w1 /\
    (forall d0, fs w !! resolve (IncomingFile.w f) = Some (Regular d0) ->
       exists d, fs w1 !! resolve (IncomingFile.w f) = Some (Regular (d0 ++ d)) /\
                 (err = None -> d = concat (map snd rds))).
Proof.
  induction rds as [|[d p] rest IH]; intros f written w n err f1 w1; simpl.
  - intros H; inversion H; subst; clear H.
    split; [repeat split|]. split.
    + apply onlyProgress_addEvent. reflexivity.
    + intros d0 Hd0. exists []. simpl. rewrite app_nil_r. split; auto.
  - set (w0 := addEvent (EvRead (length p)) (sleep d w)).
    assert (Hb0 : sameBackdrop w w0) by (repeat split).
    assert (Hp0 : onlyProgress w w0).
    { exists [EvRead (length p)]. split; [reflexivity|repeat constructor]. }
    destruct p as [|b p'].
    + intros H. apply IH in H. destruct H as (Hb & Hp & Hfs).
      split; [exact (sameBackdrop_trans _ _ _ Hb0 Hb)|].
      split; [exact (onlyProgress_trans _ _ _ Hp0 Hp)|].
      intros d0 Hd0. apply (Hfs d0 Hd0).
    + destruct (incomingFile_Write id f (b :: p') w0) as [[[nw ew] f2] w2] eqn:Hw.
      apply incomingFile_Write_props in Hw.
      destruct Hw as (Hb1 & Hp1 & Hwf & Hn & Hfs1).
      pose proof (sameBackdrop_trans _ _ _ Hb0 Hb1) as Hb01.
      pose proof (onlyProgress_trans _ _ _ Hp0 Hp1) as Hp01.
      destruct ew as [e|].
      * intros H; inversion H; subst; clear H.
        split; [exact Hb01|]. split; [exact Hp01|].
        intros d0 Hd0. exists (take nw (b :: p')).
        split; [apply Hfs1; exact Hd0 | discriminate].
      * specialize (Hn eq_refl). subst nw.
        rewrite Nat.eqb_refl. simpl negb. cbv iota.
        intros H. apply IH in H. destruct H as (Hb & Hp & Hfs).
        split; [exact (sameBackdrop_trans _ _ _ Hb01 Hb)|].
        split; [exact (onlyProgress_trans _ _ _ Hp01 Hp)|].
        intros d0 Hd0. specialize (Hfs1 d0 Hd0).
        rewrite take_ge in Hfs1 by lia.
        rewrite Hwf in Hfs. destruct (Hfs _ Hfs1) as (d1 & Hd1 & Herr).
        exists ((b :: p') ++ d1). rewrite app_assoc. split; [exact Hd1|].
        intros He. rewrite (Herr He). reflexivity.
Qed.

Lemma os_Create_props p w err w1 :
  os_Create p w = (err, w1) ->
  (err <> None -> w1 = w) /\
  (err = None ->
   w1 = setFs (<[resolve p := Regular []]> (fs w)) w).
Proof.
  unfold os_Create.
  destruct (createFault (faults w)).
  { intros H; inversion H; subst. split; [reflexivity | discriminate]. }
  destruct (fs w !! Filepath.Dir p) as [[d|sz]|].
  - intros H; inversion H; subst. split; [reflexivity | discriminate].
  - destruct (fs w !! resolve p) as [[d|sz']|];
      intros H; inversion H; subst;
      (split; [try reflexivity; intros Hn; now elim Hn
              | try discriminate; reflexivity]).
  - intros H; inversion H; subst. split; [reflexivity | discriminate].
Qed.

Lemma os_Remove_props p w err w1 :
  os_Remove p w = (err, w1) ->
  knownEmpty w1 = knownEmpty w /\ events w1 = events w /\
  (incomingFiles w1 = incomingFiles w /\ now w <= now w1) /\
  (forall d, removeBusy (faults w) = [] ->
             fs w !! resolve p = Some (Regular d) ->
             fs w1 !! resolve p = None).
Proof.
  unfold os_Remove.
  destruct (fs w !! resolve p) as [nd|] eqn:Hl.
  - destruct (removeBusy (faults w)) as [|d rest].
    + destruct nd as [d0|sz].
      * intros H; inversion H; subst; simpl. repeat split; try lia.
        intros d _ _. apply lookup_delete_eq.
      * destruct (hasChildren (fs w) (resolve p));
          intros H; inversion H; subst; simpl; repeat split; try lia;
          intros d _ Hd; discriminate.
    + intros H; inversion H; subst; simpl. repeat split; try lia.
      intros d0 Hnil; discriminate.
  - intros H; inversion H; subst. repeat split; try lia.
    intros d _ Hd; discriminate.
Qed.

Lemma putFinish_props h dstFile inFile w resp success w' :
  putFinish h dstFile inFile w = (resp, success, w') ->
  (success = false ->
   status resp = StatusInternalServerError /\ w' = w /\
   closeFault (faults w) <> None) /\
  (success = true ->
   resp = okResponse /\ knownEmpty w' = false /\ fs w' = fs w /\
   closeFault (faults w) = None).
Proof.
  unfold putFinish, os_File_Close.
  destruct (closeFault (faults w)) as [e|].
  - intros H; inversion H; subst. split; [|discriminate].
    intros _. repeat split. discriminate.
  - intros H; inversion H; subst. split; [discriminate|].
    intros _. repeat split.
    destruct (directFileMode (ps h)); [|reflexivity].
    destruct inFile as [[id f]|]; reflexivity.
Qed.

Lemma registerIncomingFile_backdrop id f a w :
  sameBackdrop w (registerIncomingFile id f a w) /\
  onlyProgress w (registerIncomingFile id f a w) /\
  fs (registerIncomingFile id f a w) = fs w.
Proof.
  repeat split. exists [EvRegister id a]. split; [reflexivity|repeat constructor].
Qed.

(** The transfer, between the creation of the destination and the
    deferred removal. *)
Lemma putTransfer_props h r baseName dstFile w resp success w' :
  putTransfer h r baseName dstFile w = (resp, success, w') ->
  (success = false ->
   status resp = StatusInternalServerError /\
   sameBackdrop w w' /\ onlyProgress w w' /\
   forall d0, fs w !! resolve dstFile = Some (Regular d0) ->
              exists d, fs w' !! resolve dstFile = Some (Regular (d0 ++ d))) /\
  (success = true ->
   resp = okResponse /\ knownEmpty w' = false /\
   forall d0, fs w !! resolve dstFile = Some (Regular d0) ->
     fs w' !! resolve dstFile =
     Some (Regular (d0 ++ if ContentLength r =? 0 then []
                          else bodyBytes (reqBody r)))).
Proof.
  unfold putTransfer.
  destruct (ContentLength r =? 0); simpl negb; cbv iota.
  - intros H. apply putFinish_props in H. destruct H as (Hf & Hs). split.
    + intros E. destruct (Hf E) as (H1 & -> & _).
      split; [exact H1|]. split; [apply sameBackdrop_refl|].
      split; [apply onlyProgress_refl|].
      intros d0 Hd0. exists []. now rewrite app_nil_r.
    + intros E. destruct (Hs E) as (H1 & H2 & H3 & _).
      split; [exact H1|]. split; [exact H2|].
      intros d0 Hd0. now rewrite H3, app_nil_r.
  - set (id := newUpload w).
    set (inFile := {| IncomingFile.name := baseName |}).
    set (wr := registerIncomingFile id inFile true w).
    destruct (registerIncomingFile_backdrop id inFile true w) as (Hbr & Hpr & Hfr).
    fold wr in Hbr, Hpr, Hfr.
    destruct (io_Copy id inFile (bodyReads (reqBody r)) (bodyEnd (reqBody r)) 0 wr)
      as [[[n err] inFile1] w2] eqn:Hc.
    apply io_Copy_props in Hc. destruct Hc as (Hbc & Hpc & Hfc).
    change (IncomingFile.w inFile) with dstFile in Hfc. rewrite Hfr in Hfc.
    pose proof (sameBackdrop_trans _ _ _ Hbr Hbc) as Hb2.
    pose proof (onlyProgress_trans _ _ _ Hpr Hpc) as Hp2.
    destruct err as [e|].
    + unfold os_File_Close.
      assert (Hcl : snd (match closeFault (faults w2) with
                         | Some e0 => (Some (PathError "close" dstFile e0), w2)
                         | None => (None, w2)
                         end) = w2)
        by (destruct (closeFault (faults w2)); reflexivity).
      rewrite Hcl.
      intros H; inversion H; subst; clear H. split; [|discriminate].
      intros _. split; [reflexivity|].
      destruct (registerIncomingFile_backdrop id inFile1 false w2) as (Hb3 & Hp3 & Hf3).
      split; [exact (sameBackdrop_trans _ _ _ Hb2 Hb3)|].
      split; [exact (onlyProgress_trans _ _ _ Hp2 Hp3)|].
      intros d0 Hd0. destruct (Hfc d0 Hd0) as (d & Hd & _).
      exists d. rewrite Hf3. exact Hd.
    + destruct (putFinish h dstFile (Some (id, inFile1)) w2)
        as [[resp0 succ0] w3] eqn:Hf.
      apply putFinish_props in Hf. destruct Hf as (Hff & Hfs).
      intros H; inversion H; subst; clear H.
      destruct (registerIncomingFile_backdrop id inFile1 false w3) as (Hb3 & Hp3 & Hf3).
      split.
      * intros E. destruct (Hff E) as (H1 & -> & _).
        split; [exact H1|].
        split; [exact (sameBackdrop_trans _ _ _ Hb2 Hb3)|].
        split; [exact (onlyProgress_trans _ _ _ Hp2 Hp3)|].
        intros d0 Hd0. destruct (Hfc d0 Hd0) as (d & Hd & _).
        exists d. rewrite Hf3. exact Hd.
      * intros E. destruct (Hfs E) as (H1 & H2 & H3 & _).
        split; [exact H1|]. split; [exact H2|].
        intros d0 Hd0. destruct (Hfc d0 Hd0) as (d & Hd & Hbody).
        rewrite Hf3, H3, Hd, (Hbody eq_refl). reflexivity.
Qed.

(** ** Uploads that fail *)

(** What is left of an upload that is not answered with 200. *)
Lemma put_failure_props h r w baseName dstFile resp w' :
  putAccepts h r w baseName dstFile ->
  handlePeerPut h r w = (resp, w') ->
  status resp <> StatusOK ->
  status resp = StatusInternalServerError /\
  knownEmpty w' = knownEmpty w /\
  onlyProgress w w' /\
  (fst (os_Create dstFile w) <> None -> w' = w) /\
  (fst (os_Create dstFile w) = None -> removeBusy (faults w) = [] ->
   fs w' !! resolve dstFile = None).
Proof.
  intros Hacc Hrun Hst.
  rewrite (handlePeerPut_accepted _ _ _ _ _ Hacc) in Hrun.
  destruct (os_Create dstFile w) as [err w1] eqn:Hc.
  apply os_Create_props in Hc. destruct Hc as (Hce & Hcn).
  destruct err as [e|].
  - inversion Hrun; subst; clear Hrun.
    rewrite (Hce ltac:(discriminate)).
    split; [reflexivity|]. split; [reflexivity|].
    split; [apply onlyProgress_refl|]. split; [reflexivity|discriminate].
  - specialize (Hcn eq_refl).
    destruct (putTransfer h r baseName dstFile w1) as [[resp0 success] w2] eqn:Ht.
    apply putTransfer_props in Ht. destruct Ht as (Hf & Hs).
    inversion Hrun; subst resp0 w'; clear Hrun.
    destruct success.
    { destruct (Hs eq_refl) as (-> & _). now elim Hst. }
    destruct (Hf eq_refl) as (H500 & (B1 & B2 & B3 & B4) & Hp & Hfs).
    destruct (os_Remove dstFile w2) as [rerr w3] eqn:Hr.
    apply os_Remove_props in Hr. destruct Hr as (R1 & R2 & (R3 & _) & R4).
    simpl snd.
    split; [exact H500|].
    split; [rewrite R1, B1, Hcn; reflexivity|].
    split.
    { destruct Hp as (new & Hnew & Hall). exists new.
      rewrite R2, Hnew, Hcn. split; [reflexivity | exact Hall]. }
    split; [intros Hn; now elim Hn|].
    intros _ Hbusy.
    assert (Hd0 : fs w1 !! resolve dstFile = Some (Regular [])).
    { rewrite Hcn. simpl. apply lookup_insert_eq. }
    destruct (Hfs _ Hd0) as (d & Hd).
    apply (R4 _ ltac:(rewrite B3, Hcn; exact Hbusy) Hd).
Qed.

(** C2, as amended.  When an upload that passed every check is not
    answered with 200, it is answered with 500, the negative-empty cache
    is as before, and the trace has grown by no final notification (the
    progress notifications of [Write] may have been sent).  When
    [os.Create] failed nothing has changed at all; when the copy or the
    close failed and the removal is not refused, no file is left at the
    destination. *)
Theorem put_failure_cleanup h r w baseName dstFile resp w' :
  putAccepts h r w baseName dstFile ->
  handlePeerPut h r w = (resp, w') ->
  status resp <> StatusOK ->
  status resp = StatusInternalServerError /\
  knownEmpty w' = knownEmpty w /\
  onlyProgress w w' /\
  (fst (os_Create dstFile w) <> None -> w' = w) /\
  (fst (os_Create dstFile w) = None -> removeBusy (faults w) = [] ->
   fs w' !! resolve dstFile = None).
Proof. apply put_failure_props. Qed.

(** ** An upload and the file it leaves *)

(** C3.  In non-direct mode, when an upload of the accepted name [n]
    with body [b] is answered with 200, [OpenFile n] returns a file that
    reads as [b], with the size [length b].  The owner, the capability and
    the configured root are part of [putAccepts]; a request with a
    Content-Length of 0 has an empty body. *)
Theorem put_then_open_roundtrip h r w n dstFile resp w' :
  putAccepts h r w n dstFile ->
  directFileMode (ps h) = false ->
  (ContentLength r = 0 -> bodyBytes (reqBody r) = []) ->
  handlePeerPut h r w = (resp, w') ->
  status resp = StatusOK ->
  exists f,
    OpenFile (ps h) n w' =
      (Some f, Z.of_nat (length (bodyBytes (reqBody r))), None) /\
    io_ReadAll f = (bodyBytes (reqBody r), None).
Proof.
  intros Hacc Hdirect Hwf Hrun Hst.
  rewrite (handlePeerPut_accepted _ _ _ _ _ Hacc) in Hrun.
  destruct Hacc as (_ & _ & _ & Hroot & suffix & p & _ & _ & _ & _ & Hdisk & Hdst).
  rewrite Hdirect in Hdst. subst dstFile.
  destruct (os_Create p w) as [err w1] eqn:Hc.
  apply os_Create_props in Hc. destruct Hc as (_ & Hcn).
  destruct err as [e|].
  { inversion Hrun; subst. discriminate. }
  specialize (Hcn eq_refl).
  destruct (putTransfer h r n p w1) as [[resp0 success] w2] eqn:Ht.
  apply putTransfer_props in Ht. destruct Ht as (Hf & Hs).
  inversion Hrun; subst resp0 w'; clear Hrun.
  destruct success.
  2:{ destruct (Hf eq_refl) as (H500 & _). rewrite H500 in Hst. discriminate. }
  destruct (Hs eq_refl) as (_ & _ & Hfs).
  assert (Hd0 : fs w1 !! resolve p = Some (Regular [])).
  { rewrite Hcn. simpl. apply lookup_insert_eq. }
  specialize (Hfs _ Hd0). simpl app in Hfs.
  assert (Hbody : (if ContentLength r =? 0 then [] else bodyBytes (reqBody r))
                  = bodyBytes (reqBody r)).
  { destruct (Z.eqb_spec (ContentLength r) 0) as [E|_]; [|reflexivity].
    symmetry. exact (Hwf E). }
  rewrite Hbody in Hfs.
  exists {| File_path := p; File_node := Regular (bodyBytes (reqBody r)) |}.
  split; [|reflexivity].
  unfold OpenFile. apply String.eqb_neq in Hroot.
  rewrite Hroot, Hdirect, Hdisk. simpl negb. cbv iota.
  unfold os_Open. rewrite Hfs. reflexivity.
Qed.

(** ** Uploads of length zero *)

(** C10, as amended.  For an upload with a Content-Length of 0 that
    passed every check, no upload object is registered and the trace grows
    by no registration, no read of the body and no notification of
    [markAndNotifyDone], in direct mode as in the other; and when
    [os.Create] and the close succeed, the destination is created empty,
    the answer is 200 with the body of two braces and a line feed, the
    negative-empty cache is cleared and exactly one notification is sent. *)
Theorem put_zero_length h r w baseName dstFile resp w' :
  putAccepts h r w baseName dstFile ->
  ContentLength r = 0 ->
  handlePeerPut h r w = (resp, w') ->
  incomingFiles w' = incomingFiles w /\
  (exists new, events w' = events w ++ new /\
               Forall (fun e => e = EvNotify FromPut) new) /\
  (fst (os_Create dstFile w) = None -> closeFault (faults w) = None ->
   resp = okResponse /\
   fs w' = <[resolve dstFile := Regular []]> (fs w) /\
   knownEmpty w' = false /\
   events w' = events w ++ [EvNotify FromPut]).
Proof.
  intros Hacc Hcl Hrun.
  rewrite (handlePeerPut_accepted _ _ _ _ _ Hacc) in Hrun.
  destruct (os_Create dstFile w) as [err w1] eqn:Hc.
  apply os_Create_props in Hc. destruct Hc as (Hce & Hcn).
  destruct err as [e|].
  - inversion Hrun; subst; clear Hrun. rewrite (Hce ltac:(discriminate)).
    split; [reflexivity|]. split; [|discriminate].
    exists []. split; [now rewrite app_nil_r | constructor].
  - specialize (Hcn eq_refl). subst w1.
    unfold putTransfer, putFinish, os_File_Close in Hrun.
    rewrite Hcl in Hrun. simpl in Hrun.
    destruct (closeFault (faults w)) as [e|] eqn:Hclose.
    + destruct (os_Remove dstFile (setFs (<[resolve dstFile:=Regular []]> (fs w)) w))
        as [rerr w3] eqn:Hr.
      apply os_Remove_props in Hr. destruct Hr as (R1 & R2 & (R3 & _) & R4).
      inversion Hrun; subst; clear Hrun.
      split; [exact R3|]. split; [|intros _ H; discriminate].
      exists []. rewrite R2, app_nil_r. split; [reflexivity | constructor].
    + assert (Hw : (if directFileMode (ps h)
                    then setFs (<[resolve dstFile:=Regular []]> (fs w)) w
                    else setFs (<[resolve dstFile:=Regular []]> (fs w)) w)
                   = setFs (<[resolve dstFile:=Regular []]> (fs w)) w)
        by (destruct (directFileMode (ps h)); reflexivity).
      rewrite Hw in Hrun. inversion Hrun; subst; clear Hrun. simpl.
      split; [reflexivity|]. split.
      * exists [EvNotify FromPut]. split; [reflexivity | repeat constructor].
      * intros _ _. repeat split.
Qed.

(** ** The port picker *)

Lemma lor_high_bit (m : Z) :
  0 <= m < 2 ^ 16 -> 0x8000 <= Z.lor 0x8000 m <= 0xFFFF.
Proof.
  intros [Hm0 Hm1].
  assert (Hnn : 0 <= Z.lor 0x8000 m) by (apply Z.lor_nonneg; lia).
  assert (Hlog : Z.log2 (Z.lor 0x8000 m) = Z.max 15 (Z.log2 m)).
  { rewrite Z.log2_lor by lia. reflexivity. }
  assert (Hlm : Z.log2 m < 16).
  { destruct (Z.eq_dec m 0) as [->|Hne]; [reflexivity|].
    apply Z.log2_lt_pow2; lia. }
  assert (Hpos : 0 < Z.lor 0x8000 m).
  { destruct (Z.eq_dec (Z.lor 0x8000 m) 0) as [E|E]; [|lia].
    rewrite E in Hlog. simpl in Hlog. lia. }
  split.
  - pose proof (Z.log2_spec _ Hpos) as [Hlo _].
    assert (2 ^ 15 <= 2 ^ Z.log2 (Z.lor 32768 m))
      by (apply Z.pow_le_mono_r; lia).
    change 32768 with (2 ^ 15) at 1. lia.
  - assert (Z.lor 32768 m < 2 ^ 16) by (apply Z.log2_lt_pow2; lia).
    change 65535 with (2 ^ 16 - 1). lia.
Qed.

Lemma tryPort_candidatePort (ip : IP) (k : Z) :
  tryPort ip k = candidatePort ip k.
Proof.
  unfold tryPort, candidatePort, hashData, As16, bigEndian64.
  cbn [seq map app length drop Nat.sub].
  change (Z.shiftl 32 10) with 32768.
  change 65535 with (Z.ones 16).
  rewrite Z.land_ones by lia. reflexivity.
Qed.

Lemma candidatePort_range (ip : IP) (k : Z) :
  0x8000 <= candidatePort ip k <= 0xFFFF.
Proof.
  unfold candidatePort, As16, bigEndian64.
  cbn [seq map app length drop].
  apply lor_high_bit.
  change 65535 with (Z.ones 16).
  rewrite Z.land_ones by lia.
  apply Z.mod_pos_bound. lia.
Qed.

(** The loop passes over the attempts that fail. *)
Lemma listen_loop_skip env net host ip (n : nat) :
  forall (fuel : nat) (try : Z),
    0 <= try -> try + Z.of_nat n <= 5 -> (n <= fuel)%nat ->
    (forall j, try <= j < try + Z.of_nat n ->
       snd (lc_Listen env net
              (Net.JoinHostPort host (Strconv.Itoa (tryPort ip j)))) <> None) ->
    listen_loop fuel try env net host ip =
    listen_loop (fuel - n) (try + Z.of_nat n) env net host ip.
Proof.
  induction n as [|n IH]; intros fuel try H0 H5 Hf Hfail.
  - rewrite Nat.sub_0_r, Z.add_0_r. reflexivity.
  - destruct fuel as [|fuel]; [lia|].
    cbn [listen_loop].
    destruct (Z.ltb_spec try 5) as [_|Hge]; [|lia].
    specialize (Hfail try ltac:(lia)) as Hnow.
    destruct (lc_Listen env net
                (Net.JoinHostPort host (Strconv.Itoa (tryPort ip try))))
      as [ln [e|]]; [|now elim Hnow].
    rewrite (IH fuel (try + 1)); try lia.
    + replace (try + 1 + Z.of_nat n) with (try + Z.of_nat (S n)) by lia.
      reflexivity.
    + intros j Hj. apply Hfail. lia.
Qed.

Lemma listen_unfold env s ip :
  hookOk env s ip ->
  listen env s ip =
  match listen_loop 6 0 env (bindNetwork ip) (bindHost env ip) ip with
  | Some ln => (ln, None)
  | None => lc_Listen env (bindNetwork ip) (Net.JoinHostPort (bindHost env ip) "0")
  end.
Proof.
  unfold hookOk, listen, bindHost, bindNetwork.
  destruct (initListenConfig env) as [init|].
  - intros ->. destruct (IsNetstack env); reflexivity.
  - intros _. destruct (IsNetstack env); reflexivity.
Qed.

(** C4.  The port that [listen] tries at attempt [k] is the candidate
    port of the specification and lies between 0x8000 and 0xFFFF; [listen]
    returns the listener of the first of the five attempts that binds; and
    when all five fail it asks for the port 0, which the system assigns. *)
Theorem listen_candidate_ports env s ip :
  (forall k, tryPort ip k = candidatePort ip k /\
             0x8000 <= candidatePort ip k <= 0xFFFF) /\
  (hookOk env s ip ->
   forall k, 0 <= k < 5 ->
     (forall j, 0 <= j < k ->
        snd (lc_Listen env (bindNetwork ip) (candidateAddr env ip j)) <> None) ->
     snd (lc_Listen env (bindNetwork ip) (candidateAddr env ip k)) = None ->
     listen env s ip =
     (fst (lc_Listen env (bindNetwork ip) (candidateAddr env ip k)), None)) /\
  (hookOk env s ip ->
   (forall j, 0 <= j < 5 ->
      snd (lc_Listen env (bindNetwork ip) (candidateAddr env ip j)) <> None) ->
   listen env s ip =
   lc_Listen env (bindNetwork ip) (Net.JoinHostPort (bindHost env ip) "0")).
Proof.
  split; [intros k; split;
          [apply tryPort_candidatePort | apply candidatePort_range]|].
  unfold candidateAddr. split.
  - intros Hook k Hk Hfail Hok.
    rewrite (listen_unfold _ _ _ Hook).
    rewrite (listen_loop_skip env (bindNetwork ip) (bindHost env ip) ip
               (Z.to_nat k) 6 0); try lia.
    + rewrite Z.add_0_l, Z2Nat.id by lia.
      destruct (6 - Z.to_nat k)%nat as [|fuel] eqn:Hfuel; [lia|].
      cbn [listen_loop].
      destruct (Z.ltb_spec k 5) as [_|Hge]; [|lia].
      rewrite tryPort_candidatePort.
      destruct (lc_Listen env (bindNetwork ip)
                  (Net.JoinHostPort (bindHost env ip)
                     (Strconv.Itoa (candidatePort ip k)))) as [ln [e|]];
        [discriminate | reflexivity].
    + intros j Hj. rewrite tryPort_candidatePort. apply Hfail. lia.
  - intros Hook Hfail.
    rewrite (listen_unfold _ _ _ Hook).
    rewrite (listen_loop_skip env (bindNetwork ip) (bindHost env ip) ip
               5%nat 6 0); try lia.
    + reflexivity.
    + intros j Hj. rewrite tryPort_candidatePort. apply Hfail. lia.
Qed.

(** ** The staging store *)

Lemma isWaiting_spec (de : DirEntry) :
  isWaiting de = true <->
  de_IsRegular de = true /\
  GoStrings.HasSuffix (de_Name de) partialSuffix = false.
Proof.
  unfold isWaiting.
  destruct (GoStrings.HasSuffix (de_Name de) partialSuffix); split.
  - discriminate.
  - intros [_ H]; discriminate.
  - intros H; split; [exact H | reflexivity].
  - intros [H _]; exact H.
Qed.

Lemma hasFilesWaiting_loop_result rs last w :
  fst (hasFilesWaiting_loop rs last w) = existsb isWaiting (concat rs ++ fst last).
Proof.
  induction rs as [|des rest IH]; simpl.
  - destruct last as [des err]. simpl.
    destruct (existsb isWaiting des); reflexivity.
  - rewrite <- app_assoc, existsb_app.
    destruct (existsb isWaiting des); [reflexivity | exact IH].
Qed.

(** The scan changes the world only by setting the cache, and only after
    a last read that ended with [EOF] and entries none of which waits. *)
Lemma hasFilesWaiting_loop_world rs last w :
  snd (hasFilesWaiting_loop rs last w) = w \/
  (snd (hasFilesWaiting_loop rs last w) = setKnownEmpty true w /\
   snd last = EOF /\
   existsb isWaiting (concat rs ++ fst last) = false).
Proof.
  induction rs as [|des rest IH]; simpl.
  - destruct last as [des err]. simpl.
    destruct (existsb isWaiting des) eqn:E; [left; reflexivity|].
    destruct err; simpl; auto.
  - rewrite <- app_assoc, existsb_app.
    destruct (existsb isWaiting des) eqn:E; [left; reflexivity|]. exact IH.
Qed.

Lemma os_OpenDir_shape n dir w :
  (exists f, os_OpenDir n dir w = (Some f, None)) \/
  (exists e, os_OpenDir n dir w = (None, Some e)).
Proof.
  unfold os_OpenDir.
  destruct (fs w !! resolve dir) as [[d|sz]|]; eauto.
Qed.

(** C7.  [hasFilesWaiting] answers false, and changes nothing, when no
    root is configured, in direct mode, and when the negative-empty cache
    is set, whatever the directory holds; it answers false when the root
    cannot be opened; otherwise it answers true exactly when the scan came
    upon a regular file whose name does not end in [.partial]. *)
Theorem hasFilesWaiting_spec (s : peerAPIServer) (w : World) :
  (rootDir s = EmptyString \/ directFileMode s = true \/ knownEmpty w = true ->
   hasFilesWaiting s w = (false, w)) /\
  (snd (os_OpenDir 10 (rootDir s) w) <> None ->
   hasFilesWaiting s w = (false, w)) /\
  (rootDir s <> EmptyString -> directFileMode s = false ->
   knownEmpty w = false ->
   forall f, os_OpenDir 10 (rootDir s) w = (Some f, None) ->
     (fst (hasFilesWaiting s w) = true <->
      exists de, In de (scanned f) /\ de_IsRegular de = true /\
                 GoStrings.HasSuffix (de_Name de) partialSuffix = false)).
Proof.
  unfold hasFilesWaiting. split; [|split].
  - intros [H|[H|H]].
    + rewrite H. reflexivity.
    + rewrite H, orb_true_r. reflexivity.
    + rewrite H. destruct (String.eqb (rootDir s) EmptyString || directFileMode s);
        reflexivity.
  - intros Herr.
    destruct (String.eqb (rootDir s) EmptyString || directFileMode s);
      [reflexivity|].
    destruct (knownEmpty w); [reflexivity|].
    destruct (os_OpenDir_shape 10 (rootDir s) w) as [[f E]|[e E]];
      rewrite E in *; [now elim Herr | reflexivity].
  - intros Hroot Hdirect Hknown f Hopen.
    apply String.eqb_neq in Hroot. rewrite Hroot, Hdirect, Hknown, Hopen.
    simpl orb. cbv iota.
    rewrite hasFilesWaiting_loop_result. fold (scanned f).
    rewrite existsb_exists. split.
    + intros (de & Hin & Hw). apply isWaiting_spec in Hw.
      exists de. tauto.
    + intros (de & Hin & Hreg & Hsuf). exists de.
      split; [exact Hin | apply isWaiting_spec; tauto].
Qed.

Lemma concat_batches (n : nat) (l : list DirEntry) :
  (0 < n)%nat ->
  forall fuel, (length l <= fuel)%nat -> concat (batches fuel n l) = l.
Proof.
  intros Hn fuel. revert l.
  induction fuel as [|fuel IH]; intros l Hl.
  - destruct l; [reflexivity | simpl in Hl; lia].
  - destruct l as [|x l]; [reflexivity|].
    cbn [batches concat].
    rewrite IH.
    + apply take_drop.
    + rewrite length_drop. simpl in *. lia.
Qed.

(** What an open directory shows when it is read to its end. *)
Lemma os_OpenDir_EOF dir w f :
  os_OpenDir 10 dir w = (Some f, None) ->
  snd (lastRead f) = EOF ->
  (exists sz, fs w !! resolve dir = Some (Directory sz)) /\
  scanned f = listing (fs w) dir.
Proof.
  unfold os_OpenDir, readDirStream, scanned.
  destruct (fs w !! resolve dir) as [[d|sz]|]; try discriminate.
  - intros H; inversion H; subst; simpl. discriminate.
  - destruct (readdirFault (faults w)) as [k|].
    + destruct (k <? length (batches (length (listing (fs w) dir)) 10
                                      (listing (fs w) dir)))%nat;
        intros H; inversion H; subst; simpl; [discriminate|].
      intros _. split; [eauto|].
      rewrite app_nil_r. apply concat_batches; lia.
    + intros H; inversion H; subst; simpl.
      intros _. split; [eauto|].
      rewrite app_nil_r. apply concat_batches; lia.
Qed.

Lemma hasFilesWaiting_knownEmpty s w :
  knownEmpty w = false ->
  knownEmpty (snd (hasFilesWaiting s w)) = true ->
  observedEmpty s w.
Proof.
  unfold hasFilesWaiting. intros Hk.
  destruct (String.eqb (rootDir s) EmptyString || directFileMode s);
    [simpl; congruence|].
  rewrite Hk.
  destruct (os_OpenDir_shape 10 (rootDir s) w) as [[f E]|[e E]]; rewrite E;
    [|simpl; congruence].
  destruct (hasFilesWaiting_loop_world (reads f) (lastRead f) w)
    as [->|(-> & Heof & Hnone)]; [congruence|].
  intros _.
  destruct (os_OpenDir_EOF _ _ _ E Heof) as (Hdir & Hscan).
  split; [exact Hdir|].
  intros de Hin. fold (scanned f) in Hnone. rewrite Hscan in Hnone.
  destruct (isWaiting de) eqn:Hw; [|reflexivity].
  assert (existsb isWaiting (listing (fs w) (rootDir s)) = true)
    by (apply existsb_exists; eauto).
  congruence.
Qed.

Lemma WaitingFiles_world s w : snd (WaitingFiles s w) = w.
Proof.
  unfold WaitingFiles.
  destruct (String.eqb (rootDir s) EmptyString); [reflexivity|].
  destruct (directFileMode s); [reflexivity|].
  destruct (os_OpenDir 10 (rootDir s) w) as [[f|] [e|]]; reflexivity.
Qed.

Lemma DeleteFile_loop_knownEmpty fuel :
  forall n path t0 w,
    knownEmpty (snd (DeleteFile_loop fuel n path t0 w)) = knownEmpty w.
Proof.
  induction fuel as [|fuel IH]; intros n path t0 w; [reflexivity|].
  cbn [DeleteFile_loop].
  destruct (os_Remove path w) as [err w1] eqn:Hr.
  apply os_Remove_props in Hr. destruct Hr as (R1 & _).
  destruct err as [e|]; [|exact R1].
  destruct (IsNotExist e); simpl negb; cbv iota; [exact R1|].
  destruct (String.eqb GOOS "windows" && (now w1 - t0 <? 10 * Second));
    [|exact R1].
  unfold BackOff. rewrite IH. exact R1.
Qed.

Lemma backoffDelay_min (n : Z) :
  1 <= n -> 10 * Millisecond <= backoffDelay (1 * Second) n.
Proof.
  intros Hn. unfold backoffDelay.
  assert (0 < 2 ^ (n - 1)) by (apply Z.pow_pos_nonneg; lia).
  apply Z.min_glb; [|unfold Millisecond, Second; lia].
  unfold Millisecond. nia.
Qed.

Lemma os_Remove_error p w e w1 :
  os_Remove p w = (Some e, w1) -> exists errno, e = PathError "remove" p errno.
Proof.
  unfold os_Remove.
  destruct (fs w !! resolve p) as [[d|sz]|];
    [destruct (removeBusy (faults w)) | destruct (removeBusy (faults w)) |];
    try destruct (hasChildren (fs w) (resolve p));
    intros H; inversion H; subst; eauto.
Qed.

(** The loop does not run out of fuel: a turn is repeated before the
    ten seconds are over, and then 10 ms or more are slept. *)
Lemma DeleteFile_loop_enough fuel :
  forall n path t0 w,
    0 <= n ->
    10 * Second - (now w - t0) <= Z.of_nat fuel * (10 * Millisecond) ->
    fst (DeleteFile_loop (S fuel) n path t0 w)
    <> Some (errorString "unreachable").
Proof.
  induction fuel as [|fuel IH]; intros n path t0 w Hn Hfuel;
    cbn [DeleteFile_loop];
    destruct (os_Remove path w) as [err w1] eqn:Hr;
    pose proof Hr as Hr';
    apply os_Remove_props in Hr; destruct Hr as (_ & _ & (_ & Hnow) & _);
    (destruct err as [e|]; [|discriminate]);
    apply os_Remove_error in Hr'; destruct Hr' as (errno & ->);
    (destruct (IsNotExist (PathError "remove" path errno));
     simpl negb; cbv iota; [discriminate|]).
  - destruct (Z.ltb_spec (now w1 - t0) (10 * Second)) as [Hlt|Hge].
    + exfalso. simpl in Hfuel. lia.
    + rewrite andb_false_r. discriminate.
  - destruct (String.eqb GOOS "windows" && (now w1 - t0 <? 10 * Second)).
    + unfold BackOff. apply IH; [lia|].
      pose proof (backoffDelay_min (n + 1) ltac:(lia)) as Hd.
      cbn [now sleep]. lia.
    + discriminate.
Qed.

(** [DeleteFile] always ends with the result of one of its returns. *)
Lemma DeleteFile_ends s n w :
  fst (DeleteFile s n w) <> Some (errorString "unreachable").
Proof.
  unfold DeleteFile.
  destruct (String.eqb (rootDir s) EmptyString); [discriminate|].
  destruct (directFileMode s); [discriminate|].
  destruct (diskPath s n) as [path ok].
  destruct ok; simpl negb; cbv iota; [|discriminate].
  change 1001%nat with (S 1000).
  apply DeleteFile_loop_enough; [lia|].
  unfold Second, Millisecond. lia.
Qed.

Lemma DeleteFile_knownEmpty s n w :
  knownEmpty (snd (DeleteFile s n w)) = knownEmpty w.
Proof.
  unfold DeleteFile.
  destruct (String.eqb (rootDir s) EmptyString); [reflexivity|].
  destruct (directFileMode s); [reflexivity|].
  destruct (diskPath s n) as [path ok].
  destruct ok; simpl negb; cbv iota; [|reflexivity].
  apply DeleteFile_loop_knownEmpty.
Qed.

(** ** The order of the rejections *)

Lemma prefix_split (pre s : string) :
  String.prefix pre s = true -> s = pre +:+ dropS (String.length pre) s.
Proof.
  revert s. induction pre as [|a pre IH]; intros s; [reflexivity|].
  destruct s as [|b s]; simpl; [discriminate|].
  destruct (ascii_dec a b) as [->|]; [|discriminate].
  intros H. rewrite append_String. f_equal. apply IH. exact H.
Qed.

(** The checks of [handlePeerPut], one after the other. *)
Lemma handlePeerPut_rejections (h : peerAPIHandler) (r : Request) (w : World) :
  let rawPath := URL_EscapedPath r in
  let suffix := GoStrings.TrimPrefix rawPath "/v0/put/" in
  (isSelf h = false ->
   handlePeerPut h r w = (http_Error "not owner" 403, w)) /\
  (isSelf h = true ->
   (hasCapFileSharing w = false ->
    handlePeerPut h r w =
      (http_Error "file sharing not enabled by Tailscale admin" 403, w)) /\
   (hasCapFileSharing w = true ->
    (Method r <> "PUT" ->
     handlePeerPut h r w = (http_Error "expected method PUT" 405, w)) /\
    (Method r = "PUT" ->
     (rootDir (ps h) = EmptyString ->
      handlePeerPut h r w = (http_Error "no rootdir" 500, w)) /\
     (rootDir (ps h) <> EmptyString ->
      (GoStrings.HasPrefix rawPath "/v0/put/" = false ->
       handlePeerPut h r w = (http_Error "misconfigured internals" 500, w)) /\
      (GoStrings.HasPrefix rawPath "/v0/put/" = true ->
       (suffix = EmptyString ->
        handlePeerPut h r w = (http_Error "empty filename" 400, w)) /\
       (suffix <> EmptyString ->
        (GoStrings.Contains suffix "/" = true ->
         handlePeerPut h r w = (http_Error "directories not supported" 400, w)) /\
        (GoStrings.Contains suffix "/" = false ->
         (Url.PathUnescape suffix = None ->
          handlePeerPut h r w = (http_Error "bad path encoding" 400, w)) /\
         (forall baseName,
            Url.PathUnescape suffix = Some baseName ->
            snd (diskPath (ps h) baseName) = false ->
            handlePeerPut h r w = (http_Error "bad filename" 400, w))))))))).
Proof.
  cbv zeta. unfold handlePeerPut.
  split; [intros ->; reflexivity|].
  intros ->. simpl negb. cbv iota.
  split; [intros ->; reflexivity|].
  intros ->. simpl negb. cbv iota.
  split; [intros Hm; apply String.eqb_neq in Hm; rewrite Hm; reflexivity|].
  intros ->. simpl negb. cbv iota.
  split; [intros ->; reflexivity|].
  intros Hroot. apply String.eqb_neq in Hroot. rewrite Hroot.
  split.
  { intros Hp. apply TrimPrefix_same_iff in Hp. rewrite Hp.
    rewrite String.eqb_refl. reflexivity. }
  intros Hp.
  destruct (String.eqb_spec (GoStrings.TrimPrefix (URL_EscapedPath r) "/v0/put/")
                            (URL_EscapedPath r)) as [Heq|_].
  { apply TrimPrefix_same_iff in Heq. congruence. }
  split; [intros ->; reflexivity|].
  intros Hne. apply String.eqb_neq in Hne. rewrite Hne.
  split; [intros ->; reflexivity|].
  intros ->.
  split; [intros ->; reflexivity|].
  intros baseName -> Hgate.
  destruct (diskPath (ps h) baseName) as [p ok]. simpl in Hgate. subst ok.
  reflexivity.
Qed.

(** C6.  [handlePeerPut] rejects in this order, each time leaving the
    world as it was: 403 for a peer that is not the owner; 403 when file
    sharing is off; 405 for a method other than PUT; 500 without a root;
    500 when the prefix is missing from the escaped path; 400 for an empty
    suffix; 400 for a suffix, still escaped, with a slash; 400 for a
    suffix that does not unescape; 400 for a name that the gate rejects.
    A check is reached only when all the checks before it passed. *)
Theorem handlePeerPut_rejection_order (h : peerAPIHandler) (r : Request) (w : World) :
  let rawPath := URL_EscapedPath r in
  let suffix := GoStrings.TrimPrefix rawPath "/v0/put/" in
  (isSelf h = false ->
   handlePeerPut h r w = (http_Error "not owner" 403, w)) /\
  (isSelf h = true ->
   (hasCapFileSharing w = false ->
    handlePeerPut h r w =
      (http_Error "file sharing not enabled by Tailscale admin" 403, w)) /\
   (hasCapFileSharing w = true ->
    (Method r <> "PUT" ->
     handlePeerPut h r w = (http_Error "expected method PUT" 405, w)) /\
    (Method r = "PUT" ->
     (rootDir (ps h) = EmptyString ->
      handlePeerPut h r w = (http_Error "no rootdir" 500, w)) /\
     (rootDir (ps h) <> EmptyString ->
      (GoStrings.HasPrefix rawPath "/v0/put/" = false ->
       handlePeerPut h r w = (http_Error "misconfigured internals" 500, w)) /\
      (GoStrings.HasPrefix rawPath "/v0/put/" = true ->
       (suffix = EmptyString ->
        handlePeerPut h r w = (http_Error "empty filename" 400, w)) /\
       (suffix <> EmptyString ->
        (GoStrings.Contains suffix "/" = true ->
         handlePeerPut h r w = (http_Error "directories not supported" 400, w)) /\
        (GoStrings.Contains suffix "/" = false ->
         (Url.PathUnescape suffix = None ->
          handlePeerPut h r w = (http_Error "bad path encoding" 400, w)) /\
         (forall baseName,
            Url.PathUnescape suffix = Some baseName ->
            snd (diskPath (ps h) baseName) = false ->
            handlePeerPut h r w = (http_Error "bad filename" 400, w))))))))).
Proof. apply handlePeerPut_rejections. Qed.

(** A request is rejected by a check, with the world as it was, or it
    passes all the checks. *)
Lemma handlePeerPut_cases h r w :
  (exists resp, handlePeerPut h r w = (resp, w) /\ status resp <> StatusOK) \/
  (exists baseName dstFile, putAccepts h r w baseName dstFile).
Proof.
  pose proof (handlePeerPut_rejections h r w) as H. cbv zeta in H.
  destruct H as (H1 & H).
  destruct (isSelf h) eqn:Hself; [|left; eexists; split; [apply H1; reflexivity|discriminate]].
  destruct (H eq_refl) as (H2 & H'). clear H H1.
  destruct (hasCapFileSharing w) eqn:Hcap;
    [|left; eexists; split; [apply H2; reflexivity|discriminate]].
  destruct (H' eq_refl) as (H3 & H). clear H' H2.
  destruct (String.eqb_spec (Method r) "PUT") as [Hm|Hm];
    [|left; eexists; split; [apply H3; exact Hm|discriminate]].
  destruct (H Hm) as (H4 & H'). clear H H3.
  destruct (String.eqb_spec (rootDir (ps h)) EmptyString) as [Hr|Hr];
    [left; eexists; split; [apply H4; exact Hr|discriminate]|].
  destruct (H' Hr) as (H5 & H). clear H' H4.
  destruct (GoStrings.HasPrefix (URL_EscapedPath r) "/v0/put/") eqn:Hp;
    [|left; eexists; split; [apply H5; reflexivity|discriminate]].
  destruct (H eq_refl) as (H6 & H'). clear H H5.
  destruct (String.eqb_spec (GoStrings.TrimPrefix (URL_EscapedPath r) "/v0/put/")
                            EmptyString) as [Hs|Hs];
    [left; eexists; split; [apply H6; exact Hs|discriminate]|].
  destruct (H' Hs) as (H7 & H). clear H' H6.
  destruct (GoStrings.Contains (GoStrings.TrimPrefix (URL_EscapedPath r) "/v0/put/") "/")
    eqn:Hc; [left; eexists; split; [apply H7; reflexivity|discriminate]|].
  destruct (H eq_refl) as (H8 & H9). clear H H7.
  destruct (Url.PathUnescape (GoStrings.TrimPrefix (URL_EscapedPath r) "/v0/put/"))
    as [baseName|] eqn:Hu;
    [|left; eexists; split; [apply H8; reflexivity|discriminate]].
  destruct (diskPath (ps h) baseName) as [p ok] eqn:Hd.
  destruct ok;
    [|left; eexists; split;
      [apply (H9 baseName eq_refl); rewrite Hd; reflexivity|discriminate]].
  right. exists baseName.
  exists (if directFileMode (ps h) then p +:+ partialSuffix else p).
  repeat (split; [assumption|]).
  exists (GoStrings.TrimPrefix (URL_EscapedPath r) "/v0/put/"), p.
  split.
  { unfold GoStrings.TrimPrefix. rewrite Hp.
    apply prefix_split. exact Hp. }
  repeat (split; [assumption|]). reflexivity.
Qed.

(** ** The negative-empty cache *)

Lemma handlePeerPut_knownEmpty h r w :
  (status (fst (handlePeerPut h r w)) = StatusOK ->
   knownEmpty (snd (handlePeerPut h r w)) = false) /\
  (knownEmpty (snd (handlePeerPut h r w)) = true -> knownEmpty w = true).
Proof.
  destruct (handlePeerPut_cases h r w) as [(resp & E & Hst)|(bn & dst & Hacc)].
  - rewrite E. simpl. split; [intros H; now elim Hst | auto].
  - destruct (handlePeerPut h r w) as [resp w'] eqn:Hrun. simpl.
    destruct (Z.eq_dec (status resp) StatusOK) as [Hok|Hno].
    + assert (Hk : knownEmpty w' = false).
      { rewrite (handlePeerPut_accepted _ _ _ _ _ Hacc) in Hrun.
        destruct (os_Create dst w) as [[e|] w1]; [inversion Hrun; subst; discriminate|].
        destruct (putTransfer h r bn dst w1) as [[resp0 success] w2] eqn:Ht.
        apply putTransfer_props in Ht. destruct Ht as (Hf & Hs).
        inversion Hrun; subst resp0 w'; clear Hrun.
        destruct success.
        - destruct (Hs eq_refl) as (_ & Hk & _). exact Hk.
        - destruct (Hf eq_refl) as (H500 & _). rewrite H500 in Hok. discriminate. }
      split; [intros _; exact Hk | congruence].
    + destruct (put_failure_props _ _ _ _ _ _ _ Hacc Hrun Hno) as (_ & Hk & _).
      split; [intros H; now elim Hno | congruence].
Qed.

Lemma ServeHTTP_knownEmpty h r w :
  knownEmpty (snd (ServeHTTP h r w)) = true -> knownEmpty w = true.
Proof.
  unfold ServeHTTP.
  destruct (GoStrings.HasPrefix (URL_Path r) "/v0/put/"); [|auto].
  apply handlePeerPut_knownEmpty.
Qed.

(** C5.  Of all the operations of the server only [hasFilesWaiting]
    takes the negative-empty cache from false to true, and only when it
    opened the staging directory, read it to its end and saw it empty of
    waiting files: no entry is a regular file whose name does not end in
    [.partial].  Every upload that is answered with 200 leaves the cache
    false. *)
Theorem knownEmpty_transitions (s : peerAPIServer) (w : World) :
  (forall op,
     knownEmpty w = false -> knownEmpty (runOp s op w) = true ->
     op = OpHasFilesWaiting /\ observedEmpty s w) /\
  (forall h r,
     GoStrings.HasPrefix (URL_Path r) "/v0/put/" = true ->
     status (fst (ServeHTTP h r w)) = StatusOK ->
     knownEmpty (snd (ServeHTTP h r w)) = false).
Proof.
  split.
  - intros op Hk Hk'. destruct op as [| |n|n|h r]; simpl in Hk'.
    + split; [reflexivity|]. apply hasFilesWaiting_knownEmpty; assumption.
    + rewrite WaitingFiles_world in Hk'. congruence.
    + rewrite DeleteFile_knownEmpty in Hk'. congruence.
    + congruence.
    + apply ServeHTTP_knownEmpty in Hk'. congruence.
  - intros h r Hp. unfold ServeHTTP. rewrite Hp.
    apply handlePeerPut_knownEmpty.
Qed.

(** C8.  With a root configured and outside direct mode, [DeleteFile] of
    an accepted name at whose path there is nothing returns no error and
    leaves the world, the files and the negative-empty cache with it, as
    it was. *)
Theorem DeleteFile_nonexistent (s : peerAPIServer) (n p : string) (w : World) :
  rootDir s <> EmptyString ->
  directFileMode s = false ->
  diskPath s n = (p, true) ->
  fs w !! resolve p = None ->
  DeleteFile s n w = (None, w).
Proof.
  intros Hroot Hdirect Hdisk Hnone.
  unfold DeleteFile. apply String.eqb_neq in Hroot.
  rewrite Hroot, Hdirect, Hdisk. simpl negb. cbv iota.
  change 1001%nat with (S 1000).
  cbn [DeleteFile_loop]. unfold os_Remove. rewrite Hnone. reflexivity.
Qed.

(** ** The greeting *)

Lemma append_Empty_r (s : string) : s +:+ EmptyString = s.
Proof.
  induction s as [|c s IH]; [reflexivity|].
  rewrite append_String. now rewrite IH.
Qed.

Lemma append_assoc (a b c : string) : (a +:+ b) +:+ c = a +:+ (b +:+ c).
Proof.
  induction a as [|x a IH]; [reflexivity|].
  rewrite !append_String. now rewrite IH.
Qed.

Lemma hasChar_append a x y : hasChar a (x +:+ y) = hasChar a x || hasChar a y.
Proof.
  induction x as [|c x IH]; [reflexivity|].
  rewrite append_String. simpl. rewrite IH. now rewrite orb_assoc.
Qed.

Lemma safe_append a1 a2 x y : safe a1 a2 x -> safe a1 a2 y -> safe a1 a2 (x +:+ y).
Proof.
  intros Hx [Hy1 Hy2]. induction x as [|c t IH].
  - rewrite append_Empty. split; assumption.
  - destruct Hx as [Hx1 Hx2]. rewrite append_String.
    destruct t as [|d t'].
    + rewrite append_Empty. simpl in Hx2. split.
      * cbn [pairIn]. rewrite Hx2. exact Hy1.
      * destruct y as [|e y']; [exact Hx2 | exact Hy2].
    + simpl in Hx1, Hx2. apply orb_false_iff in Hx1. destruct Hx1 as [Hh Ht].
      assert (IHt : safe a1 a2 (String d t' +:+ y)).
      { apply IH. split; [exact Ht | exact Hx2]. }
      destruct IHt as [I1 I2]. rewrite append_String in I1, I2.
      rewrite append_String. split.
      * change (pairIn a1 a2 (String c (String d (t' +:+ y))))
          with ((Ascii.eqb c a1 && Ascii.eqb d a2)
                || pairIn a1 a2 (String d (t' +:+ y))).
        rewrite Hh, I1. reflexivity.
      * exact I2.
Qed.

Lemma hasChar_safe a1 a2 s : hasChar a1 s = false -> safe a1 a2 s.
Proof.
  induction s as [|c t IH]; [split; reflexivity|].
  simpl. intros H. apply orb_false_iff in H. destruct H as [Hc Ht].
  destruct (IH Ht) as [I1 I2]. split.
  - cbn [pairIn]. rewrite Hc, I1. reflexivity.
  - destruct t; [exact Hc | exact I2].
Qed.

Lemma prefix_trans (x y s : string) :
  String.prefix x y = true -> String.prefix y s = true -> String.prefix x s = true.
Proof.
  revert y s. induction x as [|a x IH]; intros y s; [destruct s; reflexivity|].
  destruct y as [|b y]; simpl; [discriminate|].
  destruct (ascii_dec a b) as [->|]; [|discriminate].
  intros Hxy. destruct s as [|c s]; simpl; [discriminate|].
  destruct (ascii_dec b c) as [->|]; [|discriminate].
  apply IH. exact Hxy.
Qed.

Lemma Contains_prefix (x y s : string) :
  String.prefix x y = true ->
  GoStrings.Contains s y = true -> GoStrings.Contains s x = true.
Proof.
  intros Hxy. induction s as [|c s IH]; cbn [GoStrings.Contains].
  - rewrite !orb_false_r. apply prefix_trans. exact Hxy.
  - intros H. apply orb_true_iff in H. apply orb_true_iff.
    destruct H as [H|H]; [left; exact (prefix_trans _ _ _ Hxy H) | right; auto].
Qed.

Lemma Contains_pair a1 a2 s :
  GoStrings.Contains s (String a1 (String a2 EmptyString)) = pairIn a1 a2 s.
Proof.
  induction s as [|c t IH]; [reflexivity|].
  cbn [GoStrings.Contains pairIn]. rewrite IH. f_equal.
  clear IH. destruct t as [|d t']; simpl.
  - rewrite andb_false_r. destruct (ascii_dec a1 c); reflexivity.
  - destruct (ascii_dec a1 c) as [->|Hne].
    + rewrite Ascii.eqb_refl. simpl.
      destruct (ascii_dec a2 d) as [->|Hne].
      * rewrite Ascii.eqb_refl. destruct t'; reflexivity.
      * symmetry. apply Ascii.eqb_neq. congruence.
    + assert (Ascii.eqb c a1 = false) as -> by (apply Ascii.eqb_neq; congruence).
      reflexivity.
Qed.

Lemma prefix_append_l (x a b : string) :
  String.prefix x a = true -> String.prefix x (a +:+ b) = true.
Proof.
  revert a. induction x as [|c x IH]; intros a; [destruct (a +:+ b); reflexivity|].
  destruct a as [|d a]; [discriminate|].
  rewrite append_String. simpl.
  destruct (ascii_dec c d); [apply IH | discriminate].
Qed.

Lemma Contains_append_l (a b x : string) :
  GoStrings.Contains a x = true -> GoStrings.Contains (a +:+ b) x = true.
Proof.
  induction a as [|c a IH].
  - simpl. rewrite orb_false_r. intros H. destruct x; [|discriminate].
    rewrite append_Empty. destruct b; reflexivity.
  - rewrite append_String. cbn [GoStrings.Contains]. intros H.
    apply orb_true_iff in H. apply orb_true_iff. destruct H as [H|H].
    + left. rewrite <- append_String. apply prefix_append_l. exact H.
    + right. auto.
Qed.

Lemma Contains_append_r (a b x : string) :
  GoStrings.Contains b x = true -> GoStrings.Contains (a +:+ b) x = true.
Proof.
  intros H. induction a as [|c a IH]; [exact H|].
  rewrite append_String. cbn [GoStrings.Contains]. rewrite IH. apply orb_true_r.
Qed.

Lemma Contains_self (x : string) : GoStrings.Contains x x = true.
Proof.
  destruct x as [|c x]; [reflexivity|].
  cbn [GoStrings.Contains]. apply orb_true_iff. left.
  rewrite <- (append_Empty_r (String c x)) at 2. apply prefix_append.
Qed.

Lemma chr_byteZ (a : ascii) : chr (byteZ a) = a.
Proof. unfold chr, byteZ. rewrite N2Z.id. apply ascii_N_embedding. Qed.

Lemma escapeByte_hasChar (a c : ascii) :
  In (byteZ a) escapedAway -> hasChar a (Html.escapeByte c) = false.
Proof.
  intros Hin. rewrite <- (chr_byteZ a).
  assert (Hc : Ascii.eqb c (chr (byteZ a)) = true -> byteZ c = byteZ a).
  { intros E. apply Ascii.eqb_eq in E. rewrite E, chr_byteZ. reflexivity. }
  unfold Html.escapeByte.
  destruct (Z.eqb_spec (byteZ c) 38) as [E38|N38];
    [simpl in Hin; intuition; match goal with H : _ = byteZ a |- _ => rewrite <- H end; reflexivity|].
  destruct (Z.eqb_spec (byteZ c) 39) as [E39|N39];
    [simpl in Hin; intuition; match goal with H : _ = byteZ a |- _ => rewrite <- H end; reflexivity|].
  destruct (Z.eqb_spec (byteZ c) 60) as [E60|N60];
    [simpl in Hin; intuition; match goal with H : _ = byteZ a |- _ => rewrite <- H end; reflexivity|].
  destruct (Z.eqb_spec (byteZ c) 62) as [E62|N62];
    [simpl in Hin; intuition; match goal with H : _ = byteZ a |- _ => rewrite <- H end; reflexivity|].
  destruct (Z.eqb_spec (byteZ c) 34) as [E34|N34];
    [simpl in Hin; intuition; match goal with H : _ = byteZ a |- _ => rewrite <- H end; reflexivity|].
  simpl. rewrite orb_false_r.
  destruct (Ascii.eqb c (chr (byteZ a))) eqn:E; [|reflexivity].
  specialize (Hc eq_refl). simpl in Hin. intuition; congruence.
Qed.

Lemma EscapeString_hasChar (a : ascii) (s : string) :
  In (byteZ a) escapedAway -> hasChar a (Html.EscapeString s) = false.
Proof.
  intros Hin. induction s as [|c s IH]; [reflexivity|].
  cbn [Html.EscapeString]. rewrite hasChar_append, IH, escapeByte_hasChar by exact Hin.
  reflexivity.
Qed.

(** The pieces of a page are taken one after the other: a literal is
    checked by computation, an interpolated text holds no less-than sign. *)
Ltac safe_pieces :=
  repeat (apply safe_append;
          [first [ apply hasChar_safe; assumption | split; reflexivity ]|]);
  split; reflexivity.

(** The page has a less-than sign only where the template has one, and
    there neither [A] nor [p] comes after it. *)
Lemma greeting_safe_A (who addr device : string) :
  hasChar "<" who = false -> hasChar "<" addr = false ->
  hasChar "<" device = false ->
  safe "<" "A" (greeting who addr device).
Proof. intros Hwho Haddr Hdev. unfold greeting. safe_pieces. Qed.

Lemma greeting_safe_p (who addr device : string) :
  hasChar "<" who = false -> hasChar "<" addr = false ->
  hasChar "<" device = false ->
  safe "<" "p" (greeting who addr device).
Proof. intros Hwho Haddr Hdev. unfold greeting. safe_pieces. Qed.

Lemma ownerMarker_safe_A : safe "<" "A" ownerMarker.
Proof. split; reflexivity. Qed.

(** A text that [EscapeString] leaves as it is holds no less-than sign. *)
Lemma escaped_no_lt (t : string) :
  Html.EscapeString t = t -> hasChar "<" t = false.
Proof.
  intros H. rewrite <- H. apply EscapeString_hasChar. vm_compute. auto.
Qed.

(** The greeting, for a request outside the upload route. *)
Lemma greeting_props (h : peerAPIHandler) (r : Request) (w : World) :
  GoStrings.HasPrefix (URL_Path r) "/v0/put/" = false ->
  let resp := fst (ServeHTTP h r w) in
  let who := Html.EscapeString (DisplayName (peerUser h)) in
  let device := Html.EscapeString (ComputedName (peerNode h)) in
  let addr := IP_String (IPPort_IP (remoteAddr h)) in
  snd (ServeHTTP h r w) = w /\
  status resp = StatusOK /\
  body resp =
    greeting who addr device +:+ (if isSelf h then ownerMarker else EmptyString) /\
  (forall a, In (byteZ a) escapedAway ->
             hasChar a who = false /\ hasChar a device = false) /\
  (DisplayName (peerUser h) = "<Alice>" ->
   GoStrings.Contains (body resp) "&lt;Alice&gt;" = true) /\
  (Html.EscapeString addr = addr ->
   GoStrings.Contains (body resp) "<Alice>" = false /\
   (GoStrings.Contains (body resp) ownerMarker = true <-> isSelf h = true)).
Proof.
  intros Hp. cbv zeta. unfold ServeHTTP. rewrite Hp. cbn [fst snd status body].
  set (who := Html.EscapeString (DisplayName (peerUser h))).
  set (device := Html.EscapeString (ComputedName (peerNode h))).
  set (addr := IP_String (IPPort_IP (remoteAddr h))).
  assert (Hwho : hasChar "<" who = false)
    by (apply EscapeString_hasChar; vm_compute; auto).
  assert (Hdev : hasChar "<" device = false)
    by (apply EscapeString_hasChar; vm_compute; auto).
  split; [reflexivity|]. split; [reflexivity|].
  split; [destruct (isSelf h); [reflexivity | now rewrite append_Empty_r]|].
  split; [intros a Ha; split; apply EscapeString_hasChar; exact Ha|].
  split.
  - intros Hname.
    assert (Hin : GoStrings.Contains (greeting who addr device) "&lt;Alice&gt;" = true).
    { unfold greeting. do 15 apply Contains_append_r.
      apply Contains_append_l. subst who. rewrite Hname. reflexivity. }
    destruct (isSelf h); [apply Contains_append_l|]; exact Hin.
  - intros Hesc. apply escaped_no_lt in Hesc. rename Hesc into Haddr.
    assert (SA : safe "<" "A" (greeting who addr device))
      by (apply greeting_safe_A; assumption).
    assert (SP : safe "<" "p" (greeting who addr device))
      by (apply greeting_safe_p; assumption).
    split.
    + assert (S : safe "<" "A" (if isSelf h
                                then greeting who addr device +:+ ownerMarker
                                else greeting who addr device)).
      { destruct (isSelf h); [|exact SA].
        apply safe_append; [exact SA | exact ownerMarker_safe_A]. }
      destruct (GoStrings.Contains _ "<Alice>") eqn:E; [|reflexivity].
      apply (Contains_prefix "<A") in E; [|reflexivity].
      rewrite Contains_pair in E. destruct S as [S _]. congruence.
    + destruct (isSelf h).
      * split; [reflexivity|]. intros _.
        apply Contains_append_r. apply Contains_self.
      * split; [|discriminate]. intros E.
        apply (Contains_prefix "<p") in E; [|reflexivity].
        rewrite Contains_pair in E. destruct SP as [S _]. congruence.
Qed.

Lemma addrChar_escapeByte (c : ascii) :
  addrChar c = true -> Html.escapeByte c = String c EmptyString.
Proof.
  unfold addrChar, inRange, Html.escapeByte. intros H.
  destruct (Z.eqb_spec (byteZ c) 38); [exfalso; lia|].
  destruct (Z.eqb_spec (byteZ c) 39); [exfalso; lia|].
  destruct (Z.eqb_spec (byteZ c) 60); [exfalso; lia|].
  destruct (Z.eqb_spec (byteZ c) 62); [exfalso; lia|].
  destruct (Z.eqb_spec (byteZ c) 34); [exfalso; lia|].
  reflexivity.
Qed.

(** The text of an address without a zone is its own escaped form. *)
Lemma plainAddr_escaped (t : string) :
  plainAddr t = true -> Html.EscapeString t = t.
Proof.
  unfold plainAddr. induction t as [|c t IH]; [reflexivity|].
  cbn [list_ascii_of_string forallb Html.EscapeString]. intros H.
  apply andb_true_iff in H. destruct H as (Hc & Ht).
  rewrite (addrChar_escapeByte c Hc), (IH Ht). reflexivity.
Qed.

(** C9, as amended.  A request whose path does not begin with the upload
    prefix, from a peer whose address has no zone, is answered with 200
    and the greeting, and the world is as it was.  Every value that the
    greeting interpolates is HTML-escaped: the peer's display name and the
    computed name of the peer's node are passed through
    [html.EscapeString], and the text of the peer's address, which
    [netaddr.IP.String] makes of hexadecimal digits, dots and colons, is
    its own escaped form; none of them holds a quote, a double quote or an
    angle bracket.  A display name [<Alice>] shows as [&lt;Alice&gt;] and
    [<Alice>] occurs nowhere in the page; the owner marker occurs exactly
    when the peer is the owner. *)
Theorem greeting_escaped (h : peerAPIHandler) (r : Request) (w : World) :
  (forall ip, noZone ip = true -> plainAddr (IP_String ip) = true) ->
  noZone (IPPort_IP (remoteAddr h)) = true ->
  GoStrings.HasPrefix (URL_Path r) "/v0/put/" = false ->
  let resp := fst (ServeHTTP h r w) in
  let who := Html.EscapeString (DisplayName (peerUser h)) in
  let device := Html.EscapeString (ComputedName (peerNode h)) in
  let addr := IP_String (IPPort_IP (remoteAddr h)) in
  snd (ServeHTTP h r w) = w /\
  status resp = StatusOK /\
  body resp =
    greeting who addr device +:+ (if isSelf h then ownerMarker else EmptyString) /\
  Html.EscapeString addr = addr /\
  (forall a, In (byteZ a) escapedAway ->
             hasChar a who = false /\ hasChar a addr = false /\
             hasChar a device = false) /\
  (DisplayName (peerUser h) = "<Alice>" ->
   GoStrings.Contains (body resp) "&lt;Alice&gt;" = true) /\
  GoStrings.Contains (body resp) "<Alice>" = false /\
  (GoStrings.Contains (body resp) ownerMarker = true <-> isSelf h = true).
Proof.
  intros Htext Hzone Hp.
  pose proof (greeting_props h r w Hp) as H. cbv zeta in *.
  destruct H as (H1 & H2 & H3 & H4 & H5 & H6).
  pose proof (plainAddr_escaped _ (Htext _ Hzone)) as Hesc.
  destruct (H6 Hesc) as (H7 & H8).
  split; [exact H1|]. split; [exact H2|]. split; [exact H3|].
  split; [exact Hesc|]. split.
  - intros a Ha. destruct (H4 a Ha) as (A1 & A2).
    split; [exact A1|]. split; [|exact A2].
    rewrite <- Hesc. apply EscapeString_hasChar. exact Ha.
  - split; [exact H5|]. split; [exact H7 | exact H8].
Qed.

(** * More properties of the staging store *)

Lemma WaitingFiles_batch_filter (w : World) (dir : string) (des : list DirEntry) :
  forall ret,
    WaitingFiles_batch w dir des ret
    = ret ++ map waitingOf (List.filter (listed w dir) des).
Proof.
  unfold WaitingFiles_batch.
  induction des as [|de des IH]; intros ret; simpl.
  - now rewrite app_nil_r.
  - rewrite IH. unfold listed, isWaiting, canStat, de_Info.
    destruct (GoStrings.HasSuffix (de_Name de) partialSuffix); [reflexivity|].
    destruct (de_IsRegular de); [|reflexivity].
    destruct (existsb (String.eqb (de_Name de)) (statFault (faults w)));
      [reflexivity|].
    simpl. now rewrite <- app_assoc.
Qed.

(** The loop returns an error exactly when the last read did not end in
    [EOF], and then it returns no entry; otherwise it returns what the
    batches and the last read showed, filtered, in their order. *)
Lemma WaitingFiles_loop_result (w : World) (dir : string)
      (rs : list (list DirEntry)) last :
  forall ret,
    WaitingFiles_loop w dir rs last ret =
    match snd last with
    | EOF =>
      (ret ++ map waitingOf (List.filter (listed w dir) (concat rs ++ fst last)),
       None)
    | e => ([], Some e)
    end.
Proof.
  induction rs as [|des rest IH]; intros ret; simpl.
  - destruct last as [des err]. simpl.
    destruct err; try reflexivity.
    now rewrite WaitingFiles_batch_filter.
  - rewrite IH, WaitingFiles_batch_filter.
    destruct (snd last); try reflexivity.
    rewrite <- (app_assoc des), (List.filter_app _ des), map_app, app_assoc.
    reflexivity.
Qed.

(** X1.  When the staging directory opens and is read to its end,
    [WaitingFiles] returns no error and, in the order of the directory,
    one entry for each regular file whose name does not end in [.partial]
    and whose [Info] succeeds, with the base name and the size of the
    file; an entry whose [Info] fails is left out.  When no [Info] fails,
    these are all the regular files whose name does not end in
    [.partial]. *)
Theorem WaitingFiles_lists_waiting (s : peerAPIServer) (w : World) (f : DirStream) :
  rootDir s <> EmptyString -> directFileMode s = false ->
  os_OpenDir 10 (rootDir s) w = (Some f, None) ->
  snd (lastRead f) = EOF ->
  fst (WaitingFiles s w) =
  (map waitingOf
       (List.filter (listed w (rootDir s)) (listing (fs w) (rootDir s))), None) /\
  (statFault (faults w) = [] ->
   fst (WaitingFiles s w) =
   (map waitingOf (List.filter isWaiting (listing (fs w) (rootDir s))), None)).
Proof.
  intros Hroot Hdirect Hopen Heof.
  assert (Hall : fst (WaitingFiles s w) =
                 (map waitingOf
                      (List.filter (listed w (rootDir s))
                                   (listing (fs w) (rootDir s))), None)).
  { unfold WaitingFiles.
    apply String.eqb_neq in Hroot. rewrite Hroot, Hdirect, Hopen. simpl fst.
    rewrite WaitingFiles_loop_result, Heof. simpl app.
    destruct (os_OpenDir_EOF _ _ _ Hopen Heof) as (_ & Hscan).
    unfold scanned in Hscan. now rewrite Hscan. }
  split; [exact Hall|].
  intros Hnone. rewrite Hall. f_equal. f_equal.
  apply List.filter_ext. intros de.
  unfold listed, canStat, de_Info. rewrite Hnone. simpl.
  apply andb_true_r.
Qed.

(** X2.  [WaitingFiles] changes nothing, and it never returns entries
    together with an error: when a read of the directory fails, the entries
    of the reads before it are dropped. *)
Theorem WaitingFiles_error_no_entries (s : peerAPIServer) (w : World) :
  snd (WaitingFiles s w) = w /\
  (snd (fst (WaitingFiles s w)) = None \/ fst (fst (WaitingFiles s w)) = []).
Proof.
  split; [apply WaitingFiles_world|].
  unfold WaitingFiles.
  destruct (String.eqb (rootDir s) EmptyString); [right; reflexivity|].
  destruct (directFileMode s); [left; reflexivity|].
  destruct (os_OpenDir 10 (rootDir s) w) as [[f|] [e|]]; simpl; auto.
  rewrite WaitingFiles_loop_result.
  destruct (snd (lastRead f)); simpl; auto.
Qed.

Lemma existsb_filter_nil {A : Type} (p : A -> bool) (l : list A) :
  existsb p l = true <-> List.filter p l <> [].
Proof.
  induction l as [|x l IH]; simpl.
  - split; [discriminate | intros H; now elim H].
  - destruct (p x); simpl; [split; [discriminate | reflexivity] | exact IH].
Qed.

(** X3.  The poll and the listing.  With the negative-empty cache not
    set, whenever [WaitingFiles] returns a listing without an error: if the
    listing is not empty, [hasFilesWaiting] answers true; and if
    [hasFilesWaiting] answers true and the [Info] of every waiting entry of
    the directory succeeds, the listing is not empty.  ([hasFilesWaiting]
    does not call [Info]: it answers true also for a file that
    [WaitingFiles] leaves out because its [Info] fails.) *)
Theorem hasFilesWaiting_agrees_WaitingFiles (s : peerAPIServer) (w : World)
        (l : list WaitingFile) :
  knownEmpty w = false ->
  fst (WaitingFiles s w) = (l, None) ->
  (l <> [] -> fst (hasFilesWaiting s w) = true) /\
  ((forall de, In de (listing (fs w) (rootDir s)) -> isWaiting de = true ->
               canStat w (rootDir s) de = true) ->
   fst (hasFilesWaiting s w) = true -> l <> []).
Proof.
  unfold WaitingFiles, hasFilesWaiting. intros Hk.
  destruct (String.eqb (rootDir s) EmptyString); simpl; [discriminate|].
  destruct (directFileMode s); simpl.
  { intros H; inversion H; subst.
    split; [intros H0; now elim H0 | intros _; discriminate]. }
  rewrite Hk.
  destruct (os_OpenDir 10 (rootDir s) w) as [[f|] [e|]] eqn:Hopen; simpl;
    try discriminate.
  - rewrite WaitingFiles_loop_result, hasFilesWaiting_loop_result.
    destruct (snd (lastRead f)) eqn:Heof; try discriminate.
    intros H; inversion H; subst. simpl app. split.
    + intros Hne. apply existsb_exists.
      destruct (List.filter (listed w (rootDir s))
                            (concat (reads f) ++ fst (lastRead f)))
        as [|de rest] eqn:Hf; [now elim Hne|].
      assert (Hin : In de (List.filter (listed w (rootDir s))
                             (concat (reads f) ++ fst (lastRead f))))
        by (rewrite Hf; left; reflexivity).
      apply filter_In in Hin. destruct Hin as (Hin & Hl).
      unfold listed in Hl. apply andb_true_iff in Hl.
      exists de. split; [exact Hin | exact (proj1 Hl)].
    + intros Hstat Hpoll.
      destruct (os_OpenDir_EOF _ _ _ Hopen Heof) as (_ & Hscan).
      unfold scanned in Hscan. rewrite Hscan in *.
      apply existsb_exists in Hpoll. destruct Hpoll as (de & Hin & Hw).
      intros Hnil. apply map_eq_nil in Hnil.
      assert (Hl : In de (List.filter (listed w (rootDir s))
                            (listing (fs w) (rootDir s)))).
      { apply filter_In. split; [exact Hin|].
        unfold listed. rewrite Hw, (Hstat de Hin Hw). reflexivity. }
      rewrite Hnil in Hl. destruct Hl.
  - intros H; inversion H; subst.
    split; [intros H0; now elim H0 | intros _; discriminate].
Qed.

(** X25.  Polling again.  A second [hasFilesWaiting] right after a
    first gives the answer of the first and leaves the state as the first
    left it: the negative-empty cache, once set, gives the answer that the
    scan gave. *)
Theorem hasFilesWaiting_twice (s : peerAPIServer) (w : World) :
  hasFilesWaiting s (snd (hasFilesWaiting s w)) = hasFilesWaiting s w.
Proof.
  unfold hasFilesWaiting.
  destruct (String.eqb (rootDir s) EmptyString || directFileMode s);
    [reflexivity|].
  destruct (knownEmpty w) eqn:Hk; [simpl; rewrite Hk; reflexivity|].
  destruct (os_OpenDir 10 (rootDir s) w) as [[f|] [e|]] eqn:Hopen;
    try (simpl; rewrite Hk, Hopen; reflexivity).
  pose proof (hasFilesWaiting_loop_result (reads f) (lastRead f) w) as Hres.
  destruct (hasFilesWaiting_loop_world (reads f) (lastRead f) w)
    as [Hw|(Hw & _ & Hnone)].
  - rewrite Hw, Hk, Hopen. reflexivity.
  - rewrite Hnone in Hres.
    destruct (hasFilesWaiting_loop (reads f) (lastRead f) w) as [b w1].
    simpl in Hw, Hres. subst b w1. reflexivity.
Qed.

(** ** Deleting *)

Lemma os_Remove_fs p w err w1 :
  os_Remove p w = (err, w1) ->
  capFileSharing w1 = capFileSharing w /\
  match err with
  | None => fs w1 = delete (resolve p) (fs w)
  | Some e =>
    fs w1 = fs w /\ (IsNotExist e = true -> fs w !! resolve p = None)
  end.
Proof.
  unfold os_Remove.
  destruct (fs w !! resolve p) as [nd|] eqn:Hl.
  - destruct (removeBusy (faults w)) as [|d rest].
    + destruct nd as [d0|sz].
      * intros H; inversion H; subst; simpl. split; reflexivity.
      * destruct (hasChildren (fs w) (resolve p));
          intros H; inversion H; subst; simpl; repeat split; discriminate.
    + intros H; inversion H; subst; simpl. repeat split; discriminate.
  - intros H; inversion H; subst. repeat split; auto.
Qed.

(** The retry loop: what a turn that ends it leaves. *)
Lemma DeleteFile_loop_post fuel :
  forall n path t0 w,
    let r := DeleteFile_loop fuel n path t0 w in
    events (snd r) = events w /\ incomingFiles (snd r) = incomingFiles w /\
    capFileSharing (snd r) = capFileSharing w /\
    match fst r with
    | None => fs (snd r) = delete (resolve path) (fs w)
    | Some e =>
      fs (snd r) = fs w /\
      (e = errorString "unreachable" \/
       exists errno, e = PathError "remove" "redact" errno /\ errno <> ENOENT)
    end.
Proof.
  induction fuel as [|fuel IH]; intros n path t0 w; cbv zeta.
  { simpl. repeat split. left; reflexivity. }
  cbn [DeleteFile_loop].
  destruct (os_Remove path w) as [err w1] eqn:Hr.
  pose proof (os_Remove_props _ _ _ _ Hr) as (_ & Hev & (Hin & _) & _).
  pose proof (os_Remove_fs _ _ _ _ Hr) as (Hcap & Hfs).
  destruct err as [e|]; [|simpl; repeat split; assumption].
  destruct Hfs as (Hfs & Hne).
  apply os_Remove_error in Hr. destruct Hr as (errno & ->).
  destruct (IsNotExist (PathError "remove" path errno)) eqn:Hnot;
    simpl negb; cbv iota.
  { simpl. repeat split; try assumption.
    rewrite Hfs. symmetry. apply delete_id. apply Hne. reflexivity. }
  destruct (String.eqb GOOS "windows" && (now w1 - t0 <? 10 * Second)).
  - unfold BackOff.
    specialize (IH (n + 1) path t0 (sleep (backoffDelay (1 * Second) (n + 1)) w1)).
    cbv zeta in IH. destruct IH as (I1 & I2 & I3 & I4).
    cbn [events incomingFiles capFileSharing fs sleep] in I1, I2, I3, I4.
    rewrite I1, I2, I3. repeat split; try assumption.
    destruct (fst (DeleteFile_loop fuel (n + 1) path t0
                     (sleep (backoffDelay (1 * Second) (n + 1)) w1))).
    + rewrite <- Hfs. exact I4.
    + rewrite <- Hfs. exact I4.
  - simpl. repeat split; try assumption.
    right. exists errno. split; [reflexivity|].
    intros ->. discriminate.
Qed.

(** X4.  When [DeleteFile] returns no error, the name passed the gate,
    nothing is left at its path and no other file is touched: the files
    are those of before without that path.  The cache, the uploads under
    way and the notifications are as before. *)
Theorem DeleteFile_removes (s : peerAPIServer) (n : string) (w : World) :
  fst (DeleteFile s n w) = None ->
  snd (diskPath s n) = true /\
  fs (snd (DeleteFile s n w)) = delete (resolve (fst (diskPath s n))) (fs w) /\
  knownEmpty (snd (DeleteFile s n w)) = knownEmpty w /\
  incomingFiles (snd (DeleteFile s n w)) = incomingFiles w /\
  events (snd (DeleteFile s n w)) = events w.
Proof.
  intros Hok.
  split; [|split; [|split; [apply DeleteFile_knownEmpty|]]];
    revert Hok; unfold DeleteFile;
    (destruct (String.eqb (rootDir s) EmptyString); [discriminate|]);
    (destruct (directFileMode s); [discriminate|]);
    destruct (diskPath s n) as [path ok];
    (destruct ok; simpl negb; cbv iota; [|discriminate]);
    pose proof (DeleteFile_loop_post 1001 0 path (now w) w) as H;
    cbv zeta in H; destruct H as (H1 & H2 & H3 & H4); intros Hok.
  - reflexivity.
  - rewrite Hok in H4. exact H4.
  - split; assumption.
Qed.

(** X5.  An error of [DeleteFile] never shows the path: it is one of the
    three refusals of the function itself, or the error of [os.Remove]
    with the path replaced by the word redact; a not-exist error of
    [os.Remove] is never returned.  With an error no file has changed. *)
Theorem DeleteFile_error_redacted (s : peerAPIServer) (n : string) (w : World)
        (e : error) :
  fst (DeleteFile s n w) = Some e ->
  (e = errorString "peerapi disabled; no storage configured" \/
   e = errorString "deletes not allowed in direct mode" \/
   e = errorString "bad filename" \/
   exists errno, e = PathError "remove" "redact" errno /\ errno <> ENOENT) /\
  fs (snd (DeleteFile s n w)) = fs w.
Proof.
  pose proof (DeleteFile_ends s n w) as Hends. revert Hends.
  unfold DeleteFile.
  destruct (String.eqb (rootDir s) EmptyString).
  { intros _ H; inversion H; subst. auto. }
  destruct (directFileMode s).
  { intros _ H; inversion H; subst. auto. }
  destruct (diskPath s n) as [path ok].
  destruct ok; simpl negb; cbv iota.
  2:{ intros _ H; inversion H; subst. auto 6. }
  pose proof (DeleteFile_loop_post 1001 0 path (now w) w) as H.
  cbv zeta in H. destruct H as (_ & _ & _ & H4).
  intros Hends He. rewrite He in H4, Hends. destruct H4 as (Hfs & [->|Hred]).
  - now elim Hends.
  - split; [auto 6 | exact Hfs].
Qed.

(** On Windows the loop gives up only after ten seconds. *)
Lemma DeleteFile_loop_windows fuel :
  GOOS = "windows" ->
  forall n path t0 w op p errno,
    fst (DeleteFile_loop fuel n path t0 w) = Some (PathError op p errno) ->
    10 * Second <= now (snd (DeleteFile_loop fuel n path t0 w)) - t0.
Proof.
  intros Hwin.
  induction fuel as [|fuel IH]; intros n path t0 w op p errno; [discriminate|].
  cbn [DeleteFile_loop].
  destruct (os_Remove path w) as [[e|] w1]; [|discriminate].
  destruct (IsNotExist e); simpl negb; cbv iota; [discriminate|].
  rewrite Hwin, String.eqb_refl. simpl andb.
  destruct (Z.ltb_spec (now w1 - t0) (10 * Second)) as [Hlt|Hge].
  - unfold BackOff. apply IH.
  - intros _. simpl. exact Hge.
Qed.

(** X6.  On Windows [DeleteFile] returns the error of a removal that is
    refused only when ten seconds or more have passed since it was called:
    before that it tries again. *)
Theorem DeleteFile_windows_waits (s : peerAPIServer) (n : string) (w : World)
        (op p : string) (errno : Errno) :
  GOOS = "windows" ->
  fst (DeleteFile s n w) = Some (PathError op p errno) ->
  10 * Second <= now (snd (DeleteFile s n w)) - now w.
Proof.
  intros Hwin. unfold DeleteFile.
  destruct (String.eqb (rootDir s) EmptyString); [discriminate|].
  destruct (directFileMode s); [discriminate|].
  destruct (diskPath s n) as [path ok].
  destruct ok; simpl negb; cbv iota; [|discriminate].
  apply DeleteFile_loop_windows. exact Hwin.
Qed.

(** X7.  A file that was deleted cannot be opened: after a [DeleteFile]
    without an error, [OpenFile] of the same name returns a not-exist
    error, and [OpenFile] of a name that is kept at another path returns
    what it returned before. *)
Theorem DeleteFile_then_OpenFile (s : peerAPIServer) (n : string) (w : World) :
  fst (DeleteFile s n w) = None ->
  (exists e, OpenFile s n (snd (DeleteFile s n w)) = (None, 0, Some e) /\
             IsNotExist e = true) /\
  (forall m, resolve (fst (diskPath s m)) <> resolve (fst (diskPath s n)) ->
             OpenFile s m (snd (DeleteFile s n w)) = OpenFile s m w).
Proof.
  intros Hok.
  assert (Hpost : snd (diskPath s n) = true /\
                  fs (snd (DeleteFile s n w))
                  = delete (resolve (fst (diskPath s n))) (fs w)).
  { revert Hok. unfold DeleteFile.
    destruct (String.eqb (rootDir s) EmptyString); [discriminate|].
    destruct (directFileMode s); [discriminate|].
    destruct (diskPath s n) as [path ok].
    destruct ok; simpl negb; cbv iota; [|discriminate].
    pose proof (DeleteFile_loop_post 1001 0 path (now w) w) as H.
    cbv zeta in H. destruct H as (_ & _ & _ & H4).
    intros Hok. rewrite Hok in H4. split; [reflexivity | exact H4]. }
  destruct Hpost as (Hgate & Hfs).
  assert (Hcfg : String.eqb (rootDir s) EmptyString = false /\
                 directFileMode s = false).
  { revert Hok. unfold DeleteFile.
    destruct (String.eqb (rootDir s) EmptyString); [discriminate|].
    destruct (directFileMode s); [discriminate|]. auto. }
  destruct Hcfg as (Hroot & Hdirect).
  split.
  - unfold OpenFile. rewrite Hroot, Hdirect.
    destruct (diskPath s n) as [path ok]. simpl in Hgate, Hfs. subst ok.
    simpl negb. cbv iota. unfold os_Open.
    rewrite Hfs, lookup_delete_eq. eexists. split; reflexivity.
  - intros m Hne. unfold OpenFile. rewrite Hroot, Hdirect.
    destruct (diskPath s m) as [pm okm]. simpl in Hne.
    destruct okm; simpl negb; cbv iota; [|reflexivity].
    unfold os_Open. rewrite Hfs, lookup_delete_ne by congruence. reflexivity.
Qed.

(** X21.  Deleting twice.  After a [DeleteFile] without an error, a
    second [DeleteFile] of the same name returns no error at its first
    attempt and changes nothing, on every system. *)
Theorem DeleteFile_twice (s : peerAPIServer) (n : string) (w : World) :
  fst (DeleteFile s n w) = None ->
  DeleteFile s n (snd (DeleteFile s n w)) = (None, snd (DeleteFile s n w)).
Proof.
  unfold DeleteFile.
  destruct (String.eqb (rootDir s) EmptyString); [discriminate|].
  destruct (directFileMode s); [discriminate|].
  destruct (diskPath s n) as [path ok].
  destruct ok; simpl negb; cbv iota; [|discriminate].
  pose proof (DeleteFile_loop_post 1001 0 path (now w) w) as H.
  cbv zeta in H. destruct H as (_ & _ & _ & H4).
  intros Hok. rewrite Hok in H4.
  set (w' := snd (DeleteFile_loop 1001 0 path (now w) w)) in *.
  change 1001%nat with (S 1000). cbn [DeleteFile_loop].
  unfold os_Remove. rewrite H4, lookup_delete_eq. reflexivity.
Qed.

(** * More properties of uploads *)

Lemma notifyCount_addEvent src e w :
  notifyCount src (addEvent e w)
  = notifyCount src w + (if isNotifyFrom src e then 1 else 0).
Proof.
  unfold notifyCount. simpl events.
  rewrite List.filter_app, length_app. simpl.
  destruct (isNotifyFrom src e); simpl; lia.
Qed.

Lemma notifyCount_events src w w1 :
  events w1 = events w -> notifyCount src w1 = notifyCount src w.
Proof. unfold notifyCount. now intros ->. Qed.

Lemma sameUpload_refl f : sameUpload f f.
Proof. repeat split. Qed.

Lemma sameUpload_trans f1 f2 f3 :
  sameUpload f1 f2 -> sameUpload f2 f3 -> sameUpload f1 f3.
Proof.
  intros (A1 & A2 & A3 & A4 & A5) (B1 & B2 & B3 & B4 & B5).
  repeat split; congruence.
Qed.

Lemma appendData_nil nd : appendData [] nd = nd.
Proof. destruct nd; simpl; [now rewrite app_nil_r | reflexivity]. Qed.

Lemma appendData_app d1 d2 nd :
  appendData (d1 ++ d2) nd = appendData d2 (appendData d1 nd).
Proof. destruct nd; simpl; [now rewrite app_assoc | reflexivity]. Qed.

Lemma alter_appendData_nil (k : string) (m : gmap string node) :
  alter (appendData []) k m = m.
Proof. apply alter_id. intros x _. apply appendData_nil. Qed.

Lemma alter_appendData_app d1 d2 (k : string) (m : gmap string node) :
  alter (appendData d2) k (alter (appendData d1) k m)
  = alter (appendData (d1 ++ d2)) k m.
Proof.
  rewrite alter_alter_eq. apply alter_ext.
  intros x _. simpl. now rewrite appendData_app.
Qed.

(** A write changes the file it writes to and nothing else. *)
Lemma os_File_Write_account path p w n err w1 :
  os_File_Write path p w = (n, err, w1) ->
  (n <= length p)%nat /\ now w1 = now w /\
  incomingFiles w1 = incomingFiles w /\ events w1 = events w /\
  capFileSharing w1 = capFileSharing w /\
  fs w1 = alter (appendData (take n p)) (resolve path) (fs w).
Proof.
  unfold os_File_Write.
  destruct (writeQuota (faults w)) as [q|].
  - destruct (Nat.leb_spec (length p) q) as [Hle|Hgt];
      intros H; inversion H; subst; clear H; simpl;
      repeat split; try lia; try (now rewrite take_ge by lia).
  - intros H; inversion H; subst; clear H; simpl.
    repeat split; try lia. now rewrite take_ge by lia.
Qed.

(** A write of the upload object: the bytes written are counted, the
    registry shows the object as it is after the write, and only the
    destination has changed on the disk. *)
Lemma incomingFile_Write_account id f p w n err f1 w1 :
  incomingFile_Write id f p w = (n, err, f1, w1) ->
  (n <= length p)%nat /\ now w1 = now w /\
  delete id (incomingFiles w1) = delete id (incomingFiles w) /\
  (incomingFiles w !! id = Some f -> incomingFiles w1 !! id = Some f1) /\
  capFileSharing w1 = capFileSharing w /\
  fs w1 = alter (appendData (take n p)) (resolve (IncomingFile.w f)) (fs w) /\
  IncomingFile.copied f1 = IncomingFile.copied f + Z.of_nat n /\
  IncomingFile.done f1 = IncomingFile.done f /\
  sameUpload f f1.
Proof.
  unfold incomingFile_Write.
  destruct (os_File_Write (IncomingFile.w f) p w) as [[n0 err0] w0] eqn:Hw.
  apply os_File_Write_account in Hw.
  destruct Hw as (Hn & Hnow & Hin & Hev & Hcap & Hfs).
  destruct (Nat.ltb_spec 0 n0) as [Hpos|Hzero].
  - destruct (match IncomingFile.lastNotify f with
              | Some last => Second <? now w0 - last
              | None => true
              end);
      intros H; inversion H; subst; clear H; simpl;
      (split; [exact Hn|]); (split; [exact Hnow|]);
      (split; [rewrite delete_alter_eq; now rewrite Hin|]);
      (split; [intros Hreg; rewrite lookup_alter_eq, Hin, Hreg; reflexivity|]);
      repeat split; assumption.
  - intros H; inversion H; subst; clear H.
    assert (n = 0)%nat by lia. subst n.
    split; [exact Hn|]. split; [exact Hnow|].
    split; [now rewrite Hin|]. split; [now rewrite Hin|].
    split; [exact Hcap|]. split; [exact Hfs|].
    split; [simpl; lia|]. split; [reflexivity | apply sameUpload_refl].
Qed.

(** The copy: the registry follows the upload object, whose count of
    bytes is the count that the copy returns; what the destination has
    gained is a prefix of the body, the whole of it when the copy ends
    without an error. *)
Lemma io_Copy_account id rds ending :
  forall f written w n err f1 w1,
    io_Copy id f rds ending written w = (n, err, f1, w1) ->
    delete id (incomingFiles w1) = delete id (incomingFiles w) /\
    (incomingFiles w !! id = Some f -> incomingFiles w1 !! id = Some f1) /\
    capFileSharing w1 = capFileSharing w /\
    sameUpload f f1 /\ IncomingFile.done f1 = IncomingFile.done f /\
    IncomingFile.copied f1 - IncomingFile.copied f = n - written /\
    exists d rest,
      concat (map snd rds) = d ++ rest /\
      (err = None -> rest = [] /\ ending = EOF) /\
      Z.of_nat (length d) = n - written /\
      fs w1 = alter (appendData d) (resolve (IncomingFile.w f)) (fs w).
Proof.
  induction rds as [|[d0 p] rds' IH]; intros f written w n err f1 w1; simpl.
  - intros H; inversion H; subst; clear H. simpl.
    split; [reflexivity|]. split; [auto|]. split; [reflexivity|].
    split; [apply sameUpload_refl|]. split; [reflexivity|]. split; [lia|].
    exists [], []. split; [reflexivity|]. split.
    + destruct ending; try discriminate. auto.
    + split; [simpl; lia | now rewrite alter_appendData_nil].
  - set (w0 := addEvent (EvRead (length p)) (sleep d0 w)).
    destruct p as [|b p'].
    + intros H. apply IH in H. exact H.
    + destruct (incomingFile_Write id f (b :: p') w0) as [[[nw ew] f2] w2] eqn:Hw.
      apply incomingFile_Write_account in Hw.
      destruct Hw as (Hn & _ & Hdel & Hreg & Hcap & Hfs & Hcop & Hdone & Hsame).
      change (incomingFiles w0) with (incomingFiles w) in Hdel, Hreg.
      change (capFileSharing w0) with (capFileSharing w) in Hcap.
      change (fs w0) with (fs w) in Hfs.
      assert (Hstop : forall e,
                (written + Z.of_nat nw, Some e, f2, w2) = (n, err, f1, w1) ->
                delete id (incomingFiles w1) = delete id (incomingFiles w) /\
                (incomingFiles w !! id = Some f -> incomingFiles w1 !! id = Some f1) /\
                capFileSharing w1 = capFileSharing w /\
                sameUpload f f1 /\ IncomingFile.done f1 = IncomingFile.done f /\
                IncomingFile.copied f1 - IncomingFile.copied f = n - written /\
                exists d rest,
                  (b :: p') ++ concat (map snd rds') = d ++ rest /\
                  (err = None -> rest = [] /\ ending = EOF) /\
                  Z.of_nat (length d) = n - written /\
                  fs w1 = alter (appendData d) (resolve (IncomingFile.w f)) (fs w)).
      { intros e H; inversion H; subst; clear H.
        repeat (split; [assumption || lia|]).
        exists (take nw (b :: p')), (drop nw (b :: p') ++ concat (map snd rds')).
        split; [now rewrite app_assoc, take_drop|].
        split; [discriminate|].
        split; [rewrite length_take; lia | exact Hfs]. }
      destruct ew as [e|]; [apply Hstop|].
      destruct (Nat.eqb_spec nw (length (b :: p'))) as [Heq|Hne];
        simpl negb; cbv iota; [|apply Hstop].
      intros H. apply IH in H.
      destruct H as (Idel & Ireg & Icap & Isame & Idone & Icop & d & rest & Hcat & Herr & Hlen & Ifs).
      split; [congruence|]. split; [auto|]. split; [congruence|].
      split; [exact (sameUpload_trans _ _ _ Hsame Isame)|].
      split; [congruence|]. split; [lia|].
      exists ((b :: p') ++ d), rest.
      split; [rewrite <- app_assoc; now rewrite Hcat|].
      split; [exact Herr|].
      split; [rewrite length_app; lia|].
      destruct Hsame as (_ & _ & _ & Hw & _).
      rewrite Ifs, Hw, Hfs, Heq, take_ge by lia.
      apply alter_appendData_app.
Qed.

(** A write notifies at most once, and only when no notification was sent
    before or more than a second has passed since the last one. *)
Lemma incomingFile_Write_rate id f p w n err f1 w1 :
  incomingFile_Write id f p w = (n, err, f1, w1) ->
  (forall src, src <> FromWrite -> notifyCount src w1 = notifyCount src w) /\
  ((IncomingFile.lastNotify f1 = IncomingFile.lastNotify f /\
    notifyCount FromWrite w1 = notifyCount FromWrite w) \/
   (IncomingFile.lastNotify f1 = Some (now w) /\
    notifyCount FromWrite w1 = notifyCount FromWrite w + 1 /\
    forall t0, IncomingFile.lastNotify f = Some t0 -> Second < now w - t0)).
Proof.
  unfold incomingFile_Write.
  destruct (os_File_Write (IncomingFile.w f) p w) as [[n0 err0] w0] eqn:Hw.
  apply os_File_Write_account in Hw.
  destruct Hw as (_ & Hnow & _ & Hev & _ & _).
  destruct (0 <? n0)%nat.
  - destruct (IncomingFile.lastNotify f) as [t0|] eqn:Hlast.
    + destruct (Z.ltb_spec Second (now w0 - t0)) as [Hlt|Hge];
        intros H; inversion H; subst; clear H.
      * split.
        { intros src Hsrc. unfold sendFileNotify. rewrite notifyCount_addEvent.
          destruct src; try congruence; simpl;
            rewrite Z.add_0_r; apply notifyCount_events; exact Hev. }
        right. simpl IncomingFile.lastNotify. rewrite Hnow.
        split; [reflexivity|]. split.
        { unfold sendFileNotify. rewrite notifyCount_addEvent. simpl.
          f_equal. apply notifyCount_events. exact Hev. }
        intros t Ht. inversion Ht; subst. lia.
      * split.
        { intros src _. apply notifyCount_events. exact Hev. }
        left. split; [reflexivity|]. apply notifyCount_events. exact Hev.
    + intros H; inversion H; subst; clear H. split.
      { intros src Hsrc. unfold sendFileNotify. rewrite notifyCount_addEvent.
        destruct src; try congruence; simpl;
          rewrite Z.add_0_r; apply notifyCount_events; exact Hev. }
      right. simpl IncomingFile.lastNotify. rewrite Hnow.
      split; [reflexivity|]. split.
      { unfold sendFileNotify. rewrite notifyCount_addEvent. simpl.
        f_equal. apply notifyCount_events. exact Hev. }
      discriminate.
  - intros H; inversion H; subst; clear H. split.
    { intros src _. apply notifyCount_events. exact Hev. }
    left. split; [reflexivity|]. apply notifyCount_events. exact Hev.
Qed.

Lemma notifyCount_read src k d w :
  notifyCount src (addEvent (EvRead k) (sleep d w)) = notifyCount src w.
Proof.
  rewrite notifyCount_addEvent.
  replace (isNotifyFrom src (EvRead k)) with false by (destruct src; reflexivity).
  rewrite Z.add_0_r. apply notifyCount_events. reflexivity.
Qed.

(** The copy and the clock: [k] progress notifications take more than
    [k - 1] seconds. *)
Lemma io_Copy_rate id rds ending :
  Forall (fun rd => 0 <= fst rd) rds ->
  forall f written w n err f1 w1,
    io_Copy id f rds ending written w = (n, err, f1, w1) ->
    paced f w f1 w1.
Proof.
  intros Hpos.
  induction Hpos as [|[d0 p] rds' Hd0 Hpos IH];
    intros f written w n err f1 w1; simpl.
  - intros H; inversion H; subst; clear H. unfold paced.
    split; [simpl; lia|].
    split; [intros src _; rewrite notifyCount_addEvent;
            replace (isNotifyFrom src (EvRead 0)) with false
              by (destruct src; reflexivity); lia|].
    assert (Hc : notifyCount FromWrite (addEvent (EvRead 0) w)
                 = notifyCount FromWrite w)
      by (rewrite notifyCount_addEvent; simpl; lia).
    rewrite Hc. split; [lia|].
    destruct (IncomingFile.lastNotify f1) as [t0|].
    + intros Ht0. exists t0. simpl now. split; [reflexivity|]. lia.
    + left. split; reflexivity.
  - simpl in Hd0.
    set (w0 := addEvent (EvRead (length p)) (sleep d0 w)).
    assert (Hnow0 : now w0 = now w + d0) by reflexivity.
    assert (Hc0 : forall src, notifyCount src w0 = notifyCount src w)
      by (intros src; apply notifyCount_read).
    assert (Hskip : forall n',
              io_Copy id f rds' ending n' w0 = (n, err, f1, w1) ->
              paced f w f1 w1).
    { intros n' H. apply IH in H.
      destruct H as (I1 & I2 & I3 & I4).
      rewrite Hc0 in I3, I4. rewrite Hnow0 in I1, I4.
      split; [lia|].
      split; [intros src Hsrc; rewrite (I2 src Hsrc); apply Hc0|].
      split; [exact I3|].
      destruct (IncomingFile.lastNotify f) as [t0|].
      - intros Ht0. apply I4. lia.
      - destruct I4 as [I4|(t1 & E1 & E2 & E3)]; [left; exact I4|].
        right. exists t1. split; [exact E1|]. split; [exact E2|]. lia. }
    destruct p as [|b p'].
    + intros H. exact (Hskip written H).
    + destruct (incomingFile_Write id f (b :: p') w0) as [[[nw ew] f2] w2] eqn:Hw.
      pose proof (incomingFile_Write_account _ _ _ _ _ _ _ _ Hw)
        as (_ & Hnow2 & _).
      apply incomingFile_Write_rate in Hw. destruct Hw as (Hoth & Hrate).
      rewrite Hc0 in Hrate. rewrite Hnow0 in Hrate, Hnow2.
      assert (Hstop : forall e,
                (written + Z.of_nat nw, Some e, f2, w2) = (n, err, f1, w1) ->
                paced f w f1 w1).
      { intros e H; inversion H; subst; clear H.
        split; [lia|].
        split; [intros src Hsrc; rewrite (Hoth src Hsrc); apply Hc0|].
        destruct Hrate as [(L1 & L2)|(L1 & L2 & L3)].
        - rewrite L2. split; [lia|].
          destruct (IncomingFile.lastNotify f) as [t0|].
          + intros Ht0. exists t0. split; [exact L1|]. lia.
          + left. split; [reflexivity | exact L1].
        - rewrite L2. split; [lia|].
          destruct (IncomingFile.lastNotify f) as [t0|].
          + intros Ht0. exists (now w + d0). split; [exact L1|].
            specialize (L3 t0 eq_refl). lia.
          + right. exists (now w + d0). split; [exact L1|]. lia. }
      destruct ew as [e|]; [apply Hstop|].
      destruct (negb (nw =? length (b :: p'))%nat); [apply Hstop|].
      intros H. apply IH in H. destruct H as (I1 & I2 & I3 & I4).
      split; [lia|].
      split; [intros src Hsrc; rewrite (I2 src Hsrc), (Hoth src Hsrc); apply Hc0|].
      destruct Hrate as [(L1 & L2)|(L1 & L2 & L3)].
      * rewrite L2 in I3, I4. rewrite L1 in I4. split; [exact I3|].
        destruct (IncomingFile.lastNotify f) as [t0|].
        -- intros Ht0. apply I4. lia.
        -- destruct I4 as [I4|(t1 & E1 & E2 & E3)]; [left; exact I4|].
           right. exists t1. split; [exact E1|]. split; [exact E2|]. lia.
      * rewrite L2 in I3, I4. rewrite L1 in I4. split; [lia|].
        destruct (I4 ltac:(lia)) as (t1 & E1 & E2 & E3).
        destruct (IncomingFile.lastNotify f) as [t0|].
        -- intros Ht0. exists t1. split; [exact E1|]. split; [exact E2|].
           specialize (L3 t0 eq_refl). lia.
        -- right. exists t1. split; [exact E1|]. split; [exact E2|]. lia.
Qed.

Lemma onlyProgress_count w w1 src :
  onlyProgress w w1 -> src <> FromWrite ->
  notifyCount src w1 = notifyCount src w.
Proof.
  intros (new & Hev & Hall) Hsrc. unfold notifyCount.
  rewrite Hev, List.filter_app, length_app.
  assert (Hnil : List.filter (isNotifyFrom src) new = []).
  { clear Hev. induction Hall as [|e l He Hl IH]; [reflexivity|].
    simpl. rewrite IH.
    replace (isNotifyFrom src e) with false; [reflexivity|].
    destruct e as [[| |]| |]; destruct src; try reflexivity;
      try discriminate; congruence. }
  rewrite Hnil. simpl. lia.
Qed.

Lemma newUpload_fresh w : incomingFiles w !! newUpload w = None.
Proof. apply not_elem_of_dom. unfold newUpload. apply is_fresh. Qed.

Lemma notifyCount_setKnownEmpty src v w :
  notifyCount src (setKnownEmpty v w) = notifyCount src w.
Proof. reflexivity. Qed.

Lemma notifyCount_store src id f w :
  notifyCount src (store id f w) = notifyCount src w.
Proof. reflexivity. Qed.

Lemma notifyCount_register src id f a w :
  notifyCount src (registerIncomingFile id f a w) = notifyCount src w.
Proof.
  unfold registerIncomingFile. rewrite notifyCount_addEvent.
  replace (isNotifyFrom src (EvRegister id a)) with false
    by (destruct src; reflexivity).
  rewrite Z.add_0_r. reflexivity.
Qed.

(** The end of the handler: the notifications it sends. *)
Lemma putFinish_account h dstFile inFile w resp success w' :
  putFinish h dstFile inFile w = (resp, success, w') ->
  now w' = now w /\ fs w' = fs w /\ capFileSharing w' = capFileSharing w /\
  notifyCount FromWrite w' = notifyCount FromWrite w /\
  notifyCount FromPut w' = notifyCount FromPut w + (if success then 1 else 0) /\
  notifyCount FromDone w'
  = notifyCount FromDone w
    + (if success && directFileMode (ps h)
          && match inFile with Some _ => true | None => false end
       then 1 else 0) /\
  match inFile with
  | Some (id, f) =>
    delete id (incomingFiles w') = delete id (incomingFiles w)
  | None => incomingFiles w' = incomingFiles w
  end.
Proof.
  unfold putFinish, os_File_Close.
  destruct (closeFault (faults w)) as [e|].
  - intros H; inversion H; subst. simpl.
    repeat split; try lia. destruct inFile as [[id f]|]; reflexivity.
  - intros H; inversion H; subst; clear H. simpl andb.
    unfold sendFileNotify.
    rewrite !notifyCount_addEvent, !notifyCount_setKnownEmpty.
    simpl isNotifyFrom.
    cbn [now fs capFileSharing incomingFiles addEvent setKnownEmpty].
    destruct (directFileMode (ps h)); [destruct inFile as [[id f]|]|].
    + cbn [markAndNotifyDone snd]. unfold sendFileNotify.
      rewrite !notifyCount_addEvent, !notifyCount_store. simpl isNotifyFrom.
      repeat split; try (simpl; lia). apply delete_alter_eq.
    + repeat split; simpl; lia.
    + repeat split; try (simpl; lia). destruct inFile as [[id f]|]; reflexivity.
Qed.

(** The transfer: the registry is left as it was found; the destination
    has gained a prefix of the body, the whole body with [success]; the
    final notifications are sent with [success] only. *)
Lemma putTransfer_account h r baseName dstFile w resp success w' :
  putTransfer h r baseName dstFile w = (resp, success, w') ->
  incomingFiles w' = incomingFiles w /\
  capFileSharing w' = capFileSharing w /\
  (exists d rest,
     bodyBytes (reqBody r) = d ++ rest /\
     (ContentLength r = 0 -> d = []) /\
     (success = true -> ContentLength r <> 0 -> rest = []) /\
     fs w' = alter (appendData d) (resolve dstFile) (fs w)) /\
  notifyCount FromPut w' = notifyCount FromPut w + (if success then 1 else 0) /\
  notifyCount FromDone w'
  = notifyCount FromDone w
    + (if success && directFileMode (ps h) && negb (ContentLength r =? 0)
       then 1 else 0) /\
  (timeGoesOn (reqBody r) ->
   now w <= now w' /\
   notifyCount FromWrite w <= notifyCount FromWrite w' /\
   (notifyCount FromWrite w' - notifyCount FromWrite w - 1) * Second
   <= now w' - now w).
Proof.
  unfold putTransfer.
  destruct (Z.eqb_spec (ContentLength r) 0) as [Hz|Hnz]; simpl negb; cbv iota.
  - intros H. apply putFinish_account in H.
    destruct H as (Hnow & Hfs & Hcap & Hw & Hp & Hd & Hreg).
    split; [exact Hreg|]. split; [exact Hcap|]. split.
    { exists [], (bodyBytes (reqBody r)). split; [reflexivity|].
      split; [reflexivity|]. split; [intros _ Hne; now elim Hne|].
      now rewrite alter_appendData_nil. }
    split; [exact Hp|]. split.
    { rewrite Hd, !andb_false_r. reflexivity. }
    intros _. rewrite Hnow, Hw. unfold Second. lia.
  - set (id := newUpload w).
    set (inFile := {| IncomingFile.name := baseName |}).
    set (wr := registerIncomingFile id inFile true w).
    assert (Hfresh : incomingFiles w !! id = None) by apply newUpload_fresh.
    destruct (io_Copy id inFile (bodyReads (reqBody r)) (bodyEnd (reqBody r)) 0 wr)
      as [[[n err] inFile1] w2] eqn:Hc.
    pose proof (io_Copy_account _ _ _ _ _ _ _ _ _ _ Hc)
      as (Cdel & _ & Ccap & _ & _ & _ & d & rest & Hcat & Herr & _ & Cfs).
    pose proof (io_Copy_props _ _ _ _ _ _ _ _ _ _ Hc) as (_ & Cprog & _).
    change (IncomingFile.w inFile) with dstFile in Cfs.
    change (fs wr) with (fs w) in Cfs.
    change (capFileSharing wr) with (capFileSharing w) in Ccap.
    assert (Cdel' : delete id (incomingFiles w2) = incomingFiles w).
    { rewrite Cdel. unfold wr. simpl.
      rewrite delete_insert_eq. apply delete_id. exact Hfresh. }
    assert (Cp : forall src, src <> FromWrite ->
                             notifyCount src w2 = notifyCount src w).
    { intros src Hsrc. rewrite (onlyProgress_count _ _ _ Cprog Hsrc).
      apply notifyCount_register. }
    assert (Crate : timeGoesOn (reqBody r) ->
                    now w <= now w2 /\
                    notifyCount FromWrite w <= notifyCount FromWrite w2 /\
                    (notifyCount FromWrite w2 - notifyCount FromWrite w - 1) * Second
                    <= now w2 - now w).
    { intros Htime.
      pose proof (io_Copy_rate id _ (bodyEnd (reqBody r)) Htime _ _ _ _ _ _ _ Hc)
        as (R1 & _ & R3 & R4).
      change (IncomingFile.lastNotify inFile) with (@None Z) in R4.
      change (now wr) with (now w) in R1, R4.
      assert (Hwr : notifyCount FromWrite wr = notifyCount FromWrite w)
        by apply notifyCount_register.
      rewrite Hwr in R3, R4.
      split; [exact R1|]. split; [exact R3|].
      destruct R4 as [(E & _)|(t1 & _ & E2 & E3)].
      - rewrite E. unfold Second. lia.
      - lia. }
    destruct err as [e|].
    + unfold os_File_Close.
      assert (Hcl : snd (match closeFault (faults w2) with
                         | Some e0 => (Some (PathError "close" dstFile e0), w2)
                         | None => (None, w2)
                         end) = w2)
        by (destruct (closeFault (faults w2)); reflexivity).
      rewrite Hcl.
      intros H; inversion H; subst; clear H.
      split; [exact Cdel'|]. split; [exact Ccap|]. split.
      { exists d, rest. split; [exact Hcat|].
        split; [intros Hz; now elim Hnz|]. split; [discriminate | exact Cfs]. }
      rewrite !notifyCount_register.
      split; [rewrite (Cp FromPut) by discriminate; lia|].
      split; [rewrite (Cp FromDone) by discriminate; simpl; lia|].
      exact Crate.
    + destruct (putFinish h dstFile (Some (id, inFile1)) w2)
        as [[resp0 succ0] w3] eqn:Hf.
      apply putFinish_account in Hf.
      destruct Hf as (Fnow & Ffs & Fcap & Fw & Fp & Fd & Freg).
      intros H; inversion H; subst; clear H.
      split.
      { simpl. rewrite Freg. exact Cdel'. }
      split; [simpl; congruence|]. split.
      { exists d, rest. split; [exact Hcat|].
        split; [intros Hz; now elim Hnz|].
        split; [intros _ _; apply Herr; reflexivity|].
        simpl. congruence. }
      rewrite !notifyCount_register.
      split; [rewrite Fp, (Cp FromPut) by discriminate; reflexivity|].
      split.
      { rewrite Fd, (Cp FromDone) by discriminate.
        rewrite andb_true_r. reflexivity. }
      intros Htime. destruct (Crate Htime) as (R1 & R2 & R3).
      change (now (registerIncomingFile id inFile1 false w3)) with (now w3).
      rewrite Fnow, Fw. auto.
Qed.

(** What every run of the upload handler keeps and counts. *)
Lemma handlePeerPut_account h r w :
  incomingFiles (snd (handlePeerPut h r w)) = incomingFiles w /\
  capFileSharing (snd (handlePeerPut h r w)) = capFileSharing w /\
  notifyCount FromPut (snd (handlePeerPut h r w))
  = notifyCount FromPut w
    + (if status (fst (handlePeerPut h r w)) =? StatusOK then 1 else 0) /\
  notifyCount FromDone (snd (handlePeerPut h r w))
  = notifyCount FromDone w
    + (if (status (fst (handlePeerPut h r w)) =? StatusOK)
          && directFileMode (ps h) && negb (ContentLength r =? 0)
       then 1 else 0) /\
  (timeGoesOn (reqBody r) ->
   now w <= now (snd (handlePeerPut h r w)) /\
   notifyCount FromWrite w <= notifyCount FromWrite (snd (handlePeerPut h r w)) /\
   (notifyCount FromWrite (snd (handlePeerPut h r w))
    - notifyCount FromWrite w - 1) * Second
   <= now (snd (handlePeerPut h r w)) - now w).
Proof.
  destruct (handlePeerPut_cases h r w) as [(resp & E & Hst)|(bn & dst & Hacc)].
  - rewrite E. simpl fst. simpl snd.
    apply Z.eqb_neq in Hst. rewrite Hst. simpl andb. cbv iota.
    repeat split; try lia. unfold Second. lia.
  - rewrite (handlePeerPut_accepted _ _ _ _ _ Hacc).
    destruct (os_Create dst w) as [cerr w1] eqn:Hc.
    apply os_Create_props in Hc. destruct Hc as (Hce & Hcn).
    destruct cerr as [e|].
    { rewrite (Hce ltac:(discriminate)). simpl.
      repeat split; try lia. unfold Second. lia. }
    specialize (Hcn eq_refl).
    destruct (putTransfer h r bn dst w1) as [[resp success] w2] eqn:Ht.
    pose proof (putTransfer_props _ _ _ _ _ _ _ _ Ht) as (Pf & Ps).
    apply putTransfer_account in Ht.
    destruct Ht as (Tin & Tcap & _ & Tp & Td & Trate).
    assert (Hw1 : incomingFiles w1 = incomingFiles w /\
                  capFileSharing w1 = capFileSharing w /\ now w1 = now w /\
                  forall src, notifyCount src w1 = notifyCount src w)
      by (rewrite Hcn; repeat split).
    destruct Hw1 as (W1 & W2 & W3 & W4).
    rewrite W1 in Tin. rewrite W2 in Tcap. rewrite W4 in Tp, Td.
    rewrite W3, W4 in Trate.
    simpl fst. simpl snd.
    destruct success.
    + destruct (Ps eq_refl) as (-> & _). simpl.
      repeat split; try assumption; apply Trate; assumption.
    + destruct (Pf eq_refl) as (H500 & _). rewrite H500. simpl andb. cbv iota.
      destruct (os_Remove dst w2) as [rerr w3] eqn:Hr.
      pose proof (os_Remove_fs _ _ _ _ Hr) as (Rcap & _).
      apply os_Remove_props in Hr. destruct Hr as (_ & Rev & (Rin & Rnow) & _).
      simpl snd.
      rewrite !(notifyCount_events _ _ _ Rev).
      split; [congruence|]. split; [congruence|].
      split; [exact Tp|]. split; [exact Td|].
      intros Htime. destruct (Trate Htime) as (T1 & T2 & T3).
      split; [lia|]. split; [exact T2|]. lia.
Qed.

(** X8.  The registry of the uploads under way is balanced: whatever the
    request and however the upload ends, the handler leaves the registry
    as it found it, so that no snapshot shows an upload after its request
    was answered.  The setting of the control plane is not touched. *)
Theorem handlePeerPut_registry_balanced (h : peerAPIHandler) (r : Request)
        (w : World) :
  incomingFiles (snd (handlePeerPut h r w)) = incomingFiles w /\
  capFileSharing (snd (handlePeerPut h r w)) = capFileSharing w.
Proof.
  pose proof (handlePeerPut_account h r w) as (H1 & H2 & _). split; assumption.
Qed.

(** X9.  The final notifications of an upload.  The handler sends the
    notification at its end once when it answers 200 and never otherwise;
    the done-notification is sent once for an answer of 200 in direct mode
    to an upload with a content length other than zero, and never
    otherwise. *)
Theorem handlePeerPut_final_notifications (h : peerAPIHandler) (r : Request)
        (w : World) :
  notifyCount FromPut (snd (handlePeerPut h r w))
  = notifyCount FromPut w
    + (if status (fst (handlePeerPut h r w)) =? StatusOK then 1 else 0) /\
  notifyCount FromDone (snd (handlePeerPut h r w))
  = notifyCount FromDone w
    + (if (status (fst (handlePeerPut h r w)) =? StatusOK)
          && directFileMode (ps h) && negb (ContentLength r =? 0)
       then 1 else 0).
Proof.
  pose proof (handlePeerPut_account h r w) as (_ & _ & H3 & H4 & _).
  split; assumption.
Qed.

(** X10.  The progress notifications are paced.  When no read of the body
    takes a negative time, an upload that sent [k] progress notifications
    took [k - 1] seconds or more: after the first, which may be sent at
    once, each comes more than a second after the one before. *)
Theorem handlePeerPut_progress_paced (h : peerAPIHandler) (r : Request)
        (w : World) :
  timeGoesOn (reqBody r) ->
  notifyCount FromWrite w <= notifyCount FromWrite (snd (handlePeerPut h r w)) /\
  (notifyCount FromWrite (snd (handlePeerPut h r w))
   - notifyCount FromWrite w - 1) * Second
  <= now (snd (handlePeerPut h r w)) - now w.
Proof.
  intros Htime.
  pose proof (handlePeerPut_account h r w) as (_ & _ & _ & _ & H5).
  destruct (H5 Htime) as (_ & A & B). split; assumption.
Qed.

(** What an upload that passed the checks does to the files. *)
Lemma handlePeerPut_files (h : peerAPIHandler) (r : Request)
        (w : World) (baseName dstFile : string) :
  putAccepts h r w baseName dstFile ->
  (forall q, q <> resolve dstFile ->
             fs (snd (handlePeerPut h r w)) !! q = fs w !! q) /\
  (status (fst (handlePeerPut h r w)) = StatusOK ->
   fs (snd (handlePeerPut h r w)) !! resolve dstFile
   = Some (Regular (if ContentLength r =? 0 then []
                    else bodyBytes (reqBody r)))) /\
  (status (fst (handlePeerPut h r w)) <> StatusOK ->
   snd (handlePeerPut h r w) = w \/
   fs (snd (handlePeerPut h r w)) !! resolve dstFile = None \/
   exists d rest,
     bodyBytes (reqBody r) = d ++ rest /\
     fs (snd (handlePeerPut h r w)) !! resolve dstFile = Some (Regular d)).
Proof.
  intros Hacc.
  rewrite (handlePeerPut_accepted _ _ _ _ _ Hacc).
  destruct (os_Create dstFile w) as [cerr w1] eqn:Hc.
  apply os_Create_props in Hc. destruct Hc as (Hce & Hcn).
  destruct cerr as [e|].
  { rewrite (Hce ltac:(discriminate)). simpl.
    split; [reflexivity|]. split; [discriminate | auto]. }
  specialize (Hcn eq_refl).
  destruct (putTransfer h r baseName dstFile w1) as [[resp success] w2] eqn:Ht.
  pose proof (putTransfer_props _ _ _ _ _ _ _ _ Ht) as (Pf & Ps).
  apply putTransfer_account in Ht.
  destruct Ht as (_ & _ & (d & rest & Hcat & Hzero & Hall & Tfs) & _).
  assert (Hkey : fs w2 !! resolve dstFile = Some (Regular d)).
  { rewrite Tfs, lookup_alter_eq, Hcn. simpl fs.
    rewrite lookup_insert_eq. reflexivity. }
  assert (Hframe : forall q, q <> resolve dstFile -> fs w2 !! q = fs w !! q).
  { intros q Hq. rewrite Tfs, lookup_alter_ne by congruence.
    rewrite Hcn. simpl fs. apply lookup_insert_ne. congruence. }
  simpl fst. simpl snd.
  destruct success.
  - destruct (Ps eq_refl) as (-> & _).
    split; [exact Hframe|]. split; [|intros Hne; now elim Hne].
    intros _. rewrite Hkey.
    destruct (Z.eqb_spec (ContentLength r) 0) as [Hz|Hnz].
    + now rewrite (Hzero Hz).
    + rewrite Hcat, (Hall eq_refl Hnz), app_nil_r. reflexivity.
  - destruct (Pf eq_refl) as (H500 & _).
    destruct (os_Remove dstFile w2) as [rerr w3] eqn:Hr.
    apply os_Remove_fs in Hr. destruct Hr as (_ & Rfs).
    simpl snd.
    split; [|split; [rewrite H500; discriminate|]].
    + intros q Hq. destruct rerr as [e|].
      * destruct Rfs as (-> & _). apply Hframe. exact Hq.
      * rewrite Rfs, lookup_delete_ne by congruence. apply Hframe. exact Hq.
    + intros _. right. destruct rerr as [e|].
      * destruct Rfs as (-> & _). right. exists d, rest. split; assumption.
      * left. rewrite Rfs. apply lookup_delete_eq.
Qed.

(** X11.  An upload touches its destination and no other file.  For a
    request that passed the checks, every path but the destination holds
    after the request what it held before.  With an answer of 200 the
    destination (the [.partial] path in direct mode) holds the body, and
    nothing when the content length is zero; otherwise either nothing has
    changed at all, or nothing is left at the destination, or what is left
    there is a part of the body from its start. *)
Theorem handlePeerPut_only_destination (h : peerAPIHandler) (r : Request)
        (w : World) (baseName dstFile : string) :
  putAccepts h r w baseName dstFile ->
  (forall q, q <> resolve dstFile ->
             fs (snd (handlePeerPut h r w)) !! q = fs w !! q) /\
  (status (fst (handlePeerPut h r w)) = StatusOK ->
   fs (snd (handlePeerPut h r w)) !! resolve dstFile
   = Some (Regular (if ContentLength r =? 0 then []
                    else bodyBytes (reqBody r)))) /\
  (status (fst (handlePeerPut h r w)) <> StatusOK ->
   snd (handlePeerPut h r w) = w \/
   fs (snd (handlePeerPut h r w)) !! resolve dstFile = None \/
   exists d rest,
     bodyBytes (reqBody r) = d ++ rest /\
     fs (snd (handlePeerPut h r w)) !! resolve dstFile = Some (Regular d)).
Proof. apply handlePeerPut_files. Qed.

(** X12.  The snapshot of an upload under way counts what reached the
    disk.  When the copy starts with the upload object in the registry and
    a regular file at the destination, then at its end, with or without an
    error, the registry holds the object as the copy left it; the snapshot
    of that object shows as received the bytes received before plus the
    count that the copy returns, which is the number of bytes that the
    destination has gained; its other fields are as they were. *)
Theorem io_Copy_snapshot (id : positive) (f : IncomingFile.t)
        (rds : list (Z * list Byte.byte)) (ending : error) (w : World)
        (n : Z) (err : option error) (f1 : IncomingFile.t) (w1 : World)
        (d0 : list Byte.byte) :
  incomingFiles w !! id = Some f ->
  fs w !! resolve (IncomingFile.w f) = Some (Regular d0) ->
  io_Copy id f rds ending 0 w = (n, err, f1, w1) ->
  incomingFiles w1 !! id = Some f1 /\
  PartialFile_Received (incomingFile_PartialFile f1)
  = PartialFile_Received (incomingFile_PartialFile f) + n /\
  PartialFile_Name (incomingFile_PartialFile f1)
  = PartialFile_Name (incomingFile_PartialFile f) /\
  PartialFile_Started (incomingFile_PartialFile f1)
  = PartialFile_Started (incomingFile_PartialFile f) /\
  PartialFile_DeclaredSize (incomingFile_PartialFile f1)
  = PartialFile_DeclaredSize (incomingFile_PartialFile f) /\
  PartialFile_PartialPath (incomingFile_PartialFile f1)
  = PartialFile_PartialPath (incomingFile_PartialFile f) /\
  PartialFile_Done (incomingFile_PartialFile f1)
  = PartialFile_Done (incomingFile_PartialFile f) /\
  exists d, fs w1 !! resolve (IncomingFile.w f) = Some (Regular (d0 ++ d)) /\
            Z.of_nat (length d) = n.
Proof.
  intros Hreg Hfile Hc.
  apply io_Copy_account in Hc.
  destruct Hc as (_ & Creg & _ & (S1 & S2 & S3 & S4 & S5) & Cdone & Ccop
                  & d & rest & _ & _ & Hlen & Cfs).
  split; [apply Creg; exact Hreg|].
  unfold incomingFile_PartialFile. simpl.
  split; [lia|]. repeat (split; [assumption|]).
  exists d. split; [|lia].
  rewrite Cfs, lookup_alter_eq, Hfile. reflexivity.
Qed.

(** * More on the filename gate *)

Lemma first_lo b0 size lo hi :
  Utf8.first b0 = Some (size, lo, hi) -> 128 <= lo.
Proof.
  unfold Utf8.first.
  repeat match goal with
         | |- context [if ?c then _ else _] => destruct c
         end; intros H; inversion H; subst; lia.
Qed.

Lemma inRange_lo lo hi x : inRange lo hi x = true -> lo <= x.
Proof. unfold inRange. intros H. apply andb_true_iff in H. lia. Qed.

(** A byte below 0x80 of a string that starts with a well-formed encoding
    is the rune of that encoding or comes after it. *)
Lemma decode1_ascii s r size :
  Utf8.decode1 s = Some (r, size) ->
  (1 <= size)%nat /\
  forall c, In c (list_ascii_of_string s) -> byteZ c < 128 ->
            byteZ c = r \/ In c (list_ascii_of_string (dropS size s)).
Proof.
  destruct s as [|c0 t1]; [discriminate|].
  unfold Utf8.decode1, Utf8.RuneSelf.
  destruct (Z.ltb_spec (byteZ c0) 128) as [Hlt|Hge].
  { intros H; inversion H; subst; clear H. split; [lia|].
    intros c [->|Hin] _; [left; reflexivity | right; exact Hin]. }
  destruct (Utf8.first (byteZ c0)) as [[[sz lo] hi]|] eqn:Hf; [|discriminate].
  apply first_lo in Hf.
  destruct t1 as [|c1 t2]; [discriminate|].
  destruct (inRange lo hi (byteZ c1)) eqn:H1; simpl negb; cbv iota; [|discriminate].
  apply inRange_lo in H1.
  destruct (sz =? 2)%nat.
  { intros H; inversion H; subst; clear H. split; [lia|].
    intros c [->|[->|Hin]] Hc; [lia | lia | right; exact Hin]. }
  destruct t2 as [|c2 t3]; [discriminate|].
  unfold Utf8.cont.
  destruct (inRange 128 191 (byteZ c2)) eqn:H2; simpl negb; cbv iota; [|discriminate].
  apply inRange_lo in H2.
  destruct (sz =? 3)%nat.
  { intros H; inversion H; subst; clear H. split; [lia|].
    intros c [->|[->|[->|Hin]]] Hc; [lia | lia | lia | right; exact Hin]. }
  destruct t3 as [|c3 t4]; [discriminate|].
  destruct (inRange 128 191 (byteZ c3)) eqn:H3; simpl negb; cbv iota; [|discriminate].
  apply inRange_lo in H3.
  intros H; inversion H; subst; clear H. split; [lia|].
  intros c [->|[->|[->|[->|Hin]]]] Hc; [lia | lia | lia | lia | right; exact Hin].
Qed.

(** In a valid string every byte below 0x80 is a rune of its own. *)
Lemma chunksFrom_ascii fuel :
  forall s, (String.length s <= fuel)%nat ->
    Utf8.validFrom fuel s = true ->
    forall c, In c (list_ascii_of_string s) -> byteZ c < 128 ->
              In (byteZ c) (map fst (Utf8.chunksFrom fuel s)).
Proof.
  induction fuel as [|fuel IH]; intros s Hlen Hvalid c Hin Hc.
  - destruct s; [destruct Hin | simpl in Hlen; lia].
  - destruct s as [|c0 t]; [destruct Hin|].
    cbn [Utf8.validFrom] in Hvalid. cbn [Utf8.chunksFrom].
    unfold Utf8.DecodeRuneInString.
    destruct (Utf8.decode1 (String c0 t)) as [[r size]|] eqn:Hd; [|discriminate].
    destruct (decode1_ascii _ _ _ Hd) as (Hsize & Hasc).
    cbn [map fst].
    destruct (Hasc c Hin Hc) as [Heq|Hrest]; [left; congruence|].
    right. apply IH; try assumption.
    rewrite length_dropS. simpl in *. lia.
Qed.

Lemma runes_ascii (s : string) (c : ascii) :
  Utf8.ValidString s = true ->
  In c (list_ascii_of_string s) -> byteZ c < 128 ->
  In (byteZ c) (Utf8.runes s).
Proof.
  unfold Utf8.ValidString, Utf8.runes, Utf8.runeChunks.
  intros Hv Hin Hc. apply chunksFrom_ascii; auto.
Qed.

Lemma byteZ_range (c : ascii) : 0 <= byteZ c < 256.
Proof.
  unfold byteZ. pose proof (N_ascii_bounded c) as H. lia.
Qed.

(** What a name that passed the gate is known to be. *)
Lemma diskPath_true (s : peerAPIServer) (n : string) :
  snd (diskPath s n) = true ->
  Utf8.ValidString n = true /\
  forallb validFilenameRune (Utf8.runes n) = true /\
  Path.Clean n = n /\
  GoStrings.HasSuffix n partialSuffix = false /\
  fst (diskPath s n) = Filepath.Join (rootDir s) n /\
  n <> "." /\ n <> "..".
Proof.
  unfold diskPath.
  destruct (Utf8.ValidString n); simpl; [|discriminate].
  destruct (String.eqb (GoStringsTrim.TrimSpace n) n); simpl; [|discriminate].
  destruct (255 <? String.length n)%nat; simpl; [discriminate|].
  destruct (String.eqb_spec (Path.Clean n) n) as [Hc|Hc]; simpl; [|discriminate].
  rewrite Hc.
  destruct (String.eqb_spec n ".") as [|Hd]; simpl; [discriminate|].
  destruct (String.eqb_spec n "..") as [|Hdd]; simpl; [discriminate|].
  destruct (GoStrings.HasSuffix n partialSuffix); simpl; [discriminate|].
  destruct (forallb validFilenameRune (Utf8.runes n)); simpl; [|discriminate].
  intros _. repeat split; assumption.
Qed.

Lemma gate_bytes (s : peerAPIServer) (n : string) (c : ascii) :
  snd (diskPath s n) = true ->
  In c (list_ascii_of_string n) ->
  32 <= byteZ c /\ byteZ c <> 127 /\ ~ In (byteZ c) rejectSet.
Proof.
  intros Hok Hin.
  destruct (diskPath_true _ _ Hok) as (Hv & Hr & _).
  pose proof (byteZ_range c) as Hrange.
  destruct (Z.ltb_spec (byteZ c) 128) as [Hlt|Hge].
  - pose proof (runes_ascii _ _ Hv Hin Hlt) as Hrune.
    rewrite forallb_forall in Hr. specialize (Hr _ Hrune).
    apply validFilenameRune_spec in Hr. destruct Hr as (Hp & Hrej).
    split; [|split; [|exact Hrej]];
      unfold unicode_IsPrint, Unicode.latin1Print, inRange in Hp;
      destruct (Z.leb_spec 0 (byteZ c)); try lia;
      destruct (Z.leb_spec (byteZ c) 255); try lia;
      simpl in Hp; lia.
  - split; [lia|]. split; [lia|].
    unfold rejectSet. simpl. lia.
Qed.

(** X13.  The bytes of an accepted name.  A name that [diskPath] accepts
    holds no slash, backslash, colon, asterisk, double quote, less-than,
    greater-than or vertical bar, no control byte and no DEL, whatever the
    print ranges of the Unicode tables are. *)
Theorem diskPath_accepted_bytes (s : peerAPIServer) (n : string) (c : ascii) :
  snd (diskPath s n) = true ->
  In c (list_ascii_of_string n) ->
  32 <= byteZ c /\ byteZ c <> 127 /\ ~ In (byteZ c) rejectSet.
Proof. apply gate_bytes. Qed.

(** X14.  No escape gets a forbidden byte past the gate.  When the
    suffix of the escaped path unescapes to a name that holds a slash
    (written [%2F], say), another byte of the reject set, a control byte
    or DEL, the handler creates nothing and changes nothing; the owner's
    PUT on a node with a root and file sharing is answered with 400. *)
Theorem handlePeerPut_unsafe_name (h : peerAPIHandler) (r : Request) (w : World)
        (suffix baseName : string) (c : ascii) :
  URL_EscapedPath r = "/v0/put/" +:+ suffix ->
  Url.PathUnescape suffix = Some baseName ->
  In c (list_ascii_of_string baseName) ->
  byteZ c < 32 \/ byteZ c = 127 \/ In (byteZ c) rejectSet ->
  snd (handlePeerPut h r w) = w /\
  status (fst (handlePeerPut h r w)) <> StatusOK /\
  (isSelf h = true -> hasCapFileSharing w = true -> Method r = "PUT" ->
   rootDir (ps h) <> EmptyString ->
   status (fst (handlePeerPut h r w)) = 400).
Proof.
  intros Hpath Hun Hin Hbad.
  assert (Hgate : snd (diskPath (ps h) baseName) = false).
  { destruct (snd (diskPath (ps h) baseName)) eqn:Hok; [|reflexivity].
    destruct (gate_bytes _ _ _ Hok Hin) as (H1 & H2 & H3).
    exfalso. destruct Hbad as [Hb|[Hb|Hb]]; [lia | lia | contradiction]. }
  unfold handlePeerPut.
  destruct (isSelf h); simpl negb; cbv iota;
    [|split; [reflexivity|]; split; [discriminate | discriminate]].
  destruct (hasCapFileSharing w); simpl negb; cbv iota;
    [|split; [reflexivity|]; split; [discriminate | discriminate]].
  destruct (String.eqb_spec (Method r) "PUT") as [Hm|Hm]; simpl negb; cbv iota;
    [|split; [reflexivity|]; split; [discriminate | intros _ _ Hm'; now elim Hm]].
  destruct (String.eqb_spec (rootDir (ps h)) EmptyString) as [Hr|Hr];
    [split; [reflexivity|]; split; [discriminate | intros _ _ _ Hr'; now elim Hr']|].
  rewrite Hpath, TrimPrefix_append.
  destruct (String.eqb suffix ("/v0/put/" +:+ suffix)) eqn:E1.
  { apply String.eqb_eq in E1. exfalso.
    assert (Hl := f_equal String.length E1).
    rewrite length_append in Hl. simpl in Hl. lia. }
  destruct (String.eqb suffix EmptyString);
    [split; [reflexivity|]; split; [discriminate | reflexivity]|].
  destruct (GoStrings.Contains suffix "/");
    [split; [reflexivity|]; split; [discriminate | reflexivity]|].
  rewrite Hun.
  destruct (diskPath (ps h) baseName) as [p ok]. simpl in Hgate. subst ok.
  simpl negb. cbv iota.
  split; [reflexivity|]. split; [discriminate | reflexivity].
Qed.

(** * More on the port picker *)

Lemma low_byte (x y s : Z) :
  0 <= s <= 16 ->
  Z.land x 0xFFFFFF = Z.land y 0xFFFFFF ->
  Z.land (Z.shiftr x s) 0xFF = Z.land (Z.shiftr y s) 0xFF.
Proof.
  intros Hs Hxy. apply Z.bits_inj'. intros n Hn.
  rewrite !Z.land_spec, !Z.shiftr_spec by lia.
  change 255 with (Z.ones 8).
  destruct (Z.ltb_spec n 8) as [Hlt|Hge].
  - f_equal.
    assert (Hbit : forall v, Z.testbit v (n + s)
                             = Z.testbit (Z.land v 0xFFFFFF) (n + s)).
    { intros v. rewrite Z.land_spec. change 16777215 with (Z.ones 24).
      rewrite Z.ones_spec_low by lia. now rewrite andb_true_r. }
    rewrite (Hbit x), (Hbit y), Hxy. reflexivity.
  - rewrite Z.ones_spec_high by lia. now rewrite !andb_false_r.
Qed.

Lemma hashData_low (ip1 ip2 : IP) (k : Z) :
  Z.land (lo ip1) 0xFFFFFF = Z.land (lo ip2) 0xFFFFFF ->
  hashData ip1 k = hashData ip2 k.
Proof.
  intros H. unfold hashData, As16, bigEndian64.
  cbn [seq map app length drop Nat.sub].
  change (56 - 8 * Z.of_nat 5) with 16. change (56 - 8 * Z.of_nat 6) with 8.
  change (56 - 8 * Z.of_nat 7) with 0.
  rewrite (low_byte (lo ip1) (lo ip2) 16), (low_byte (lo ip1) (lo ip2) 8),
    (low_byte (lo ip1) (lo ip2) 0) by (try lia; exact H).
  reflexivity.
Qed.

(** X15.  The candidate ports are a function of the last three bytes of
    the address: two addresses whose low 24 bits agree, such as the IPv4
    and the IPv6 address of one node, get the same five candidate ports,
    whatever the rest of the addresses and their families are. *)
Theorem tryPort_last_three_bytes (ip1 ip2 : IP) (k : Z) :
  Z.land (lo ip1) 0xFFFFFF = Z.land (lo ip2) 0xFFFFFF ->
  tryPort ip1 k = tryPort ip2 k.
Proof.
  intros H. unfold tryPort. now rewrite (hashData_low ip1 ip2 k H).
Qed.

(** What the loop over the candidates returns. *)
Lemma listen_loop_outcome env net host ip :
  forall (fuel : nat) (try : Z),
    0 <= try ->
    match listen_loop fuel try env net host ip with
    | Some ln =>
      exists k, try <= k < 5 /\
        (forall j, try <= j < k ->
           snd (lc_Listen env net
                  (Net.JoinHostPort host (Strconv.Itoa (tryPort ip j)))) <> None) /\
        lc_Listen env net (Net.JoinHostPort host (Strconv.Itoa (tryPort ip k)))
        = (ln, None)
    | None =>
      forall j, try <= j < 5 -> j < try + Z.of_nat fuel ->
        snd (lc_Listen env net
               (Net.JoinHostPort host (Strconv.Itoa (tryPort ip j)))) <> None
    end.
Proof.
  induction fuel as [|fuel IH]; intros try Htry; cbn [listen_loop].
  - intros j Hj Hf. lia.
  - destruct (Z.ltb_spec try 5) as [Hlt|Hge]; [|intros j Hj; lia].
    destruct (lc_Listen env net
                (Net.JoinHostPort host (Strconv.Itoa (tryPort ip try))))
      as [ln [e|]] eqn:Hl.
    + specialize (IH (try + 1) ltac:(lia)).
      destruct (listen_loop fuel (try + 1) env net host ip) as [ln'|].
      * destruct IH as (k & Hk & Hfail & Hok). exists k.
        split; [lia|]. split; [|exact Hok].
        intros j Hj. destruct (Z.eq_dec j try) as [->|Hne].
        -- rewrite Hl. discriminate.
        -- apply Hfail. lia.
      * intros j Hj Hf. destruct (Z.eq_dec j try) as [->|Hne].
        -- rewrite Hl. discriminate.
        -- apply IH; lia.
    + exists try. split; [lia|]. split; [intros j Hj; lia | exact Hl].
Qed.

(** X16.  The three ways [listen] ends.  Either the hook that prepares
    the listen configuration reports an error, which is returned and
    nothing is bound; or the candidates before some candidate [k] failed to
    bind and [k] bound, and its listener is returned; or all five
    candidates failed to bind and the result is that of binding port 0.
    So [listen] binds no address but those six, and it returns an error of
    a bind only after all five candidates failed. *)
Theorem listen_outcomes (env : ListenEnv) (s : peerAPIServer) (ip : IP) :
  (exists init e, initListenConfig env = Some init /\
                  init ip (tunName s) = Some e /\
                  listen env s ip = (None, Some e)) \/
  (hookOk env s ip /\
   exists k, 0 <= k < 5 /\
     (forall j, 0 <= j < k ->
        snd (lc_Listen env (bindNetwork ip) (candidateAddr env ip j)) <> None) /\
     snd (lc_Listen env (bindNetwork ip) (candidateAddr env ip k)) = None /\
     listen env s ip
     = (fst (lc_Listen env (bindNetwork ip) (candidateAddr env ip k)), None)) \/
  (hookOk env s ip /\
   (forall j, 0 <= j < 5 ->
      snd (lc_Listen env (bindNetwork ip) (candidateAddr env ip j)) <> None) /\
   listen env s ip
   = lc_Listen env (bindNetwork ip) (Net.JoinHostPort (bindHost env ip) "0")).
Proof.
  assert (Hhook : (exists init e, initListenConfig env = Some init /\
                                  init ip (tunName s) = Some e) \/
                  hookOk env s ip).
  { unfold hookOk. destruct (initListenConfig env) as [init|]; [|right; exact I].
    destruct (init ip (tunName s)) as [e|] eqn:He; [left; eauto | right; reflexivity]. }
  destruct Hhook as [(init & e & Hi & He)|Hok].
  - left. exists init, e. split; [exact Hi|]. split; [exact He|].
    unfold listen. rewrite Hi, He. reflexivity.
  - right. rewrite (listen_unfold _ _ _ Hok). unfold candidateAddr.
    pose proof (listen_loop_outcome env (bindNetwork ip) (bindHost env ip) ip 6 0
                  ltac:(lia)) as H.
    destruct (listen_loop 6 0 env (bindNetwork ip) (bindHost env ip) ip) as [ln|].
    + left. split; [exact Hok|].
      destruct H as (k & Hk & Hfail & Hbind). exists k.
      split; [exact Hk|]. split.
      { intros j Hj. rewrite <- tryPort_candidatePort. apply Hfail. exact Hj. }
      rewrite <- tryPort_candidatePort, Hbind. split; reflexivity.
    + right. split; [exact Hok|]. split; [|reflexivity].
      intros j Hj. rewrite <- tryPort_candidatePort. apply H; lia.
Qed.

(** * The accept loop *)

Lemma acceptTimes_empty (n : nat) :
  acceptTimes n {| ocl_conn := None |} = List.repeat (None, Some EOF) n.
Proof.
  induction n as [|n IH]; [reflexivity|].
  cbn [acceptTimes oneConnListener_Accept ocl_conn List.repeat]. now rewrite IH.
Qed.

(** X17.  The listener of one connection gives its connection out once.
    Of any number of calls of [Accept], one after the other, the first
    returns the connection and every later one returns [io.EOF]; on a
    listener without a connection every call returns [io.EOF]; [Close]
    returns no error. *)
Theorem oneConnListener_gives_once (c : Conn) (n : nat) :
  acceptTimes (S n) {| ocl_conn := Some c |}
  = (Some c, None) :: List.repeat (None, Some EOF) n /\
  acceptTimes n {| ocl_conn := None |} = List.repeat (None, Some EOF) n /\
  (forall l, oneConnListener_Close l = None).
Proof.
  split; [|split; [apply acceptTimes_empty | reflexivity]].
  cbn [acceptTimes oneConnListener_Accept ocl_conn].
  now rewrite acceptTimes_empty.
Qed.

Lemma serve_conn_SvServe env s c h c' :
  In (SvServe h c') (serve_conn env s c) ->
  c' = c /\ ps h = s /\
  isSelf h = (User (selfNode s) =? User (peerNode h)) /\
  exists ip port,
    RemoteAddr c = TCPAddr ip port /\
    FromStdAddr env ip port = Some (remoteAddr h) /\
    WhoIs env (remoteAddr h) = Some (peerNode h, peerUser h).
Proof.
  unfold serve_conn.
  destruct (RemoteAddr c) as [ip port|net] eqn:Ha.
  - destruct (FromStdAddr env ip port) as [ipp|] eqn:Hf.
    + destruct (WhoIs env ipp) as [[pn pu]|] eqn:Hw.
      * intros [H|[]]. inversion H; subst; clear H. simpl.
        repeat split. exists ip, port. repeat split; assumption.
      * intros [H|[H|[]]]; discriminate.
    + intros [H|[H|[]]]; discriminate.
  - intros [H|[H|[]]]; discriminate.
Qed.

Lemma serve_conn_disposed env s c :
  concat (map disposed (serve_conn env s c)) = [c].
Proof.
  unfold serve_conn.
  destruct (RemoteAddr c) as [ip port|net]; [|reflexivity].
  destruct (FromStdAddr env ip port) as [ipp|]; [|reflexivity].
  destruct (WhoIs env ipp) as [[pn pu]|]; reflexivity.
Qed.

Lemma serve_conn_open env s c : ~ In SvListenerClose (serve_conn env s c).
Proof using.
  unfold serve_conn.
  destruct (RemoteAddr c) as [ip port|net].
  - destruct (FromStdAddr env ip port) as [ipp|].
    + destruct (WhoIs env ipp) as [[pn pu]|].
      * intros [H|[]]; discriminate.
      * intros [H|[H|[]]]; discriminate.
    + intros [H|[H|[]]]; discriminate.
  - intros [H|[H|[]]]; discriminate.
Qed.

Lemma serve_loop_props env s accepts :
  (forall h c, In (SvServe h c) (fst (serve_loop env s accepts)) ->
     In c (acceptedConns accepts) /\ In (SvServe h c) (serve_conn env s c)) /\
  concat (map disposed (fst (serve_loop env s accepts))) = acceptedConns accepts /\
  snd (serve_loop env s accepts) = acceptFails accepts /\
  ~ In SvListenerClose (fst (serve_loop env s accepts)).
Proof using.
  induction accepts as [|a rest IH].
  - simpl. split; [intros h c []|]. split; [reflexivity|].
    split; [reflexivity | intros []].
  - destruct a as [c| |e].
    + cbn [serve_loop acceptedConns acceptFails existsb].
      destruct (serve_loop env s rest) as [evs returned].
      simpl fst in *. simpl snd in *.
      destruct IH as (I1 & I2 & I3 & I4).
      split; [|split; [|split]].
      * intros h c' Hin. apply in_app_or in Hin. destruct Hin as [Hin|Hin].
        -- pose proof (serve_conn_SvServe _ _ _ _ _ Hin) as (-> & _).
           split; [left; reflexivity | exact Hin].
        -- destruct (I1 _ _ Hin) as (A & B). split; [right; exact A | exact B].
      * rewrite map_app, concat_app, serve_conn_disposed, I2. reflexivity.
      * exact I3.
      * intros Hin. apply in_app_or in Hin. destruct Hin as [Hin|Hin];
          [exact (serve_conn_open _ _ _ Hin) | exact (I4 Hin)].
    + simpl. split; [intros h c []|]. split; [reflexivity|].
      split; [reflexivity | intros []].
    + simpl. split; [intros h c [H|[]]; discriminate|]. split; [reflexivity|].
      split; [reflexivity | intros [H|[]]; discriminate].
Qed.

Lemma serve_SvServe env pln h c :
  In (SvServe h c) (fst (serve env pln)) ->
  exists accepts,
    pln_ln pln = Some accepts /\ In c (acceptedConns accepts) /\
    In (SvServe h c) (serve_conn env (pln_ps pln) c).
Proof.
  unfold serve. destruct (pln_ln pln) as [accepts|]; [|intros []].
  pose proof (serve_loop_props env (pln_ps pln) accepts) as (I1 & _).
  destruct (serve_loop env (pln_ps pln) accepts) as [evs returned].
  simpl fst in *. intros Hin. exists accepts. split; [reflexivity|].
  apply I1. destruct returned; [|exact Hin].
  apply in_app_or in Hin. destruct Hin as [Hin|[H|[]]]; [exact Hin | discriminate].
Qed.

(** X18.  The identity of a handler.  Every handler that [serve] starts
    a server with is the handler of a connection that [Accept] returned,
    whose far end is a TCP address; the handler has the server of the
    listener, the address that [FromStdAddr] made of the far end, and the
    node and the user that [WhoIs] gives for that address; and it is
    marked as the owner's exactly when that node has the user of this
    node. *)
Theorem serve_handler_identity (env : ServeEnv) (pln : peerAPIListener)
        (h : peerAPIHandler) (c : Conn) :
  In (SvServe h c) (fst (serve env pln)) ->
  (exists accepts, pln_ln pln = Some accepts /\ In c (acceptedConns accepts)) /\
  ps h = pln_ps pln /\
  isSelf h = (User (selfNode (pln_ps pln)) =? User (peerNode h)) /\
  exists ip port,
    RemoteAddr c = TCPAddr ip port /\
    FromStdAddr env ip port = Some (remoteAddr h) /\
    WhoIs env (remoteAddr h) = Some (peerNode h, peerUser h).
Proof.
  intros Hin. apply serve_SvServe in Hin.
  destruct Hin as (accepts & Hln & Hacc & Hconn).
  apply serve_conn_SvServe in Hconn. destruct Hconn as (_ & H1 & H2 & H3).
  split; [eauto|]. auto.
Qed.

(** X19.  No connection is lost and none is handled twice.  With a
    listener, the connections that [serve] closes or gives to a server
    are, in their order and each once, the connections that [Accept]
    returned before its first error; [serve] returns exactly when a call
    of [Accept] returns an error, and then the last thing it does is to
    close the listener, which it does not close before.  Without a
    listener [serve] returns at once and does nothing. *)
Theorem serve_disposes_each_once (env : ServeEnv) (pln : peerAPIListener) :
  match pln_ln pln with
  | None => serve env pln = ([], true)
  | Some accepts =>
    concat (map disposed (fst (serve env pln))) = acceptedConns accepts /\
    snd (serve env pln) = acceptFails accepts /\
    exists evs,
      ~ In SvListenerClose evs /\
      fst (serve env pln)
      = if acceptFails accepts then evs ++ [SvListenerClose] else evs
  end.
Proof.
  unfold serve. destruct (pln_ln pln) as [accepts|]; [|reflexivity].
  pose proof (serve_loop_props env (pln_ps pln) accepts) as (_ & I2 & I3 & I4).
  destruct (serve_loop env (pln_ps pln) accepts) as [evs returned].
  simpl fst in *. simpl snd in *. subst returned.
  split; [|split; [reflexivity|]].
  - destruct (acceptFails accepts); [|exact I2].
    rewrite map_app, concat_app, I2. simpl. apply app_nil_r.
  - exists evs. split; [exact I4 | reflexivity].
Qed.

(** X20.  A peer of another user changes nothing.  A handler that
    [serve] started for a peer whose node has another user than this node
    answers every request on the upload route with 403, not owner, and
    leaves the state of the server as it was, whatever the request. *)
Theorem serve_stranger_changes_nothing (env : ServeEnv) (pln : peerAPIListener)
        (h : peerAPIHandler) (c : Conn) (r : Request) (w : World) :
  In (SvServe h c) (fst (serve env pln)) ->
  User (peerNode h) <> User (selfNode (pln_ps pln)) ->
  snd (ServeHTTP h r w) = w /\
  (GoStrings.HasPrefix (URL_Path r) "/v0/put/" = true ->
   fst (ServeHTTP h r w) = http_Error "not owner" StatusForbidden).
Proof.
  intros Hin Huser. apply serve_SvServe in Hin.
  destruct Hin as (accepts & _ & _ & Hconn).
  apply serve_conn_SvServe in Hconn. destruct Hconn as (_ & _ & Hself & _).
  assert (Hno : isSelf h = false).
  { rewrite Hself. apply Z.eqb_neq. congruence. }
  pose proof (handlePeerPut_rejections h r w) as H. cbv zeta in H.
  destruct H as (Hrej & _). specialize (Hrej Hno).
  unfold ServeHTTP.
  destruct (GoStrings.HasPrefix (URL_Path r) "/v0/put/").
  - rewrite Hrej. split; [reflexivity | intros _; reflexivity].
  - split; [reflexivity | discriminate].
Qed.

(** * Paths *)

Lemma list_ascii_append (a b : string) :
  list_ascii_of_string (a +:+ b) = list_ascii_of_string a ++ list_ascii_of_string b.
Proof.
  induction a as [|c a IH]; [reflexivity|].
  rewrite append_String. simpl. now rewrite IH.
Qed.

Lemma string_of_list_app (l1 l2 : list ascii) :
  string_of_list_ascii (l1 ++ l2) = string_of_list_ascii l1 +:+ string_of_list_ascii l2.
Proof.
  induction l1 as [|c l1 IH]; [reflexivity|].
  simpl. rewrite append_String. now rewrite IH.
Qed.

Lemma isDot_eq (c : ascii) : Path.isDot c = true -> c = "."%char.
Proof.
  unfold Path.isDot, Path.dot. intros H. apply Z.eqb_eq in H.
  rewrite <- (chr_byteZ c), H. reflexivity.
Qed.

Lemma isSlash_eq (c : ascii) : Path.isSlash c = true -> c = "/"%char.
Proof.
  unfold Path.isSlash, Path.slash. intros H. apply Z.eqb_eq in H.
  rewrite <- (chr_byteZ c), H. reflexivity.
Qed.

(** The inner loop of [Clean] copies an element up to its end. *)
Lemma cleanLoop_copy (rooted : bool) (dd : nat) (l : list ascii) :
  forall rout,
    (forall c, In c l -> Path.isSlash c = false) ->
    Path.cleanLoop l true rooted rout dd = rev l ++ rout.
Proof.
  induction l as [|c l IH]; intros rout Hl; [reflexivity|].
  cbn [Path.cleanLoop]. rewrite (Hl c) by (left; reflexivity).
  rewrite IH by (intros c' Hc'; apply Hl; right; exact Hc').
  simpl. now rewrite <- app_assoc.
Qed.

(** An element that is neither [.] nor [..] is copied, after a slash
    where one is due. *)
Lemma cleanLoop_simple (rooted : bool) (dd : nat) (l rout : list ascii) :
  l <> [] -> l <> ["."%char] -> l <> ["."%char; "."%char] ->
  (forall c, In c l -> Path.isSlash c = false) ->
  Path.cleanLoop l false rooted rout dd = rev l ++ withSlash rooted rout.
Proof.
  intros Hne Hdot Hdd Hl.
  destruct l as [|c r1]; [now elim Hne|].
  assert (Hc : Path.isSlash c = false) by (apply Hl; left; reflexivity).
  cbn [Path.cleanLoop]. rewrite Hc.
  assert (Hsep : Path.isDot c && Path.atSep r1 = false).
  { destruct (Path.isDot c) eqn:Ed; [|reflexivity]. simpl.
    destruct r1 as [|c1 r2].
    - apply isDot_eq in Ed. subst c. now elim Hdot.
    - simpl. apply Hl. right; left; reflexivity. }
  rewrite Hsep.
  fold (withSlash rooted rout).
  destruct r1 as [|c1 r2].
  - reflexivity.
  - assert (Hdots : Path.isDot c && Path.isDot c1 && Path.atSep r2 = false).
    { destruct (Path.isDot c) eqn:Ed; [|reflexivity].
      destruct (Path.isDot c1) eqn:Ed1; [|reflexivity]. simpl.
      destruct r2 as [|c2 r3].
      - apply isDot_eq in Ed, Ed1. subst c c1. now elim Hdd.
      - simpl. apply Hl. right; right; left; reflexivity. }
    rewrite Hdots.
    rewrite cleanLoop_copy by (intros c' Hc'; apply Hl; right; exact Hc').
    simpl. rewrite <- !app_assoc. reflexivity.
Qed.

Lemma atSep_app_slash (l1 l2 : list ascii) :
  Path.atSep (l1 ++ "/"%char :: l2) = Path.atSep l1.
Proof. destruct l1; reflexivity. Qed.

(** What comes after a slash is cleaned from the state that the part
    before the slash leaves, whose buffer is the result for that part. *)
Lemma cleanLoop_prefix (rooted : bool) (l2 : list ascii) (n : nat) :
  forall l1 cp rout dd,
    (length l1 <= n)%nat ->
    exists dd',
      Path.cleanLoop (l1 ++ "/"%char :: l2) cp rooted rout dd
      = Path.cleanLoop l2 false rooted (Path.cleanLoop l1 cp rooted rout dd) dd'.
Proof.
  induction n as [|n IH]; intros l1 cp rout dd Hlen.
  - destruct l1; [|simpl in Hlen; lia].
    exists dd. simpl. destruct cp; reflexivity.
  - destruct l1 as [|c r1].
    { exists dd. simpl. destruct cp; reflexivity. }
    simpl in Hlen.
    cbn [app Path.cleanLoop].
    destruct cp.
    { destruct (Path.isSlash c); apply IH; lia. }
    destruct (Path.isSlash c); [apply IH; lia|].
    rewrite atSep_app_slash.
    destruct (Path.isDot c && Path.atSep r1); [apply IH; lia|].
    destruct r1 as [|c1 r2].
    + cbn [app Path.cleanLoop].
      replace (Path.isDot c && Path.isDot "/" && Path.atSep l2) with false
        by (now rewrite andb_false_r).
      exists dd. reflexivity.
    + cbn [app]. rewrite atSep_app_slash. simpl in Hlen.
      destruct (Path.isDot c && Path.isDot c1 && Path.atSep r2).
      * destruct (dd <? length rout)%nat; [apply IH; lia|].
        destruct (negb rooted); apply IH; lia.
      * apply (IH (c1 :: r2)). simpl. lia.
Qed.

Lemma list_ascii_inj (a b : string) :
  list_ascii_of_string a = list_ascii_of_string b -> a = b.
Proof.
  intros H. rewrite <- (string_of_list_ascii_of_string a),
              <- (string_of_list_ascii_of_string b), H. reflexivity.
Qed.

Lemma simpleName_list (n : string) :
  simpleName n ->
  list_ascii_of_string n <> [] /\
  list_ascii_of_string n <> ["."%char] /\
  list_ascii_of_string n <> ["."%char; "."%char] /\
  (forall c, In c (list_ascii_of_string n) -> Path.isSlash c = false).
Proof.
  intros (H1 & H2 & H3 & H4).
  split; [intros E; apply H1; apply list_ascii_inj; exact E|].
  split; [intros E; apply H2; apply list_ascii_inj; exact E|].
  split; [intros E; apply H3; apply list_ascii_inj; exact E|].
  exact H4.
Qed.

Lemma rev_nonempty {A : Type} (l : list A) : l <> [] -> rev l <> [].
Proof.
  intros H E. apply H. rewrite <- (rev_involutive l), E. reflexivity.
Qed.

(** The string of a buffer of [Clean], with an element put after it. *)
Lemma string_of_rev_app (nl rout : list ascii) :
  nl <> [] ->
  match rev nl ++ rout with
  | [] => "."
  | _ => string_of_list_ascii (rev (rev nl ++ rout))
  end
  = string_of_list_ascii (rev rout) +:+ string_of_list_ascii nl.
Proof.
  intros Hne.
  destruct (rev nl ++ rout) eqn:E.
  - apply app_eq_nil in E. destruct E as (E & _).
    exfalso. exact (rev_nonempty _ Hne E).
  - rewrite <- E, rev_app_distr, rev_involutive. apply string_of_list_app.
Qed.

(** [Clean] of an element in a clean root. *)
Lemma Clean_child (root n : string) :
  root <> EmptyString -> Path.Clean root = root -> simpleName n ->
  Path.Clean (root +:+ "/" +:+ n) = childPath root n.
Proof.
  intros Hroot Hclean Hn.
  apply simpleName_list in Hn. destruct Hn as (N1 & N2 & N3 & N4).
  destruct root as [|c0 rest0]; [now elim Hroot|].
  unfold Path.Clean in *.
  rewrite !list_ascii_append. cbn [list_ascii_of_string app] in *.
  set (nl := list_ascii_of_string n) in *.
  set (l0 := list_ascii_of_string rest0) in *.
  change (chr Path.slash) with "/"%char in *.
  destruct (Path.isSlash c0) eqn:Hs.
  - apply isSlash_eq in Hs. subst c0.
    destruct (cleanLoop_prefix true nl (length l0) l0 false ["/"%char] 1%nat
                ltac:(lia)) as (dd' & ->).
    set (R := Path.cleanLoop l0 false true ["/"%char] 1) in *.
    rewrite cleanLoop_simple by assumption.
    rewrite string_of_rev_app by assumption.
    unfold nl. rewrite string_of_list_ascii_of_string.
    destruct R as [|r0 R'] eqn:ER; [discriminate|].
    unfold withSlash, childPath. cbn [andb negb orb].
    destruct (Nat.eqb_spec (length (r0 :: R')) 1) as [H1|H1];
      cbn [andb negb orb].
    + destruct R' as [|r1 R'']; [|simpl in H1; lia].
      simpl in Hclean. inversion Hclean; subst. reflexivity.
    + change (rev (chr Path.slash :: r0 :: R')) with (rev (r0 :: R') ++ ["/"%char]).
      rewrite string_of_list_app, Hclean.
      cbn [string_of_list_ascii].
      destruct (String.eqb_spec (String "/" rest0) "/") as [E|_].
      { exfalso. inversion E; subst rest0.
        assert (Hl := f_equal String.length Hclean).
        rewrite <- (string_of_list_ascii_of_string (String "/" EmptyString)) in Hl.
        apply H1. simpl in Hl.
        rewrite <- (length_rev (r0 :: R')).
        assert (Hlen : forall l, String.length (string_of_list_ascii l) = length l).
        { induction l as [|x l IHl]; simpl; congruence. }
        rewrite <- Hlen. exact Hl. }
      rewrite append_assoc. reflexivity.
  - destruct (cleanLoop_prefix false nl (length (c0 :: l0)) (c0 :: l0) false [] 0%nat
                ltac:(lia)) as (dd' & Hp).
    cbn [app] in Hp. rewrite Hp. clear Hp.
    set (R := Path.cleanLoop (c0 :: l0) false false [] 0) in *.
    rewrite cleanLoop_simple by assumption.
    rewrite string_of_rev_app by assumption.
    unfold nl. rewrite string_of_list_ascii_of_string.
    unfold withSlash, childPath. cbn [andb negb orb].
    destruct (String.eqb_spec (String c0 rest0) "/") as [E|_].
    { inversion E; subst. discriminate. }
    destruct R as [|r0 R'] eqn:ER.
    + rewrite <- Hclean. reflexivity.
    + cbn [length Nat.eqb negb].
      change (rev (chr Path.slash :: r0 :: R')) with (rev (r0 :: R') ++ ["/"%char]).
      rewrite string_of_list_app, Hclean.
      cbn [string_of_list_ascii].
      destruct (String.eqb_spec (String c0 rest0) ".") as [E|_].
      { exfalso. inversion E; subst. unfold R, l0 in ER. discriminate. }
      rewrite append_assoc. reflexivity.
Qed.

Lemma Clean_simple (n : string) : simpleName n -> Path.Clean n = n.
Proof.
  intros Hn. apply simpleName_list in Hn. destruct Hn as (N1 & N2 & N3 & N4).
  unfold Path.Clean.
  destruct (list_ascii_of_string n) as [|c rest] eqn:E; [now elim N1|].
  rewrite (N4 c) by (left; reflexivity).
  rewrite cleanLoop_simple by assumption.
  unfold withSlash. cbn [andb negb orb length Nat.eqb]. rewrite app_nil_r.
  destruct (rev (c :: rest)) eqn:Er.
  - exfalso. apply (rev_nonempty (c :: rest)); [discriminate | exact Er].
  - rewrite <- Er, rev_involutive, <- E. apply string_of_list_ascii_of_string.
Qed.

Lemma Clean_slash_child (n : string) :
  simpleName n -> Path.Clean ("/" +:+ n) = "/" +:+ n.
Proof.
  intros Hn. apply simpleName_list in Hn. destruct Hn as (N1 & N2 & N3 & N4).
  unfold Path.Clean.
  rewrite list_ascii_append. cbn [list_ascii_of_string app].
  change (Path.isSlash "/") with true. cbv iota.
  rewrite cleanLoop_simple by assumption.
  unfold withSlash. cbn [andb negb orb length Nat.eqb].
  change [chr Path.slash] with (rev ["/"%char]).
  rewrite <- rev_app_distr.
  destruct (rev (["/"%char] ++ list_ascii_of_string n)) eqn:Er.
  - exfalso. apply (rev_nonempty (["/"%char] ++ list_ascii_of_string n));
      [discriminate | exact Er].
  - rewrite <- Er, rev_involutive. cbn [app string_of_list_ascii].
    rewrite string_of_list_ascii_of_string. reflexivity.
Qed.

Lemma Clean_trailing_slash (root : string) :
  root <> EmptyString -> Path.Clean (root +:+ "/") = Path.Clean root.
Proof.
  intros Hroot. destruct root as [|c0 rest0]; [now elim Hroot|].
  unfold Path.Clean.
  rewrite list_ascii_append. cbn [list_ascii_of_string app].
  set (l0 := list_ascii_of_string rest0).
  destruct (Path.isSlash c0).
  - destruct (cleanLoop_prefix true [] (length l0) l0 false [chr Path.slash] 1%nat
                ltac:(lia)) as (dd' & ->).
    reflexivity.
  - destruct (cleanLoop_prefix false [] (length (c0 :: l0)) (c0 :: l0) false [] 0%nat
                ltac:(lia)) as (dd' & Hp).
    cbn [app] in Hp. rewrite Hp. reflexivity.
Qed.

Lemma Join_child (root n : string) :
  root <> EmptyString -> Path.Clean root = root -> simpleName n ->
  Filepath.Join root n = childPath root n.
Proof.
  intros Hroot Hclean Hn. unfold Filepath.Join, Filepath.Clean.
  apply String.eqb_neq in Hroot. rewrite Hroot. simpl negb. cbv iota.
  apply String.eqb_neq in Hroot. now apply Clean_child.
Qed.

Lemma childPath_clean (root n : string) :
  root <> EmptyString -> Path.Clean root = root -> simpleName n ->
  Path.Clean (childPath root n) = childPath root n.
Proof.
  intros Hroot Hclean Hn.
  pose proof (Clean_child root n Hroot Hclean Hn) as Hc.
  unfold childPath in *.
  destruct (String.eqb root "/"); [now apply Clean_slash_child|].
  destruct (String.eqb root "."); [now apply Clean_simple|].
  exact Hc.
Qed.

Lemma dropToSlash_app (l rest : list ascii) :
  (forall c, In c l -> Path.isSlash c = false) ->
  Filepath.dropToSlash (l ++ rest) = Filepath.dropToSlash rest.
Proof.
  induction l as [|c l IH]; intros Hl; [reflexivity|].
  simpl. rewrite (Hl c) by (left; reflexivity).
  apply IH. intros c' Hc'. apply Hl. right. exact Hc'.
Qed.

Lemma takeToSlash_app (l rest : list ascii) :
  (forall c, In c l -> Path.isSlash c = false) ->
  Filepath.takeToSlash (l ++ "/"%char :: rest) = l /\ Filepath.takeToSlash l = l.
Proof.
  induction l as [|c l IH]; intros Hl; [split; reflexivity|].
  simpl. rewrite (Hl c) by (left; reflexivity).
  destruct IH as (I1 & I2); [intros c' Hc'; apply Hl; right; exact Hc'|].
  now rewrite I1, I2.
Qed.

Lemma in_rev_slash (l : list ascii) :
  (forall c, In c l -> Path.isSlash c = false) ->
  forall c, In c (rev l) -> Path.isSlash c = false.
Proof. intros Hl c Hc. apply Hl. now apply in_rev. Qed.

(** The directory of an element of a clean root is the root. *)
Lemma Dir_child (root n : string) :
  root <> EmptyString -> Path.Clean root = root -> simpleName n ->
  Filepath.Dir (childPath root n) = root.
Proof.
  intros Hroot Hclean Hn.
  pose proof (simpleName_list n Hn) as (N1 & N2 & N3 & N4).
  pose proof (in_rev_slash _ N4) as N5.
  unfold Filepath.Dir, Filepath.Clean, childPath.
  destruct (String.eqb_spec root "/") as [->|Hr1].
  { rewrite list_ascii_append, rev_app_distr, dropToSlash_app by assumption.
    reflexivity. }
  destruct (String.eqb_spec root ".") as [->|Hr2].
  { rewrite <- (app_nil_r (rev (list_ascii_of_string n))).
    rewrite dropToSlash_app by assumption. reflexivity. }
  rewrite !list_ascii_append, !rev_app_distr.
  rewrite <- app_assoc, dropToSlash_app by assumption.
  cbn [list_ascii_of_string rev app Filepath.dropToSlash].
  change (Path.isSlash "/") with true. cbv iota.
  change ("/"%char :: rev (list_ascii_of_string root))
    with (rev ["/"%char] ++ rev (list_ascii_of_string root)).
  rewrite <- rev_app_distr, rev_involutive, string_of_list_app.
  rewrite string_of_list_ascii_of_string. cbn [string_of_list_ascii].
  rewrite Clean_trailing_slash by assumption. exact Hclean.
Qed.

Lemma base_list (nl rest : list ascii) :
  nl <> [] ->
  (forall c, In c nl -> Path.isSlash c = false) ->
  rest = [] \/ (exists r, rest = "/"%char :: r) ->
  match Filepath.takeToSlash (Filepath.dropTrailingSlashes (rev nl ++ rest)) with
  | [] => "/"
  | l => string_of_list_ascii (rev l)
  end = string_of_list_ascii nl.
Proof.
  intros Hne Hl Hrest.
  pose proof (in_rev_slash _ Hl) as Hr.
  destruct (rev nl) as [|c l] eqn:E.
  { exfalso. exact (rev_nonempty _ Hne E). }
  assert (Hc : Path.isSlash c = false) by (apply Hr; left; reflexivity).
  cbn [app Filepath.dropTrailingSlashes]. rewrite Hc.
  assert (Ht : Filepath.takeToSlash (c :: l ++ rest) = c :: l).
  { destruct Hrest as [->|(r & ->)].
    - rewrite app_nil_r. apply (takeToSlash_app (c :: l) [] Hr).
    - apply (takeToSlash_app (c :: l) r Hr). }
  rewrite Ht, <- E, rev_involutive. reflexivity.
Qed.

Lemma append_nonempty_r (p n : string) : n <> EmptyString -> p +:+ n <> EmptyString.
Proof.
  intros Hne E. apply (f_equal String.length) in E.
  rewrite length_append in E. destruct n; [now elim Hne | simpl in E; lia].
Qed.

(** The base of an element of a root is the element. *)
Lemma Base_child (root n : string) :
  simpleName n ->
  Filepath.Base (childPath root n) = n /\ Filepath.Base n = n.
Proof.
  intros Hn.
  pose proof (simpleName_list n Hn) as (N1 & _ & _ & N4).
  destruct Hn as (Hne & _).
  assert (Hsimple : Filepath.Base n = n).
  { unfold Filepath.Base. apply String.eqb_neq in Hne. rewrite Hne.
    rewrite <- (app_nil_r (rev (list_ascii_of_string n))).
    rewrite base_list by auto. apply string_of_list_ascii_of_string. }
  assert (Hchild : forall pre : string, Filepath.Base (pre +:+ "/" +:+ n) = n).
  { intros pre. unfold Filepath.Base.
    destruct (String.eqb_spec (pre +:+ "/" +:+ n) EmptyString) as [E|_].
    { exfalso. rewrite <- append_assoc in E.
      exact (append_nonempty_r _ _ Hne E). }
    rewrite !list_ascii_append, !rev_app_distr, <- app_assoc.
    cbn [list_ascii_of_string rev app].
    rewrite base_list by eauto. apply string_of_list_ascii_of_string. }
  split; [|exact Hsimple].
  unfold childPath.
  destruct (String.eqb root "/"); [exact (Hchild EmptyString)|].
  destruct (String.eqb root "."); [exact Hsimple | apply Hchild].
Qed.

Lemma childPath_not_root (root n : string) :
  simpleName n -> childPath root n <> root.
Proof.
  intros (Hne & Hdot & _). unfold childPath.
  destruct (String.eqb_spec root "/") as [->|_].
  { intros E. apply (f_equal String.length) in E.
    rewrite length_append in E. destruct n; [now elim Hne | simpl in E; lia]. }
  destruct (String.eqb_spec root ".") as [->|_]; [exact Hdot|].
  intros E. apply (f_equal String.length) in E.
  rewrite !length_append in E. simpl in E. lia.
Qed.

(** * Where an upload lands *)

Lemma gate_simple (s : peerAPIServer) (n : string) :
  snd (diskPath s n) = true -> simpleName n.
Proof.
  intros Hok.
  destruct (diskPath_true _ _ Hok) as (_ & _ & Hc & _ & _ & Hd & Hdd).
  split; [|split; [exact Hd|]; split; [exact Hdd|]].
  - intros ->. rewrite Clean_empty in Hc. discriminate.
  - intros c Hin. destruct (gate_bytes _ _ _ Hok Hin) as (_ & _ & Hrej).
    unfold Path.isSlash, Path.slash. apply Z.eqb_neq. intros E.
    apply Hrej. rewrite E. left. reflexivity.
Qed.

Lemma simple_partial (n : string) :
  simpleName n -> simpleName (n +:+ partialSuffix).
Proof.
  intros (Hne & _ & _ & Hsl).
  assert (Hlen : (8 <= String.length (n +:+ partialSuffix))%nat)
    by (rewrite length_append; simpl; lia).
  split; [intros E; rewrite E in Hlen; simpl in Hlen; lia|].
  split; [intros E; rewrite E in Hlen; simpl in Hlen; lia|].
  split; [intros E; rewrite E in Hlen; simpl in Hlen; lia|].
  intros c Hin. rewrite list_ascii_append in Hin.
  apply in_app_or in Hin. destruct Hin as [Hin|Hin]; [apply Hsl; exact Hin|].
  simpl in Hin.
  repeat (destruct Hin as [<-|Hin]; [reflexivity|]). destruct Hin.
Qed.

Lemma childPath_append (root n x : string) :
  childPath root n +:+ x = childPath root (n +:+ x).
Proof.
  unfold childPath.
  destruct (String.eqb root "/"); [apply append_assoc|].
  destruct (String.eqb root "."); [reflexivity|].
  now rewrite !append_assoc.
Qed.

Lemma childPath_length (root n : string) :
  String.length (childPath root n)
  = (String.length (childPath root EmptyString) + String.length n)%nat.
Proof.
  unfold childPath.
  destruct (String.eqb root "/"); [rewrite !length_append; simpl; lia|].
  destruct (String.eqb root "."); [reflexivity|].
  rewrite !length_append. simpl. lia.
Qed.

(** The destination of a request that passed the checks. *)
Lemma putAccepts_destination h r w n dstFile :
  putAccepts h r w n dstFile ->
  Path.Clean (rootDir (ps h)) = rootDir (ps h) ->
  simpleName n /\
  GoStrings.HasSuffix n partialSuffix = false /\
  simpleName (if directFileMode (ps h) then n +:+ partialSuffix else n) /\
  fst (diskPath (ps h) n) = childPath (rootDir (ps h)) n /\
  dstFile = childPath (rootDir (ps h))
              (if directFileMode (ps h) then n +:+ partialSuffix else n).
Proof.
  intros (_ & _ & _ & Hroot & suffix & p & _ & _ & _ & _ & Hd & ->) Hclean.
  assert (Hok : snd (diskPath (ps h) n) = true) by now rewrite Hd.
  pose proof (gate_simple _ _ Hok) as Hn.
  destruct (diskPath_true _ _ Hok) as (_ & _ & _ & Hsuf & Hj & _).
  rewrite Hd in Hj. simpl in Hj.
  rewrite (Join_child _ _ Hroot Hclean Hn) in Hj. subst p.
  split; [exact Hn|]. split; [exact Hsuf|].
  split; [destruct (directFileMode (ps h)); [now apply simple_partial | exact Hn]|].
  split; [rewrite Hd; reflexivity|].
  destruct (directFileMode (ps h)); [apply childPath_append | reflexivity].
Qed.

(** X22.  Where an upload lands.  On a server whose root is a clean
    path, the destination of a request that passed the checks is a clean
    path that lies directly in the root: its directory is the root, and
    its last element is the name of the request, followed by [.partial]
    in direct mode.  It is not the root itself. *)
Theorem upload_destination_in_root (h : peerAPIHandler) (r : Request) (w : World)
        (n dstFile : string) :
  putAccepts h r w n dstFile ->
  Path.Clean (rootDir (ps h)) = rootDir (ps h) ->
  resolve dstFile = dstFile /\
  Filepath.Dir dstFile = rootDir (ps h) /\
  Filepath.Base dstFile
  = (if directFileMode (ps h) then n +:+ partialSuffix else n) /\
  dstFile <> rootDir (ps h).
Proof.
  intros Hacc Hclean.
  pose proof Hacc as (_ & _ & _ & Hroot & _).
  destruct (putAccepts_destination _ _ _ _ _ Hacc Hclean)
    as (_ & _ & Hname & _ & ->).
  split; [now apply childPath_clean|].
  split; [now apply Dir_child|].
  split; [now apply Base_child | now apply childPath_not_root].
Qed.

(** X23.  In direct mode the final name is not touched.  On a server
    whose root is a clean path, an upload in direct mode changes nothing at
    the path of the name itself: what it writes, it writes to the
    [.partial] path, which is another path. *)
Theorem upload_direct_keeps_final (h : peerAPIHandler) (r : Request) (w : World)
        (n dstFile : string) :
  putAccepts h r w n dstFile ->
  Path.Clean (rootDir (ps h)) = rootDir (ps h) ->
  directFileMode (ps h) = true ->
  resolve (fst (diskPath (ps h) n)) <> resolve dstFile /\
  fs (snd (handlePeerPut h r w)) !! resolve (fst (diskPath (ps h) n))
  = fs w !! resolve (fst (diskPath (ps h) n)).
Proof.
  intros Hacc Hclean Hdirect.
  pose proof Hacc as (_ & _ & _ & Hroot & _).
  destruct (putAccepts_destination _ _ _ _ _ Hacc Hclean)
    as (Hn & _ & Hname & Hp & Hdst).
  rewrite Hdirect in Hname, Hdst.
  assert (Hne : resolve (fst (diskPath (ps h) n)) <> resolve dstFile).
  { rewrite Hp, Hdst. unfold resolve, Filepath.Clean.
    rewrite !childPath_clean by assumption.
    intros E. apply (f_equal String.length) in E.
    rewrite (childPath_length _ n), (childPath_length _ (n +:+ partialSuffix)) in E.
    rewrite length_append in E. simpl in E. lia. }
  split; [exact Hne|].
  apply (proj1 (handlePeerPut_files h r w n dstFile Hacc)). exact Hne.
Qed.

(** A file directly in a directory is among the entries of the
    directory. *)
Lemma listing_child (m : gmap string node) (root n : string) (nd : node) :
  root <> EmptyString -> Path.Clean root = root -> simpleName n ->
  m !! childPath root n = Some nd ->
  In (entryOf (childPath root n, nd)) (listing m root).
Proof.
  intros Hroot Hclean Hn Hm. unfold listing.
  apply in_map. apply list_elem_of_In. apply list_elem_of_filter. split.
  - cbn [fst]. unfold resolve, Filepath.Clean. rewrite Hclean.
    rewrite (Dir_child _ _ Hroot Hclean Hn), String.eqb_refl.
    pose proof (childPath_not_root root n Hn) as Hne.
    apply String.eqb_neq in Hne. rewrite Hne. exact I.
  - apply elem_of_map_to_list. exact Hm.
Qed.

Lemma canStat_name (w : World) (dir : string) (de : DirEntry) :
  ~ In (de_Name de) (statFault (faults w)) -> canStat w dir de = true.
Proof.
  intros Hno. unfold canStat, de_Info.
  destruct (existsb (String.eqb (de_Name de)) (statFault (faults w))) eqn:E;
    [|reflexivity].
  apply existsb_exists in E. destruct E as (x & Hin & Hx).
  apply String.eqb_eq in Hx. subst x. contradiction.
Qed.

(** X24.  An upload is listed.  On a server whose root is a clean path
    and that is not in direct mode, after an upload that was answered with
    200, whenever the staging directory opens and is read to its end,
    [hasFilesWaiting] answers true and [WaitingFiles] returns no error;
    and when the [Info] of the uploaded file does not fail, the listing of
    [WaitingFiles] has the name of the upload with the length of its body
    as its size. *)
Theorem upload_then_listed (h : peerAPIHandler) (r : Request) (w : World)
        (n dstFile : string) (f : DirStream) :
  putAccepts h r w n dstFile ->
  Path.Clean (rootDir (ps h)) = rootDir (ps h) ->
  directFileMode (ps h) = false ->
  status (fst (handlePeerPut h r w)) = StatusOK ->
  os_OpenDir 10 (rootDir (ps h)) (snd (handlePeerPut h r w)) = (Some f, None) ->
  snd (lastRead f) = EOF ->
  fst (hasFilesWaiting (ps h) (snd (handlePeerPut h r w))) = true /\
  snd (fst (WaitingFiles (ps h) (snd (handlePeerPut h r w)))) = None /\
  (~ In n (statFault (faults (snd (handlePeerPut h r w)))) ->
   In {| WaitingFile_Name := n;
         WaitingFile_Size :=
           Z.of_nat (length (if ContentLength r =? 0 then []
                             else bodyBytes (reqBody r))) |}
      (fst (fst (WaitingFiles (ps h) (snd (handlePeerPut h r w)))))).
Proof.
  intros Hacc Hclean Hdirect Hok Hopen Heof.
  pose proof Hacc as (_ & _ & _ & Hroot & _).
  destruct (putAccepts_destination _ _ _ _ _ Hacc Hclean)
    as (Hn & Hsuf & _ & _ & Hdst).
  rewrite Hdirect in Hdst.
  pose proof (handlePeerPut_files h r w n dstFile Hacc) as (_ & Hbody & _).
  specialize (Hbody Hok).
  pose proof (proj1 (handlePeerPut_knownEmpty h r w) Hok) as Hknown.
  set (w' := snd (handlePeerPut h r w)) in *.
  set (b := if ContentLength r =? 0 then [] else bodyBytes (reqBody r)) in *.
  rewrite Hdst in Hbody. unfold resolve, Filepath.Clean in Hbody.
  rewrite (childPath_clean _ _ Hroot Hclean Hn) in Hbody.
  pose proof (listing_child _ _ _ _ Hroot Hclean Hn Hbody) as Hin.
  destruct (os_OpenDir_EOF _ _ _ Hopen Heof) as (_ & Hscan).
  unfold scanned in Hscan.
  set (de := entryOf (childPath (rootDir (ps h)) n, Regular b)) in *.
  assert (Hde : de_Name de = n /\ de_IsRegular de = true /\
                de_Size de = Z.of_nat (length b)).
  { unfold de, entryOf. cbn [snd fst de_Name de_IsRegular de_Size].
    split; [apply Base_child; exact Hn | auto]. }
  destruct Hde as (D1 & D2 & D3).
  assert (Hwait : isWaiting de = true).
  { apply isWaiting_spec. rewrite D1. auto. }
  apply String.eqb_neq in Hroot.
  split; [|split].
  - unfold hasFilesWaiting. rewrite Hroot, Hdirect, Hknown, Hopen.
    simpl orb. cbv iota.
    rewrite hasFilesWaiting_loop_result, Hscan.
    apply existsb_exists. exists de. split; assumption.
  - unfold WaitingFiles. rewrite Hroot, Hdirect, Hopen.
    rewrite WaitingFiles_loop_result, Heof. reflexivity.
  - intros Hstat.
    unfold WaitingFiles. rewrite Hroot, Hdirect, Hopen.
    rewrite WaitingFiles_loop_result, Heof. cbn [fst app]. rewrite Hscan.
    replace {| WaitingFile_Name := n; WaitingFile_Size := Z.of_nat (length b) |}
      with (waitingOf de).
    + apply in_map. apply filter_In. split; [exact Hin|].
      unfold listed. rewrite Hwait. simpl.
      apply canStat_name. rewrite D1. exact Hstat.
    + unfold waitingOf. rewrite D1, D3.
      now rewrite (proj2 (Base_child (rootDir (ps h)) n Hn)).
Qed.

(** * The answers of the upload handler *)

(** X26.  The answers of [handlePeerPut].  The status of its answer is
    200, 400, 403, 405 or 500 and no other; the answer has the status 200
    exactly when it is the body of two braces and a line feed with that
    status; and an answer with another status than 200 and 500 leaves the
    state of the server as it was. *)
Theorem handlePeerPut_statuses (h : peerAPIHandler) (r : Request) (w : World) :
  In (status (fst (handlePeerPut h r w))) [200; 400; 403; 405; 500] /\
  (status (fst (handlePeerPut h r w)) = StatusOK <->
   fst (handlePeerPut h r w) = okResponse) /\
  (status (fst (handlePeerPut h r w)) <> StatusOK ->
   status (fst (handlePeerPut h r w)) <> StatusInternalServerError ->
   snd (handlePeerPut h r w) = w).
Proof.
  assert (Hrej : forall msg code,
            In code [400; 403; 405; 500] ->
            In (status (fst (http_Error msg code, w))) [200; 400; 403; 405; 500] /\
            (status (fst (http_Error msg code, w)) = StatusOK <->
             fst (http_Error msg code, w) = okResponse) /\
            (status (fst (http_Error msg code, w)) <> StatusOK ->
             status (fst (http_Error msg code, w)) <> StatusInternalServerError ->
             snd (http_Error msg code, w) = w)).
  { intros msg code Hcode. simpl fst. simpl snd. simpl status.
    split; [right; exact Hcode|]. split; [|reflexivity].
    split.
    - intros E. exfalso. rewrite E in Hcode. simpl in Hcode.
      repeat (destruct Hcode as [Hcode|Hcode]; [discriminate|]). exact Hcode.
    - intros E. apply (f_equal status) in E. exact E. }
  unfold handlePeerPut.
  destruct (isSelf h); simpl negb; cbv iota; [|apply Hrej; simpl; auto].
  destruct (hasCapFileSharing w); simpl negb; cbv iota; [|apply Hrej; simpl; auto].
  destruct (String.eqb (Method r) "PUT"); simpl negb; cbv iota;
    [|apply Hrej; simpl; auto].
  destruct (String.eqb (rootDir (ps h)) EmptyString); [apply Hrej; simpl; auto|].
  destruct (String.eqb (GoStrings.TrimPrefix (URL_EscapedPath r) "/v0/put/")
                       (URL_EscapedPath r)); [apply Hrej; simpl; auto 6|].
  destruct (String.eqb (GoStrings.TrimPrefix (URL_EscapedPath r) "/v0/put/")
                       EmptyString); [apply Hrej; simpl; auto|].
  destruct (GoStrings.Contains (GoStrings.TrimPrefix (URL_EscapedPath r) "/v0/put/")
                               "/"); [apply Hrej; simpl; auto|].
  destruct (Url.PathUnescape (GoStrings.TrimPrefix (URL_EscapedPath r) "/v0/put/"))
    as [baseName|]; [|apply Hrej; simpl; auto].
  destruct (diskPath (ps h) baseName) as [dstFile0 ok].
  destruct ok; simpl negb; cbv iota; [|apply Hrej; simpl; auto].
  set (dstFile := if directFileMode (ps h) then dstFile0 +:+ partialSuffix
                  else dstFile0).
  destruct (os_Create dstFile w) as [[e|] w1].
  { simpl. split; [auto 6|]. split; [split; discriminate|].
    intros _ H500. now elim H500. }
  destruct (putTransfer h r baseName dstFile w1) as [[resp success] w2] eqn:Ht.
  apply putTransfer_props in Ht. destruct Ht as (Pf & Ps).
  simpl fst. simpl snd.
  destruct success.
  - destruct (Ps eq_refl) as (-> & _). simpl.
    split; [auto|]. split; [split; reflexivity|]. intros H; now elim H.
  - destruct (Pf eq_refl) as (H500 & _). rewrite H500.
    split; [simpl; auto 6|]. split.
    + split; [discriminate|]. intros ->. discriminate.
    + intros _ H. now elim H.
Qed.

End PeerAPI.

(** * Concrete runs *)

Lemma ex_put_accepts (r : Request) (w : World) :
  Method r = "PUT" -> URL_EscapedPath r = "/v0/put/hello.txt" ->
  capFileSharing w = true ->
  putAccepts ex_printRanges ex_handler r w "hello.txt" ex_dst.
Proof.
  intros Hm Hp Hc. split; [reflexivity|]. split; [exact Hc|].
  split; [exact Hm|]. split; [discriminate|].
  exists "hello.txt", ex_dst. rewrite Hp.
  split; [reflexivity|]. split; [discriminate|].
  split; [reflexivity|]. split; [reflexivity|].
  split; [vm_compute; reflexivity | reflexivity].
Qed.

Lemma run_eq {A B : Type} (p : A * B) : p = (fst p, snd p).
Proof. destruct p; reflexivity. Qed.

(** ** C1 on names *)

Example diskPath_examples :
  map (fun n => diskPath ex_printRanges ex_server n)
      ["hello.txt"; "."; ".."; "a/b"; "x.partial"; " x"; "a:b"; EmptyString]
  = [(ex_dst, true); (EmptyString, false); (EmptyString, false);
     (EmptyString, false); (EmptyString, false); (EmptyString, false);
     (EmptyString, false); (EmptyString, false)].
Proof. vm_compute. reflexivity. Qed.

(** ** C2: a failed upload *)

(** The connection drops after the first chunk: the answer is 500 and
    the progress notification of the first [Write] has been sent.  With a
    file in the way that cannot be opened, [os.Create] fails: 500, and the
    file is still there.  When the removal of the destination is refused,
    its error is dropped and the file with the first chunk stays. *)
Lemma put_failure_counterexample :
  (status (fst (handlePeerPut ex_printRanges ex_handler ex_put_dropped ex_world))
   = StatusInternalServerError /\
   events ex_world = [] /\
   In (EvNotify FromWrite)
      (events (snd (handlePeerPut ex_printRanges ex_handler ex_put_dropped ex_world)))) /\
  (status (fst (handlePeerPut ex_printRanges ex_handler ex_put ex_world_readonly))
   = StatusInternalServerError /\
   fs (snd (handlePeerPut ex_printRanges ex_handler ex_put ex_world_readonly))
     !! resolve ex_dst = Some (Regular (ex_bytes "old"))) /\
  (status (fst (handlePeerPut ex_printRanges ex_handler ex_put_dropped ex_world_locked))
   = StatusInternalServerError /\
   fs (snd (handlePeerPut ex_printRanges ex_handler ex_put_dropped ex_world_locked))
     !! resolve ex_dst = Some (Regular (ex_bytes "hi"))).
Proof. vm_compute. repeat split; auto. Qed.

Lemma put_failure_cleanup_witness :
  (putAccepts ex_printRanges ex_handler ex_put_dropped ex_world "hello.txt" ex_dst /\
   status (fst (handlePeerPut ex_printRanges ex_handler ex_put_dropped ex_world))
   <> StatusOK) /\
  (status (fst (handlePeerPut ex_printRanges ex_handler ex_put_dropped ex_world))
   = StatusInternalServerError /\
   knownEmpty (snd (handlePeerPut ex_printRanges ex_handler ex_put_dropped ex_world))
   = knownEmpty ex_world /\
   onlyProgress ex_world
     (snd (handlePeerPut ex_printRanges ex_handler ex_put_dropped ex_world)) /\
   (fst (os_Create ex_dst ex_world) <> None ->
    snd (handlePeerPut ex_printRanges ex_handler ex_put_dropped ex_world) = ex_world) /\
   (fst (os_Create ex_dst ex_world) = None -> removeBusy (faults ex_world) = [] ->
    fs (snd (handlePeerPut ex_printRanges ex_handler ex_put_dropped ex_world))
      !! resolve ex_dst = None)).
Proof.
  assert (Hacc : putAccepts ex_printRanges ex_handler ex_put_dropped ex_world
                   "hello.txt" ex_dst)
    by (apply ex_put_accepts; reflexivity).
  assert (Hst : status (fst (handlePeerPut ex_printRanges ex_handler
                               ex_put_dropped ex_world)) <> StatusOK)
    by (vm_compute; discriminate).
  split; [split; [exact Hacc | exact Hst]|].
  exact (put_failure_cleanup ex_printRanges ex_handler ex_put_dropped ex_world
           "hello.txt" ex_dst _ _ Hacc (run_eq _) Hst).
Defined.

(** ** C3: an upload read back *)

Lemma put_then_open_roundtrip_witness :
  (putAccepts ex_printRanges ex_handler ex_put ex_world "hello.txt" ex_dst /\
   directFileMode (ps ex_handler) = false /\
   (ContentLength ex_put = 0 -> bodyBytes (reqBody ex_put) = []) /\
   status (fst (handlePeerPut ex_printRanges ex_handler ex_put ex_world)) = StatusOK) /\
  exists f,
    OpenFile ex_printRanges (ps ex_handler) "hello.txt"
      (snd (handlePeerPut ex_printRanges ex_handler ex_put ex_world))
    = (Some f, Z.of_nat (length (bodyBytes (reqBody ex_put))), None) /\
    io_ReadAll f = (bodyBytes (reqBody ex_put), None).
Proof.
  assert (Hacc : putAccepts ex_printRanges ex_handler ex_put ex_world
                   "hello.txt" ex_dst)
    by (apply ex_put_accepts; reflexivity).
  assert (Hwf : ContentLength ex_put = 0 -> bodyBytes (reqBody ex_put) = [])
    by (simpl; discriminate).
  assert (Hok : status (fst (handlePeerPut ex_printRanges ex_handler ex_put ex_world))
                = StatusOK) by (vm_compute; reflexivity).
  split; [split; [exact Hacc|]; split; [reflexivity|]; split; [exact Hwf | exact Hok]|].
  exact (put_then_open_roundtrip ex_printRanges ex_handler ex_put ex_world
           "hello.txt" ex_dst _ _ Hacc eq_refl Hwf (run_eq _) Hok).
Defined.

Example put_then_open_run :
  let w' := snd (handlePeerPut ex_printRanges ex_handler ex_put ex_world) in
  OpenFile ex_printRanges ex_server "hello.txt" w'
  = (Some {| File_path := ex_dst; File_node := Regular (ex_bytes ("hi" +:+ nl)) |},
     3, None) /\
  fst (WaitingFiles ex_server w')
  = ([{| WaitingFile_Name := "hello.txt"; WaitingFile_Size := 3 |}], None) /\
  events w' = [EvRegister 1 true; EvRead 3; EvNotify FromWrite; EvRead 0;
               EvNotify FromPut; EvRegister 1 false] /\
  knownEmpty w' = false.
Proof. vm_compute. repeat split. Qed.

(** ** C4: the ports of an address *)

Lemma small_cases_2 (j : Z) : 0 <= j < 2 -> j = 0 \/ j = 1.
Proof. lia. Qed.

Lemma small_cases_5 (j : Z) : 0 <= j < 5 -> j = 0 \/ j = 1 \/ j = 2 \/ j = 3 \/ j = 4.
Proof. lia. Qed.

Lemma listen_candidate_ports_witness :
  map (candidatePort ex_peer_ip) [0; 1; 2; 3; 4] = [49521; 43846; 38175; 65320; 59821] /\
  listen ex_GOOS ex_IP_String ex_listen_env ex_server ex_peer_ip
  = (Some {| ln_network := "tcp4"; ln_address := "100.64.0.7:38175" |}, None) /\
  listen ex_GOOS ex_IP_String ex_listen_env_busy ex_server ex_peer_ip
  = (Some {| ln_network := "tcp4"; ln_address := "100.64.0.7:0" |}, None).
Proof.
  split; [vm_compute; reflexivity|]. split.
  - refine (proj1 (proj2 (listen_candidate_ports ex_GOOS ex_IP_String
                            ex_listen_env ex_server ex_peer_ip)) I 2 _ _ _).
    + lia.
    + intros j Hj.
      destruct (small_cases_2 j Hj) as [->| ->]; vm_compute; discriminate.
    + vm_compute. reflexivity.
  - refine (proj2 (proj2 (listen_candidate_ports ex_GOOS ex_IP_String
                            ex_listen_env_busy ex_server ex_peer_ip)) I _).
    intros j Hj.
    destruct (small_cases_5 j Hj) as [->|[->|[->|[->| ->]]]];
      vm_compute; discriminate.
Defined.

(** ** C5 and C7: the cache and the scan *)

Lemma knownEmpty_transitions_witness :
  (knownEmpty ex_world_polled = false /\
   knownEmpty (runOp ex_GOOS ex_printRanges ex_IP_String ex_server
                 OpHasFilesWaiting ex_world_polled) = true) /\
  observedEmpty ex_server ex_world_polled /\
  knownEmpty (snd (ServeHTTP ex_printRanges ex_IP_String ex_handler ex_put ex_world))
  = false.
Proof.
  assert (H0 : knownEmpty ex_world_polled = false) by reflexivity.
  assert (H1 : knownEmpty (runOp ex_GOOS ex_printRanges ex_IP_String ex_server
                             OpHasFilesWaiting ex_world_polled) = true)
    by (vm_compute; reflexivity).
  split; [split; assumption|]. split.
  - exact (proj2 (proj1 (knownEmpty_transitions ex_GOOS ex_printRanges ex_IP_String
                           ex_server ex_world_polled) OpHasFilesWaiting H0 H1)).
  - refine (proj2 (knownEmpty_transitions ex_GOOS ex_printRanges ex_IP_String
                     ex_server ex_world) ex_handler ex_put _ _);
      vm_compute; reflexivity.
Defined.

(** A directory that holds a partial file and nothing else is seen
    without a waiting file: the scan sets the cache. *)
Example knownEmpty_partial_only :
  hasFilesWaiting ex_server ex_world_partial
  = (false, setKnownEmpty true ex_world_partial) /\
  map de_Name (listing (fs ex_world_partial) ex_root) = ["movie.mp4.partial"].
Proof. vm_compute. split; reflexivity. Qed.

Lemma hasFilesWaiting_spec_witness :
  hasFilesWaiting ex_server ex_world = (false, ex_world) /\
  exists f,
    os_OpenDir 10 (rootDir ex_server) ex_world_uploaded = (Some f, None) /\
    (fst (hasFilesWaiting ex_server ex_world_uploaded) = true <->
     exists de, In de (scanned f) /\ de_IsRegular de = true /\
                GoStrings.HasSuffix (de_Name de) partialSuffix = false).
Proof.
  split.
  - refine (proj1 (hasFilesWaiting_spec ex_server ex_world) _).
    right. right. reflexivity.
  - eexists. split; [vm_compute; reflexivity|].
    refine (proj2 (proj2 (hasFilesWaiting_spec ex_server ex_world_uploaded))
              _ _ _ _ _).
    + discriminate.
    + reflexivity.
    + reflexivity.
    + vm_compute. reflexivity.
Defined.

Example hasFilesWaiting_runs :
  fst (hasFilesWaiting ex_server ex_world_uploaded) = true /\
  fst (hasFilesWaiting ex_server ex_world_polled) = false.
Proof. vm_compute. split; reflexivity. Qed.

(** ** C6: a GET from a stranger *)

Lemma handlePeerPut_rejection_order_witness :
  isSelf ex_stranger = false /\
  Method (ex_get "/v0/put/x") = "GET" /\
  handlePeerPut ex_printRanges ex_stranger (ex_get "/v0/put/x") ex_world
  = (http_Error "not owner" 403, ex_world).
Proof.
  split; [reflexivity|]. split; [reflexivity|].
  exact (proj1 (handlePeerPut_rejection_order ex_printRanges ex_stranger
                  (ex_get "/v0/put/x") ex_world) eq_refl).
Defined.

Example handlePeerPut_rejections_run :
  map (fun hr => status (fst (handlePeerPut ex_printRanges (fst hr) (snd hr) ex_world)))
      [(ex_stranger, ex_get "/v0/put/x");
       (ex_handler, ex_get "/v0/put/x");
       (ex_handler, {| Method := "PUT"; URL_Path := "/v0/put/"; URL_EscapedPath := "/v0/put/";
                       ContentLength := 0; reqBody := {| bodyReads := []; bodyEnd := EOF |} |});
       (ex_handler, {| Method := "PUT"; URL_Path := "/v0/put/a/b"; URL_EscapedPath := "/v0/put/a%2Fb";
                       ContentLength := 0; reqBody := {| bodyReads := []; bodyEnd := EOF |} |});
       (ex_handler, {| Method := "PUT"; URL_Path := "/v0/put/a/b"; URL_EscapedPath := "/v0/put/a/b";
                       ContentLength := 0; reqBody := {| bodyReads := []; bodyEnd := EOF |} |});
       (ex_handler, {| Method := "PUT"; URL_Path := "/v0/put/.."; URL_EscapedPath := "/v0/put/..";
                       ContentLength := 0; reqBody := {| bodyReads := []; bodyEnd := EOF |} |});
       (ex_handler, {| Method := "PUT"; URL_Path := "/v0/put/x"; URL_EscapedPath := "/v0/%70ut/x";
                       ContentLength := 0; reqBody := {| bodyReads := []; bodyEnd := EOF |} |})]
  = [403; 405; 400; 400; 400; 400; 500].
Proof. vm_compute. reflexivity. Qed.

(** ** C8: deleting what is not there *)

Lemma DeleteFile_nonexistent_witness :
  (rootDir ex_server <> EmptyString /\
   directFileMode ex_server = false /\
   diskPath ex_printRanges ex_server "hello.txt" = (ex_dst, true) /\
   fs ex_world !! resolve ex_dst = None) /\
  DeleteFile ex_GOOS ex_printRanges ex_server "hello.txt" ex_world = (None, ex_world).
Proof.
  assert (H1 : rootDir ex_server <> EmptyString) by discriminate.
  assert (H2 : diskPath ex_printRanges ex_server "hello.txt" = (ex_dst, true))
    by (vm_compute; reflexivity).
  assert (H3 : fs ex_world !! resolve ex_dst = None) by (vm_compute; reflexivity).
  split; [split; [exact H1|]; split; [reflexivity|]; split; [exact H2 | exact H3]|].
  exact (DeleteFile_nonexistent ex_GOOS ex_printRanges ex_server "hello.txt" ex_dst
           ex_world H1 eq_refl H2 H3).
Defined.

Example DeleteFile_runs :
  fst (DeleteFile "windows" ex_printRanges ex_server "hello.txt" ex_world) = None /\
  fs (snd (DeleteFile ex_GOOS ex_printRanges ex_server "hello.txt" ex_world_uploaded))
    !! ex_dst = None /\
  fs ex_world_uploaded !! ex_dst = Some (Regular (ex_bytes ("hi" +:+ nl))).
Proof. vm_compute. repeat split. Qed.

Example DeleteFile_retry_runs :
  fst (DeleteFile "windows" ex_printRanges ex_server "hello.txt" ex_world_busy) = None /\
  fs (snd (DeleteFile "windows" ex_printRanges ex_server "hello.txt" ex_world_busy))
    !! ex_dst = None /\
  now (snd (DeleteFile "windows" ex_printRanges ex_server "hello.txt" ex_world_busy))
  = now ex_world_busy + 330 * Millisecond /\
  fst (DeleteFile ex_GOOS ex_printRanges ex_server "hello.txt" ex_world_busy)
  = Some (PathError "remove" "redact" EBUSY).
Proof. vm_compute. repeat split. Qed.

(** ** C9: the greeting *)

(** The page names the device of the peer, [laptop], and not the local
    node, [home-server]. *)
Lemma greeting_device_counterexample :
  ComputedName (selfNode (ps ex_handler)) = "home-server" /\
  ComputedName (peerNode ex_handler) = "laptop" /\
  GoStrings.Contains
    (body (fst (ServeHTTP ex_printRanges ex_IP_String ex_handler (ex_get "/") ex_world)))
    "home-server" = false /\
  GoStrings.Contains
    (body (fst (ServeHTTP ex_printRanges ex_IP_String ex_handler (ex_get "/") ex_world)))
    "Your device is laptop." = true.
Proof. vm_compute. repeat split. Qed.

Lemma greeting_escaped_witness :
  ((forall ip, noZone ip = true -> plainAddr (ex_IP_String ip) = true) /\
   noZone (IPPort_IP (remoteAddr ex_handler)) = true /\
   GoStrings.HasPrefix (URL_Path (ex_get "/")) "/v0/put/" = false /\
   DisplayName (peerUser ex_handler) = "<Alice>" /\
   isSelf ex_handler = true) /\
  snd (ServeHTTP ex_printRanges ex_IP_String ex_handler (ex_get "/") ex_world) = ex_world /\
  Html.EscapeString (ex_IP_String (IPPort_IP (remoteAddr ex_handler)))
  = ex_IP_String (IPPort_IP (remoteAddr ex_handler)) /\
  GoStrings.Contains
    (body (fst (ServeHTTP ex_printRanges ex_IP_String ex_handler (ex_get "/") ex_world)))
    "&lt;Alice&gt;" = true /\
  GoStrings.Contains
    (body (fst (ServeHTTP ex_printRanges ex_IP_String ex_handler (ex_get "/") ex_world)))
    "<Alice>" = false /\
  GoStrings.Contains
    (body (fst (ServeHTTP ex_printRanges ex_IP_String ex_handler (ex_get "/") ex_world)))
    ownerMarker = true.
Proof.
  assert (Htext : forall ip, noZone ip = true -> plainAddr (ex_IP_String ip) = true)
    by (intros ip _; reflexivity).
  pose proof (greeting_escaped ex_printRanges ex_IP_String ex_handler (ex_get "/")
                ex_world Htext eq_refl eq_refl) as H.
  cbv zeta in H. destruct H as (H1 & _ & _ & H4 & _ & H6 & H7 & H8).
  split; [split; [exact Htext | repeat split]|].
  split; [exact H1|]. split; [exact H4|]. split; [exact (H6 eq_refl)|].
  split; [exact H7|]. exact (proj2 H8 eq_refl).
Defined.

(** ** C10: an upload of no byte *)

(** The upload of no byte passes every check, and [os.Create] fails: the
    answer is 500, no file is created, the cache stays set and nothing is
    notified.  When the close fails the answer is 500 as well, and the
    file that was created is removed again. *)
Lemma put_zero_length_counterexample :
  (putAccepts ex_printRanges ex_handler ex_put_empty ex_world_denied "hello.txt" ex_dst /\
   ContentLength ex_put_empty = 0 /\
   status (fst (handlePeerPut ex_printRanges ex_handler ex_put_empty ex_world_denied))
   = StatusInternalServerError /\
   snd (handlePeerPut ex_printRanges ex_handler ex_put_empty ex_world_denied)
   = ex_world_denied /\
   fs ex_world_denied !! resolve ex_dst = None /\
   knownEmpty ex_world_denied = true /\
   events ex_world_denied = []) /\
  (putAccepts ex_printRanges ex_handler ex_put_empty ex_world_noclose "hello.txt" ex_dst /\
   status (fst (handlePeerPut ex_printRanges ex_handler ex_put_empty ex_world_noclose))
   = StatusInternalServerError /\
   snd (handlePeerPut ex_printRanges ex_handler ex_put_empty ex_world_noclose)
   = ex_world_noclose).
Proof.
  split; (split; [apply ex_put_accepts; reflexivity|]).
  - vm_compute. repeat split.
  - split; [vm_compute; reflexivity|].
    vm_compute. reflexivity.
Qed.

Lemma put_zero_length_witness :
  (putAccepts ex_printRanges ex_handler ex_put_empty ex_world "hello.txt" ex_dst /\
   ContentLength ex_put_empty = 0) /\
  incomingFiles (snd (handlePeerPut ex_printRanges ex_handler ex_put_empty ex_world))
  = incomingFiles ex_world /\
  fst (handlePeerPut ex_printRanges ex_handler ex_put_empty ex_world) = okResponse /\
  fs (snd (handlePeerPut ex_printRanges ex_handler ex_put_empty ex_world))
  = <[resolve ex_dst := Regular []]> (fs ex_world) /\
  knownEmpty (snd (handlePeerPut ex_printRanges ex_handler ex_put_empty ex_world)) = false /\
  events (snd (handlePeerPut ex_printRanges ex_handler ex_put_empty ex_world))
  = events ex_world ++ [EvNotify FromPut].
Proof.
  assert (Hacc : putAccepts ex_printRanges ex_handler ex_put_empty ex_world
                   "hello.txt" ex_dst)
    by (apply ex_put_accepts; reflexivity).
  split; [split; [exact Hacc | reflexivity]|].
  destruct (put_zero_length ex_printRanges ex_handler ex_put_empty ex_world
              "hello.txt" ex_dst _ _ Hacc eq_refl (run_eq _)) as (H1 & _ & H3).
  split; [exact H1|].
  apply H3; vm_compute; reflexivity.
Defined.

(** In direct mode the upload of no byte lands in the partial file and
    no notification of [markAndNotifyDone] is sent. *)
Example put_zero_length_direct :
  let srv := {| rootDir := ex_root; tunName := "tailscale0";
                selfNode := selfNode ex_server; directFileMode := true |} in
  let h := {| ps := srv; remoteAddr := remoteAddr ex_handler; isSelf := true;
              peerNode := peerNode ex_handler; peerUser := peerUser ex_handler |} in
  let run := handlePeerPut ex_printRanges h ex_put_empty ex_world in
  fst run = okResponse /\
  events (snd run) = [EvNotify FromPut] /\
  fs (snd run) !! "/var/lib/tailscale/files/hello.txt.partial" = Some (Regular []) /\
  events (snd (handlePeerPut ex_printRanges h ex_put ex_world))
  = [EvRegister 1 true; EvRead 3; EvNotify FromWrite; EvRead 0;
     EvNotify FromDone; EvNotify FromPut; EvRegister 1 false].
Proof. vm_compute. repeat split. Qed.

(** * Concrete runs of the further properties *)

Lemma run_eq4 {A B C D : Type} (p : A * B * C * D) :
  p = (fst (fst (fst p)), snd (fst (fst p)), snd (fst p), snd p).
Proof. destruct p as [[[a b] c] d]; reflexivity. Qed.

(** ** The staging store *)

Lemma WaitingFiles_lists_waiting_witness :
  (rootDir ex_server <> EmptyString /\ directFileMode ex_server = false /\
   os_OpenDir 10 (rootDir ex_server) ex_world_gone
   = (Some (readDirStream 10 ex_root ex_world_gone), None) /\
   snd (lastRead (readDirStream 10 ex_root ex_world_gone)) = EOF) /\
  fst (WaitingFiles ex_server ex_world_gone)
  = (map waitingOf
         (List.filter (listed ex_world_gone (rootDir ex_server))
                      (listing (fs ex_world_gone) (rootDir ex_server))),
     None) /\
  (statFault (faults ex_world_gone) = [] ->
   fst (WaitingFiles ex_server ex_world_gone)
   = (map waitingOf
          (List.filter isWaiting (listing (fs ex_world_gone) (rootDir ex_server))),
      None)).
Proof.
  assert (H1 : rootDir ex_server <> EmptyString) by discriminate.
  assert (H3 : os_OpenDir 10 (rootDir ex_server) ex_world_gone
               = (Some (readDirStream 10 ex_root ex_world_gone), None))
    by (vm_compute; reflexivity).
  assert (H4 : snd (lastRead (readDirStream 10 ex_root ex_world_gone)) = EOF)
    by (vm_compute; reflexivity).
  split; [split; [exact H1|]; split; [reflexivity|]; split; [exact H3 | exact H4]|].
  exact (WaitingFiles_lists_waiting ex_server ex_world_gone _ H1 eq_refl H3 H4).
Defined.

(** A listing; a directory with a partial file only; a directory that
    cannot be read; and a file whose [Info] fails, which the listing
    leaves out while the poll, which does not call [Info], counts it. *)
Example WaitingFiles_runs :
  fst (WaitingFiles ex_server ex_world_uploaded)
  = ([{| WaitingFile_Name := "hello.txt"; WaitingFile_Size := 3 |}], None) /\
  fst (WaitingFiles ex_server ex_world_partial) = ([], None) /\
  fst (WaitingFiles ex_server
         (setFaults {| createFault := None; writeQuota := None; closeFault := None;
                       removeBusy := []; readdirFault := Some 0%nat;
                       statFault := [] |}
                    ex_world_uploaded))
  = ([], Some (PathError "readdirent" ex_root EIO)) /\
  fst (WaitingFiles ex_server ex_world_gone)
  = ([{| WaitingFile_Name := "hello.txt"; WaitingFile_Size := 3 |}], None) /\
  fst (WaitingFiles ex_server
         (setFaults {| createFault := None; writeQuota := None; closeFault := None;
                       removeBusy := []; readdirFault := None;
                       statFault := ["hello.txt"] |}
                    ex_world_uploaded))
  = ([], None) /\
  fst (hasFilesWaiting ex_server
         (setFaults {| createFault := None; writeQuota := None; closeFault := None;
                       removeBusy := []; readdirFault := None;
                       statFault := ["hello.txt"] |}
                    ex_world_uploaded))
  = true.
Proof. vm_compute. repeat split. Qed.

Lemma hasFilesWaiting_agrees_WaitingFiles_witness :
  (knownEmpty ex_world_gone = false /\
   fst (WaitingFiles ex_server ex_world_gone)
   = ([{| WaitingFile_Name := "hello.txt"; WaitingFile_Size := 3 |}], None)) /\
  ([{| WaitingFile_Name := "hello.txt"; WaitingFile_Size := 3 |}] <> [] ->
   fst (hasFilesWaiting ex_server ex_world_gone) = true) /\
  ((forall de, In de (listing (fs ex_world_gone) (rootDir ex_server)) ->
               isWaiting de = true ->
               canStat ex_world_gone (rootDir ex_server) de = true) ->
   fst (hasFilesWaiting ex_server ex_world_gone) = true ->
   [{| WaitingFile_Name := "hello.txt"; WaitingFile_Size := 3 |}] <> []).
Proof.
  assert (H2 : fst (WaitingFiles ex_server ex_world_gone)
               = ([{| WaitingFile_Name := "hello.txt"; WaitingFile_Size := 3 |}], None))
    by (vm_compute; reflexivity).
  split; [split; [reflexivity | exact H2]|].
  exact (hasFilesWaiting_agrees_WaitingFiles ex_server ex_world_gone _ eq_refl H2).
Defined.

(** ** Deleting *)

Lemma DeleteFile_removes_witness :
  fst (DeleteFile ex_GOOS ex_printRanges ex_server "hello.txt" ex_world_uploaded)
  = None /\
  snd (diskPath ex_printRanges ex_server "hello.txt") = true /\
  fs (snd (DeleteFile ex_GOOS ex_printRanges ex_server "hello.txt" ex_world_uploaded))
  = delete (resolve (fst (diskPath ex_printRanges ex_server "hello.txt")))
           (fs ex_world_uploaded) /\
  knownEmpty (snd (DeleteFile ex_GOOS ex_printRanges ex_server "hello.txt"
                     ex_world_uploaded))
  = knownEmpty ex_world_uploaded /\
  incomingFiles (snd (DeleteFile ex_GOOS ex_printRanges ex_server "hello.txt"
                        ex_world_uploaded))
  = incomingFiles ex_world_uploaded /\
  events (snd (DeleteFile ex_GOOS ex_printRanges ex_server "hello.txt"
                 ex_world_uploaded))
  = events ex_world_uploaded.
Proof.
  assert (H : fst (DeleteFile ex_GOOS ex_printRanges ex_server "hello.txt"
                     ex_world_uploaded) = None) by (vm_compute; reflexivity).
  split; [exact H|].
  exact (DeleteFile_removes ex_GOOS ex_printRanges ex_server "hello.txt"
           ex_world_uploaded H).
Defined.

Lemma DeleteFile_error_redacted_witness :
  fst (DeleteFile ex_GOOS ex_printRanges ex_server "hello.txt" ex_world_busy)
  = Some (PathError "remove" "redact" EBUSY) /\
  (PathError "remove" "redact" EBUSY
   = errorString "peerapi disabled; no storage configured" \/
   PathError "remove" "redact" EBUSY
   = errorString "deletes not allowed in direct mode" \/
   PathError "remove" "redact" EBUSY = errorString "bad filename" \/
   exists errno, PathError "remove" "redact" EBUSY
                 = PathError "remove" "redact" errno /\ errno <> ENOENT) /\
  fs (snd (DeleteFile ex_GOOS ex_printRanges ex_server "hello.txt" ex_world_busy))
  = fs ex_world_busy.
Proof.
  assert (H : fst (DeleteFile ex_GOOS ex_printRanges ex_server "hello.txt"
                     ex_world_busy)
              = Some (PathError "remove" "redact" EBUSY))
    by (vm_compute; reflexivity).
  split; [exact H|].
  exact (DeleteFile_error_redacted ex_GOOS ex_printRanges ex_server "hello.txt"
           ex_world_busy _ H).
Defined.

Lemma DeleteFile_windows_waits_witness :
  ("windows" = "windows" /\
   fst (DeleteFile "windows" ex_printRanges ex_server "hello.txt" ex_world_stuck)
   = Some (PathError "remove" "redact" EBUSY)) /\
  10 * Second
  <= now (snd (DeleteFile "windows" ex_printRanges ex_server "hello.txt"
                 ex_world_stuck))
     - now ex_world_stuck.
Proof.
  assert (H : fst (DeleteFile "windows" ex_printRanges ex_server "hello.txt"
                     ex_world_stuck)
              = Some (PathError "remove" "redact" EBUSY))
    by (vm_compute; reflexivity).
  split; [split; [reflexivity | exact H]|].
  exact (DeleteFile_windows_waits "windows" ex_printRanges ex_server "hello.txt"
           ex_world_stuck _ _ _ eq_refl H).
Defined.

(** The three refused attempts of four seconds and the two pauses of the
    backoff between them, of 10 and 20 ms. *)
Example DeleteFile_stuck_runs :
  now (snd (DeleteFile "windows" ex_printRanges ex_server "hello.txt" ex_world_stuck))
  - now ex_world_stuck = 12 * Second + 30 * Millisecond /\
  now (snd (DeleteFile ex_GOOS ex_printRanges ex_server "hello.txt" ex_world_stuck))
  - now ex_world_stuck = 4 * Second.
Proof. vm_compute. split; reflexivity. Qed.

Lemma DeleteFile_then_OpenFile_witness :
  fst (DeleteFile ex_GOOS ex_printRanges ex_server "hello.txt" ex_world_uploaded)
  = None /\
  (exists e,
     OpenFile ex_printRanges ex_server "hello.txt"
       (snd (DeleteFile ex_GOOS ex_printRanges ex_server "hello.txt"
               ex_world_uploaded))
     = (None, 0, Some e) /\ IsNotExist e = true) /\
  (forall m,
     resolve (fst (diskPath ex_printRanges ex_server m))
     <> resolve (fst (diskPath ex_printRanges ex_server "hello.txt")) ->
     OpenFile ex_printRanges ex_server m
       (snd (DeleteFile ex_GOOS ex_printRanges ex_server "hello.txt"
               ex_world_uploaded))
     = OpenFile ex_printRanges ex_server m ex_world_uploaded).
Proof.
  assert (H : fst (DeleteFile ex_GOOS ex_printRanges ex_server "hello.txt"
                     ex_world_uploaded) = None) by (vm_compute; reflexivity).
  split; [exact H|].
  exact (DeleteFile_then_OpenFile ex_GOOS ex_printRanges ex_server "hello.txt"
           ex_world_uploaded H).
Defined.

Lemma DeleteFile_twice_witness :
  fst (DeleteFile ex_GOOS ex_printRanges ex_server "hello.txt" ex_world_uploaded)
  = None /\
  DeleteFile ex_GOOS ex_printRanges ex_server "hello.txt"
    (snd (DeleteFile ex_GOOS ex_printRanges ex_server "hello.txt" ex_world_uploaded))
  = (None,
     snd (DeleteFile ex_GOOS ex_printRanges ex_server "hello.txt" ex_world_uploaded)).
Proof.
  assert (H : fst (DeleteFile ex_GOOS ex_printRanges ex_server "hello.txt"
                     ex_world_uploaded) = None) by (vm_compute; reflexivity).
  split; [exact H|].
  exact (DeleteFile_twice ex_GOOS ex_printRanges ex_server "hello.txt"
           ex_world_uploaded H).
Defined.

(** ** Uploads *)

Lemma ex_put_slow_goes_on : timeGoesOn (reqBody ex_put_slow).
Proof.
  unfold timeGoesOn, ex_put_slow, Second, Millisecond. simpl.
  repeat constructor; simpl; lia.
Qed.

Lemma handlePeerPut_progress_paced_witness :
  timeGoesOn (reqBody ex_put_slow) /\
  notifyCount FromWrite ex_world
  <= notifyCount FromWrite
       (snd (handlePeerPut ex_printRanges ex_handler ex_put_slow ex_world)) /\
  (notifyCount FromWrite
     (snd (handlePeerPut ex_printRanges ex_handler ex_put_slow ex_world))
   - notifyCount FromWrite ex_world - 1) * Second
  <= now (snd (handlePeerPut ex_printRanges ex_handler ex_put_slow ex_world))
     - now ex_world.
Proof.
  split; [exact ex_put_slow_goes_on|].
  exact (handlePeerPut_progress_paced ex_printRanges ex_handler ex_put_slow ex_world
           ex_put_slow_goes_on).
Defined.

(** The first read is notified at once, the second, two seconds later,
    too; the third comes half a second after the second and is not. *)
Example handlePeerPut_slow_runs :
  let w' := snd (handlePeerPut ex_printRanges ex_handler ex_put_slow ex_world) in
  status (fst (handlePeerPut ex_printRanges ex_handler ex_put_slow ex_world)) = 200 /\
  events w' = [EvRegister 1 true; EvRead 2; EvNotify FromWrite;
               EvRead 2; EvNotify FromWrite; EvRead 2; EvRead 0;
               EvNotify FromPut; EvRegister 1 false] /\
  notifyCount FromWrite w' = 2 /\
  now w' - now ex_world = 2500 * Millisecond /\
  incomingFiles w' = incomingFiles ex_world.
Proof. vm_compute. repeat split. Qed.

Lemma handlePeerPut_only_destination_witness :
  putAccepts ex_printRanges ex_handler ex_put ex_world "hello.txt" ex_dst /\
  (forall q, q <> resolve ex_dst ->
     fs (snd (handlePeerPut ex_printRanges ex_handler ex_put ex_world)) !! q
     = fs ex_world !! q) /\
  (status (fst (handlePeerPut ex_printRanges ex_handler ex_put ex_world)) = StatusOK ->
   fs (snd (handlePeerPut ex_printRanges ex_handler ex_put ex_world)) !! resolve ex_dst
   = Some (Regular (if ContentLength ex_put =? 0 then []
                    else bodyBytes (reqBody ex_put)))) /\
  (status (fst (handlePeerPut ex_printRanges ex_handler ex_put ex_world)) <> StatusOK ->
   snd (handlePeerPut ex_printRanges ex_handler ex_put ex_world) = ex_world \/
   fs (snd (handlePeerPut ex_printRanges ex_handler ex_put ex_world)) !! resolve ex_dst
   = None \/
   exists d rest,
     bodyBytes (reqBody ex_put) = d ++ rest /\
     fs (snd (handlePeerPut ex_printRanges ex_handler ex_put ex_world)) !! resolve ex_dst
     = Some (Regular d)).
Proof.
  assert (Hacc : putAccepts ex_printRanges ex_handler ex_put ex_world
                   "hello.txt" ex_dst)
    by (apply ex_put_accepts; reflexivity).
  split; [exact Hacc|].
  exact (handlePeerPut_only_destination ex_printRanges ex_handler ex_put ex_world
           "hello.txt" ex_dst Hacc).
Defined.

Lemma io_Copy_snapshot_witness :
  (incomingFiles ex_world_copying !! 1%positive = Some ex_upload /\
   fs ex_world_copying !! resolve (IncomingFile.w ex_upload) = Some (Regular [])) /\
  let run := io_Copy 1 ex_upload [(5, ex_bytes "hi"); (5, ex_bytes "!!")] EOF 0
               ex_world_copying in
  incomingFiles (snd run) !! 1%positive = Some (snd (fst run)) /\
  PartialFile_Received (incomingFile_PartialFile (snd (fst run)))
  = PartialFile_Received (incomingFile_PartialFile ex_upload) + fst (fst (fst run)) /\
  PartialFile_Name (incomingFile_PartialFile (snd (fst run)))
  = PartialFile_Name (incomingFile_PartialFile ex_upload) /\
  PartialFile_Started (incomingFile_PartialFile (snd (fst run)))
  = PartialFile_Started (incomingFile_PartialFile ex_upload) /\
  PartialFile_DeclaredSize (incomingFile_PartialFile (snd (fst run)))
  = PartialFile_DeclaredSize (incomingFile_PartialFile ex_upload) /\
  PartialFile_PartialPath (incomingFile_PartialFile (snd (fst run)))
  = PartialFile_PartialPath (incomingFile_PartialFile ex_upload) /\
  PartialFile_Done (incomingFile_PartialFile (snd (fst run)))
  = PartialFile_Done (incomingFile_PartialFile ex_upload) /\
  exists d,
    fs (snd run) !! resolve (IncomingFile.w ex_upload) = Some (Regular ([] ++ d)) /\
    Z.of_nat (length d) = fst (fst (fst run)).
Proof.
  assert (H1 : incomingFiles ex_world_copying !! 1%positive = Some ex_upload)
    by (vm_compute; reflexivity).
  assert (H2 : fs ex_world_copying !! resolve (IncomingFile.w ex_upload)
               = Some (Regular [])) by (vm_compute; reflexivity).
  split; [split; [exact H1 | exact H2]|].
  exact (io_Copy_snapshot 1 ex_upload _ EOF ex_world_copying _ _ _ _ [] H1 H2
           (run_eq4 _)).
Defined.

Example io_Copy_runs :
  let run := io_Copy 1 ex_upload [(5, ex_bytes "hi"); (5, ex_bytes "!!")] EOF 0
               ex_world_copying in
  fst (fst run) = (4, None) /\
  incomingFile_PartialFile (snd (fst run))
  = {| PartialFile_Name := "hello.txt"; PartialFile_Started := 1000;
       PartialFile_DeclaredSize := 4; PartialFile_Received := 4;
       PartialFile_PartialPath := EmptyString; PartialFile_Done := false |} /\
  fs (snd run) !! ex_dst = Some (Regular (ex_bytes "hi!!")).
Proof. vm_compute. repeat split. Qed.

(** ** The gate *)

Lemma diskPath_accepted_bytes_witness :
  (snd (diskPath ex_printRanges ex_server "hello.txt") = true /\
   In "h"%char (list_ascii_of_string "hello.txt")) /\
  32 <= byteZ "h" /\ byteZ "h" <> 127 /\ ~ In (byteZ "h") rejectSet.
Proof.
  assert (H1 : snd (diskPath ex_printRanges ex_server "hello.txt") = true)
    by (vm_compute; reflexivity).
  assert (H2 : In "h"%char (list_ascii_of_string "hello.txt"))
    by (left; reflexivity).
  split; [split; [exact H1 | exact H2]|].
  exact (diskPath_accepted_bytes ex_printRanges ex_server "hello.txt" "h" H1 H2).
Defined.

Lemma handlePeerPut_unsafe_name_witness :
  (URL_EscapedPath ex_put_encoded = "/v0/put/" +:+ "a%2Fb" /\
   Url.PathUnescape "a%2Fb" = Some "a/b" /\
   In "/"%char (list_ascii_of_string "a/b") /\
   (byteZ "/" < 32 \/ byteZ "/" = 127 \/ In (byteZ "/") rejectSet)) /\
  snd (handlePeerPut ex_printRanges ex_handler ex_put_encoded ex_world) = ex_world /\
  status (fst (handlePeerPut ex_printRanges ex_handler ex_put_encoded ex_world))
  <> StatusOK /\
  (isSelf ex_handler = true -> hasCapFileSharing ex_world = true ->
   Method ex_put_encoded = "PUT" -> rootDir (ps ex_handler) <> EmptyString ->
   status (fst (handlePeerPut ex_printRanges ex_handler ex_put_encoded ex_world))
   = 400).
Proof.
  assert (H2 : Url.PathUnescape "a%2Fb" = Some "a/b") by (vm_compute; reflexivity).
  assert (H3 : In "/"%char (list_ascii_of_string "a/b"))
    by (right; left; reflexivity).
  assert (H4 : byteZ "/" < 32 \/ byteZ "/" = 127 \/ In (byteZ "/") rejectSet)
    by (right; right; left; reflexivity).
  split; [split; [reflexivity|]; split; [exact H2|]; split; [exact H3 | exact H4]|].
  exact (handlePeerPut_unsafe_name ex_printRanges ex_handler ex_put_encoded ex_world
           "a%2Fb" "a/b" "/" eq_refl H2 H3 H4).
Defined.

(** ** The ports *)

Lemma tryPort_last_three_bytes_witness :
  Z.land (lo ex_peer_ip) 0xFFFFFF = Z.land (lo ex_peer_ip6) 0xFFFFFF /\
  tryPort ex_peer_ip 0 = tryPort ex_peer_ip6 0.
Proof.
  split; [reflexivity|].
  exact (tryPort_last_three_bytes ex_peer_ip ex_peer_ip6 0 eq_refl).
Defined.

Example tryPort_runs :
  map (tryPort ex_peer_ip6) [0; 1; 2; 3; 4] = [49521; 43846; 38175; 65320; 59821] /\
  Is6 ex_peer_ip6 = true /\ Is6 ex_peer_ip = false.
Proof. vm_compute. repeat split. Qed.

(** ** The accept loop *)

Example serve_runs :
  serve ex_serve_env ex_pln
  = ([SvServe ex_handler (ex_conn 1 7);
      SvClose {| conn_id := 2; RemoteAddr := OtherAddr "unix" |};
      SvLog (LogUnexpectedRemoteAddr (OtherAddr "unix"));
      SvServe ex_tablet (ex_conn 3 8);
      SvLog (LogUnknownPeer
               {| IPPort_IP := {| hi := 0; lo := 0xFFFF64400009; z := z4 |};
                  IPPort_Port := 51234 |});
      SvClose (ex_conn 4 9);
      SvLog (LogAccept (errorString "too many open files"));
      SvListenerClose], true).
Proof. vm_compute. reflexivity. Qed.

Lemma serve_handler_identity_witness :
  In (SvServe ex_tablet (ex_conn 3 8)) (fst (serve ex_serve_env ex_pln)) /\
  (exists accepts, pln_ln ex_pln = Some accepts /\
                   In (ex_conn 3 8) (acceptedConns accepts)) /\
  ps ex_tablet = pln_ps ex_pln /\
  isSelf ex_tablet = (User (selfNode (pln_ps ex_pln)) =? User (peerNode ex_tablet)) /\
  exists ip port,
    RemoteAddr (ex_conn 3 8) = TCPAddr ip port /\
    FromStdAddr ex_serve_env ip port = Some (remoteAddr ex_tablet) /\
    WhoIs ex_serve_env (remoteAddr ex_tablet)
    = Some (peerNode ex_tablet, peerUser ex_tablet).
Proof.
  assert (H : In (SvServe ex_tablet (ex_conn 3 8)) (fst (serve ex_serve_env ex_pln)))
    by (rewrite serve_runs; simpl; auto).
  split; [exact H|].
  exact (serve_handler_identity ex_serve_env ex_pln ex_tablet (ex_conn 3 8) H).
Defined.

Lemma serve_stranger_changes_nothing_witness :
  (In (SvServe ex_tablet (ex_conn 3 8)) (fst (serve ex_serve_env ex_pln)) /\
   User (peerNode ex_tablet) <> User (selfNode (pln_ps ex_pln))) /\
  snd (ServeHTTP ex_printRanges ex_IP_String ex_tablet ex_put ex_world) = ex_world /\
  (GoStrings.HasPrefix (URL_Path ex_put) "/v0/put/" = true ->
   fst (ServeHTTP ex_printRanges ex_IP_String ex_tablet ex_put ex_world)
   = http_Error "not owner" StatusForbidden).
Proof.
  assert (H : In (SvServe ex_tablet (ex_conn 3 8)) (fst (serve ex_serve_env ex_pln)))
    by (rewrite serve_runs; simpl; auto).
  assert (H2 : User (peerNode ex_tablet) <> User (selfNode (pln_ps ex_pln)))
    by discriminate.
  split; [split; [exact H | exact H2]|].
  exact (serve_stranger_changes_nothing ex_printRanges ex_IP_String ex_serve_env
           ex_pln ex_tablet (ex_conn 3 8) ex_put ex_world H H2).
Defined.

(** ** Where an upload lands *)

Lemma ex_put_accepts_direct :
  putAccepts ex_printRanges ex_handler_direct ex_put ex_world "hello.txt"
    ex_dst_partial.
Proof.
  split; [reflexivity|]. split; [reflexivity|].
  split; [reflexivity|]. split; [discriminate|].
  exists "hello.txt", ex_dst.
  split; [reflexivity|]. split; [discriminate|].
  split; [reflexivity|]. split; [reflexivity|].
  split; [vm_compute; reflexivity | reflexivity].
Qed.

Lemma upload_destination_in_root_witness :
  (putAccepts ex_printRanges ex_handler_direct ex_put ex_world "hello.txt"
     ex_dst_partial /\
   Path.Clean (rootDir (ps ex_handler_direct)) = rootDir (ps ex_handler_direct)) /\
  resolve ex_dst_partial = ex_dst_partial /\
  Filepath.Dir ex_dst_partial = rootDir (ps ex_handler_direct) /\
  Filepath.Base ex_dst_partial
  = (if directFileMode (ps ex_handler_direct) then "hello.txt" +:+ partialSuffix
     else "hello.txt") /\
  ex_dst_partial <> rootDir (ps ex_handler_direct).
Proof.
  assert (H2 : Path.Clean (rootDir (ps ex_handler_direct))
               = rootDir (ps ex_handler_direct)) by (vm_compute; reflexivity).
  split; [split; [exact ex_put_accepts_direct | exact H2]|].
  exact (upload_destination_in_root ex_printRanges ex_handler_direct ex_put ex_world
           "hello.txt" ex_dst_partial ex_put_accepts_direct H2).
Defined.

Lemma upload_direct_keeps_final_witness :
  (putAccepts ex_printRanges ex_handler_direct ex_put ex_world_uploaded "hello.txt"
     ex_dst_partial /\
   Path.Clean (rootDir (ps ex_handler_direct)) = rootDir (ps ex_handler_direct) /\
   directFileMode (ps ex_handler_direct) = true) /\
  resolve (fst (diskPath ex_printRanges (ps ex_handler_direct) "hello.txt"))
  <> resolve ex_dst_partial /\
  fs (snd (handlePeerPut ex_printRanges ex_handler_direct ex_put ex_world_uploaded))
    !! resolve (fst (diskPath ex_printRanges (ps ex_handler_direct) "hello.txt"))
  = fs ex_world_uploaded
      !! resolve (fst (diskPath ex_printRanges (ps ex_handler_direct) "hello.txt")).
Proof.
  assert (H1 : putAccepts ex_printRanges ex_handler_direct ex_put ex_world_uploaded
                 "hello.txt" ex_dst_partial).
  { destruct ex_put_accepts_direct as (A & _ & B). split; [exact A|].
    split; [reflexivity | exact B]. }
  assert (H2 : Path.Clean (rootDir (ps ex_handler_direct))
               = rootDir (ps ex_handler_direct)) by (vm_compute; reflexivity).
  split; [split; [exact H1|]; split; [exact H2 | reflexivity]|].
  exact (upload_direct_keeps_final ex_printRanges ex_handler_direct ex_put
           ex_world_uploaded "hello.txt" ex_dst_partial H1 H2 eq_refl).
Defined.

(** An upload in direct mode beside a file of the same name that was
    there before: the file stays, the upload is at the partial path. *)
Example upload_direct_runs :
  let w' := snd (handlePeerPut ex_printRanges ex_handler_direct ex_put
                   ex_world_uploaded) in
  fs w' !! ex_dst = Some (Regular (ex_bytes ("hi" +:+ nl))) /\
  fs w' !! ex_dst_partial = Some (Regular (ex_bytes ("hi" +:+ nl))) /\
  fst (WaitingFiles ex_server_direct w') = ([], None).
Proof. vm_compute. repeat split. Qed.

Lemma upload_then_listed_witness :
  (putAccepts ex_printRanges ex_handler ex_put ex_world "hello.txt" ex_dst /\
   Path.Clean (rootDir (ps ex_handler)) = rootDir (ps ex_handler) /\
   directFileMode (ps ex_handler) = false /\
   status (fst (handlePeerPut ex_printRanges ex_handler ex_put ex_world)) = StatusOK /\
   os_OpenDir 10 (rootDir (ps ex_handler))
     (snd (handlePeerPut ex_printRanges ex_handler ex_put ex_world))
   = (Some (readDirStream 10 ex_root
              (snd (handlePeerPut ex_printRanges ex_handler ex_put ex_world))), None) /\
   snd (lastRead (readDirStream 10 ex_root
                    (snd (handlePeerPut ex_printRanges ex_handler ex_put ex_world))))
   = EOF) /\
  fst (hasFilesWaiting (ps ex_handler)
         (snd (handlePeerPut ex_printRanges ex_handler ex_put ex_world))) = true /\
  snd (fst (WaitingFiles (ps ex_handler)
              (snd (handlePeerPut ex_printRanges ex_handler ex_put ex_world)))) = None /\
  (~ In "hello.txt"
        (statFault (faults (snd (handlePeerPut ex_printRanges ex_handler ex_put
                                   ex_world)))) ->
   In {| WaitingFile_Name := "hello.txt";
         WaitingFile_Size :=
           Z.of_nat (length (if ContentLength ex_put =? 0 then []
                             else bodyBytes (reqBody ex_put))) |}
      (fst (fst (WaitingFiles (ps ex_handler)
                   (snd (handlePeerPut ex_printRanges ex_handler ex_put ex_world)))))).
Proof.
  assert (H1 : putAccepts ex_printRanges ex_handler ex_put ex_world "hello.txt" ex_dst)
    by (apply ex_put_accepts; reflexivity).
  assert (H2 : Path.Clean (rootDir (ps ex_handler)) = rootDir (ps ex_handler))
    by (vm_compute; reflexivity).
  assert (H4 : status (fst (handlePeerPut ex_printRanges ex_handler ex_put ex_world))
               = StatusOK) by (vm_compute; reflexivity).
  assert (H5 : os_OpenDir 10 (rootDir (ps ex_handler))
                 (snd (handlePeerPut ex_printRanges ex_handler ex_put ex_world))
               = (Some (readDirStream 10 ex_root
                          (snd (handlePeerPut ex_printRanges ex_handler ex_put
                                  ex_world))), None))
    by (vm_compute; reflexivity).
  assert (H6 : snd (lastRead (readDirStream 10 ex_root
                      (snd (handlePeerPut ex_printRanges ex_handler ex_put ex_world))))
               = EOF) by (vm_compute; reflexivity).
  split; [split; [exact H1|]; split; [exact H2|]; split; [reflexivity|];
          split; [exact H4|]; split; [exact H5 | exact H6]|].
  exact (upload_then_listed ex_printRanges ex_handler ex_put ex_world "hello.txt"
           ex_dst _ H1 H2 eq_refl H4 H5 H6).
Defined.

(** ** The library models on examples *)

Example ex_clean : map Path.Clean ["a/b/../c"; "/../a//b/."; EmptyString; "../../x/.."; "a/.."; ".partial"; "x "]
  = ["a/c"; "/a/b"; "."; "../.."; "."; ".partial"; "x "].
Proof. vm_compute. reflexivity. Qed.
Example ex_join : map (fun p => Filepath.Join (fst p) (snd p)) [("/var/lib", "f.txt"); (EmptyString, "f"); ("/v/", "..")] = ["/var/lib/f.txt"; "f"; "/"].
Proof. vm_compute. reflexivity. Qed.
Example ex_base : map Filepath.Base ["/a/b.txt"; "/a/b/"; "///"; "x"] = ["b.txt"; "b"; "/"; "x"].
Proof. vm_compute. reflexivity. Qed.
Example ex_dir : map Filepath.Dir ["/a/b.txt"; "/a/b/"; "x"; "/x"] = ["/a"; "/a/b"; "."; "/"].
Proof. vm_compute. reflexivity. Qed.
Example ex_crc : Crc32.ChecksumIEEE [49;50;51;52;53;54;55;56;57] = 0xCBF43926.
Proof. vm_compute. reflexivity. Qed.
Example ex_itoa : map Strconv.Itoa [0; 80; 65535] = ["0"; "80"; "65535"].
Proof. vm_compute. reflexivity. Qed.
Example ex_trim : map GoStringsTrim.TrimSpace [" a b "; "x"; "   "; "a" +:+ nl] = ["a b"; "x"; EmptyString; "a"].
Proof. vm_compute. reflexivity. Qed.
Example ex_unesc : map Url.PathUnescape ["a%2Fb"; "a%2"; "a+b%41"; "%zz"] = [Some "a/b"; None; Some "a+bA"; None].
Proof. vm_compute. reflexivity. Qed.
Example ex_esc : Html.EscapeString "<Alice> & 'x'" = "&lt;Alice&gt; &amp; &#39;x&#39;".
Proof. vm_compute. reflexivity. Qed.
Example ex_utf8 : map Utf8.ValidString ["abc"; String (chr 0xC3) (String (chr 0xA9) EmptyString); String (chr 0xC3) EmptyString; String (chr 0xFF) "a"] = [true; true; false; false].
Proof. vm_compute. reflexivity. Qed.
Example ex_runes : Utf8.runes (String (chr 0xE2) (String (chr 0x82) (String (chr 0xAC) "a"))) = [0x20AC; 97].
Proof. vm_compute. reflexivity. Qed.
